(** * Qui3zBot: the quiz round engine, embedded and verified

    The development follows the four Python modules of the bot:
    [textnorm.py] (answer normalisation), [quiz.py] (catalog loading,
    draw bags, answer checking), [db.py] (the single-row round state and
    the sessions table) and [main.py] (hint planning, the round state
    machine and the two start paths).

    Python strings are sequences of Unicode code points; they are modelled
    as [list N].  What the code takes from Python's own library
    ([str.lower], [unicodedata], the character classes of [re] and [str],
    [int], [repr], [random]) is a record of functions the embedding is
    parameterised by; [basic] is an instance that follows CPython on
    Latin-1 and basic Cyrillic text, and is used to evaluate the code on
    concrete inputs.  The properties come after the definitions, grouped
    by module. *)

From Stdlib Require Import ZArith NArith List String Ascii DecimalString Lia Bool.
From Stdlib Require SpecFloat.
From stdpp Require Import base option list gmap.

Import ListNotations.

Abbreviation ustr := (list N) (only parsing).

(** A Rocq string literal read as a Python string, byte by byte (meant for
    ASCII literals). *)
Definition lit (s : string) : ustr := map N_of_ascii (list_ascii_of_string s).

(** ** JSON values as [json.load] returns them *)

(** A [dict] is kept as its list of items; [JFloat n d] is the float
    [n / d]. *)
#[warnings="-register-all"]
Inductive json :=
| JNull
| JBool (b : bool)
| JInt (z : Z)
| JFloat (n : Z) (d : positive)
| JStr (s : ustr)
| JArr (items : list json)
| JObj (items : list (ustr * json)).

(** ** What the code uses of Python's library and of SQLite *)

Record PyLib := {
  (** [str.lower] *)
  str_lower : ustr -> ustr;
  (** [unicodedata.normalize("NFKD", .)] *)
  nfkd : ustr -> ustr;
  (** [unicodedata.combining] *)
  combining : N -> N;
  (** the whitespace class of [str.strip], [str.split] and the regex [\s] *)
  isspace : N -> bool;
  (** [str.isalnum] on one character; the regex [\w] adds the underscore *)
  isalnum : N -> bool;
  (** [str.isdigit] on one character *)
  isdigit : N -> bool;
  (** [int(s)] on a string: [None] stands for [ValueError] *)
  int_of_str : ustr -> option Z;
  (** [str(x)] on a float, a list or a dict *)
  repr_of : json -> ustr;
  (** SQLite's INTEGER column affinity on a TEXT value: the integer the
      text is converted to, when it is a well-formed integer literal *)
  integer_affinity : ustr -> option Z
}.

(** [random]: a generator state, [random.Random(seed)], and
    [random.shuffle], of which only that it permutes its argument is
    used.  A seed is an [int] or a [str]. *)
Record PyRandom := {
  rng : Type;
  seeded : Z + ustr -> rng;
  shuffle : forall A : Type, rng -> list A -> list A * rng;
  shuffle_perm : forall A (g : rng) (l : list A), Permutation (shuffle A g l).1 l
}.
Arguments shuffle _ {_} _ _.

(** Exceptions the modelled code can raise. *)
Inductive exn :=
| IndexError          (* pop from empty list, list index out of range *)
| KeyError
| ValueError
| TypeError
| OperationalError    (* sqlite3: no such column *)
| IntegrityError      (* sqlite3: NOT NULL constraint failed *)
| OSError.            (* open: no such file, not readable *)

Inductive res (A : Type) :=
| Ok (a : A)
| Raise (e : exn).
Arguments Ok {A} a.
Arguments Raise {A} e.

(** ** Python string helpers *)

Definition space : N := 32%N.
Definition underscore : N := 95%N.

Fixpoint lstrip_by (p : N -> bool) (s : ustr) : ustr :=
  match s with
  | [] => []
  | c :: s' => if p c then lstrip_by p s' else s
  end.

Fixpoint rstrip_by (p : N -> bool) (s : ustr) : ustr :=
  match s with
  | [] => []
  | c :: s' =>
      match rstrip_by p s' with
      | [] => if p c then [] else [c]
      | r => c :: r
      end
  end.

(** [s.strip()] *)
Definition strip (L : PyLib) (s : ustr) : ustr :=
  rstrip_by (isspace L) (lstrip_by (isspace L) s).

(** [re.sub] of a one-class pattern [[class]+] by a single space: every
    maximal run of characters of the class becomes one space.  [in_run]
    says that the previous character belonged to a run. *)
Fixpoint sub_runs_from (p : N -> bool) (in_run : bool) (s : ustr) : ustr :=
  match s with
  | [] => []
  | c :: s' =>
      if p c then
        if in_run then sub_runs_from p true s'
        else space :: sub_runs_from p true s'
      else c :: sub_runs_from p false s'
  end.

Definition sub_runs (p : N -> bool) (s : ustr) : ustr := sub_runs_from p false s.

(** [s.split()]: the maximal runs of non-whitespace characters.  [cur] is
    the word being read, reversed. *)
Fixpoint split_from (p : N -> bool) (cur : ustr) (s : ustr) : list ustr :=
  match s with
  | [] => match cur with [] => [] | _ => [rev cur] end
  | c :: s' =>
      if p c then
        match cur with
        | [] => split_from p [] s'
        | _ => rev cur :: split_from p [] s'
        end
      else split_from p (c :: cur) s'
  end.

Definition split (L : PyLib) (s : ustr) : list ustr := split_from (isspace L) [] s.

(** [s.split(":", 1)[1]]: what follows the first colon; [IndexError] when
    there is none. *)
Fixpoint after_colon (s : ustr) : res ustr :=
  match s with
  | [] => Raise IndexError
  | c :: s' => if N.eqb c 58 then Ok s' else after_colon s'
  end.

(** [s.isdigit()]: non-empty and every character a digit. *)
Definition str_isdigit (L : PyLib) (s : ustr) : bool :=
  match s with
  | [] => false
  | _ => forallb (isdigit L) s
  end.

(** The regex class [\w]. *)
Definition is_word (L : PyLib) (c : N) : bool := isalnum L c || N.eqb c underscore.

(** [str(z)] for an [int]. *)
Definition str_of_int (z : Z) : ustr := lit (NilZero.string_of_int (Z.to_int z)).

(** ** textnorm.py *)

Definition yo : N := 1105%N.   (* U+0451 CYRILLIC SMALL LETTER IO *)
Definition ye : N := 1077%N.   (* U+0435 CYRILLIC SMALL LETTER IE *)

(** [_punct_re = re.compile(r"[^\w\s]+")] *)
Definition punct (L : PyLib) (c : N) : bool := negb (is_word L c) && negb (isspace L c).

Definition normalize (L : PyLib) (text : ustr) : ustr :=
  match text with
  | [] => []
  | _ =>
      let t := str_lower L (strip L text) in
      (* replace U+0451 by U+0435 *)
      let t := map (fun ch => if N.eqb ch yo then ye else ch) t in
      (* remove diacritics *)
      let t := nfkd L t in
      let t := List.filter (fun ch => N.eqb (combining L ch) 0) t in
      (* remove punctuation/symbols *)
      let t := sub_runs (punct L) t in
      (* collapse spaces *)
      strip L (sub_runs (isspace L) t)
  end.

(** ** quiz.py *)

(** A loaded question: the dict [_normalize_question] builds.  Every key
    is always present, so [q.get(k, default)] is the field. *)
Record Question := {
  q_id : ustr;
  q_category : option ustr;
  q_question : ustr;
  q_answers : list ustr;
  q_aliases : list ustr;
  q_tags : list ustr;
  q_difficulty : json;
  q_lang : json;
  q_meta : json
}.

(** [d.get(k)] on the items of a dict. *)
Fixpoint dict_get (items : list (ustr * json)) (k : ustr) : option json :=
  match items with
  | [] => None
  | (k', v) :: rest => if bool_decide (k' = k) then Some v else dict_get rest k
  end.

(** Truth value of a JSON value. *)
Definition truthy (v : json) : bool :=
  match v with
  | JNull => false
  | JBool b => b
  | JInt z => negb (Z.eqb z 0)
  | JFloat n _ => negb (Z.eqb n 0)
  | JStr s => match s with [] => false | _ => true end
  | JArr l => match l with [] => false | _ => true end
  | JObj l => match l with [] => false | _ => true end
  end.

Definition nonempty {A} (l : list A) : bool :=
  match l with [] => false | _ => true end.

(** [str(x)] *)
Definition py_str (L : PyLib) (v : json) : ustr :=
  match v with
  | JNull => lit "None"
  | JBool true => lit "True"
  | JBool false => lit "False"
  | JInt z => str_of_int z
  | JStr s => s
  | _ => repr_of L v
  end.

(** [int(x)] *)
Definition py_int (L : PyLib) (v : json) : res Z :=
  match v with
  | JBool b => Ok (if b then 1 else 0)%Z
  | JInt z => Ok z
  | JFloat n d => Ok (Z.quot n (Z.pos d))
  | JStr s => match int_of_str L s with Some z => Ok z | None => Raise ValueError end
  | _ => Raise TypeError
  end.

(** [os.path.basename]: what follows the last slash. *)
Fixpoint basename_from (cur : ustr) (s : ustr) : ustr :=
  match s with
  | [] => rev cur
  | c :: s' => if N.eqb c 47 then basename_from [] s' else basename_from (c :: cur) s'
  end.
Definition basename (s : ustr) : ustr := basename_from [] s.

(** The local [clean_list] of [_normalize_question]. *)
Fixpoint clean_list (L : PyLib) (xs : list json) : list ustr :=
  match xs with
  | [] => []
  | JStr x :: rest =>
      let s := strip L x in
      if nonempty s then s :: clean_list L rest else clean_list L rest
  | _ :: rest => clean_list L rest
  end.

(** [[normalize(t) for t in tags if isinstance(t, str)]] *)
Fixpoint normalized_strs (L : PyLib) (xs : list json) : list ustr :=
  match xs with
  | [] => []
  | JStr t :: rest => normalize L t :: normalized_strs L rest
  | _ :: rest => normalized_strs L rest
  end.

(** The value of the ["difficulty"] key of the output dict:
    [int(q.get("difficulty", 2)) if str(q.get("difficulty", "")).isdigit()
     else q.get("difficulty", 2)]. *)
Definition difficulty_of (L : PyLib) (d : list (ustr * json)) : res json :=
  if str_isdigit L (py_str L (default (JStr []) (dict_get d (lit "difficulty")))) then
    match py_int L (default (JInt 2) (dict_get d (lit "difficulty"))) with
    | Ok z => Ok (JInt z)
    | Raise e => Raise e
    end
  else Ok (default (JInt 2) (dict_get d (lit "difficulty"))).

(** [_normalize_question(q, file_path)], with [n_loaded] for
    [len(self.questions)].  [Ok None] is a rejected record. *)
Definition _normalize_question (L : PyLib) (n_loaded : nat) (q : json) (file_path : ustr)
  : res (option Question) :=
  match q with
  | JObj d =>
      match dict_get d (lit "question") with
      | Some (JStr text) =>
          if negb (nonempty (strip L text)) then Ok None else
          match dict_get d (lit "answers") with
          | Some (JArr answers) =>
              if negb (existsb (fun a => match a with
                                          | JStr s => nonempty (strip L s)
                                          | _ => false
                                          end) answers)
              then Ok None else
              let qid :=
                match dict_get d (lit "id") with
                | None | Some JNull =>
                    JStr (basename file_path ++ lit "::" ++ str_of_int (Z.of_nat n_loaded + 1))
                | Some v => v
                end in
              let category := default JNull (dict_get d (lit "category")) in
              let tags :=
                let v := default JNull (dict_get d (lit "tags")) in
                match (if truthy v then v else JArr []) with     (* ... or [] *)
                | JArr l => l
                | _ => []
                end in
              let tags :=
                match category with
                | JStr c =>
                    if nonempty c && nonempty (strip L c) then
                      let cat_tag := normalize L c in
                      if nonempty cat_tag && negb (bool_decide (cat_tag ∈ normalized_strs L tags))
                      then tags ++ [JStr cat_tag] else tags
                    else tags
                | _ => tags
                end in
              let aliases :=
                let v := default JNull (dict_get d (lit "aliases")) in
                match (if truthy v then v else JArr []) with     (* ... or [] *)
                | JArr l => l
                | _ => []
                end in
              match difficulty_of L d with
              | Raise e => Raise e
              | Ok difficulty =>
                  Ok (Some {|
                    q_id := py_str L qid;
                    q_category := match category with JStr c => Some (strip L c) | _ => None end;
                    q_question := strip L text;
                    q_answers := clean_list L answers;
                    q_aliases := clean_list L aliases;
                    q_tags := clean_list L tags;
                    q_difficulty := difficulty;
                    q_lang := default (JStr (lit "ru")) (dict_get d (lit "lang"));
                    q_meta := default (JObj []) (dict_get d (lit "meta"))
                  |})
              end
          | _ => Ok None
          end
      | _ => Ok None
      end
  | _ => Ok None
  end.

(** The engine object.  The two bag dicts map a scope key to the list of
    ids still to be drawn; [pop()] takes from the end. *)
Record QuizEngine := {
  questions : list Question;
  by_id : gmap ustr Question;
  _bag_by_tag : gmap ustr (list ustr);
  _bag_by_category : gmap ustr (list ustr)
}.

(** The loop of [_load_file] over the items of one file. *)
Fixpoint load_items (L : PyLib) (file_path : ustr) (items : list json) (qs : list Question)
  : res (list Question) :=
  match items with
  | [] => Ok qs
  | raw :: rest =>
      match _normalize_question L (length qs) raw file_path with
      | Raise e => Raise e
      | Ok (Some q) => load_items L file_path rest (qs ++ [q])
      | Ok None => load_items L file_path rest qs
      end
  end.

(** [_load_file], given the parsed content of the file; the opening and
    parsing of the file come with [_load_file_from] below. *)
Definition _load_file (L : PyLib) (file_path : ustr) (data : json) (qs : list Question)
  : res (list Question) :=
  match data with
  | JObj d =>
      match dict_get d (lit "questions") with
      | Some (JArr items) => load_items L file_path items qs
      | _ => Ok qs     (* unknown format -> ignore *)
      end
  | JArr items => load_items L file_path items qs
  | _ => Ok qs
  end.

Fixpoint load_files (L : PyLib) (files : list (ustr * json)) (qs : list Question)
  : res (list Question) :=
  match files with
  | [] => Ok qs
  | (fp, data) :: rest =>
      match _load_file L fp data qs with
      | Raise e => Raise e
      | Ok qs' => load_files L rest qs'
      end
  end.

(** [for q in self.questions: self.by_id[str(q["id"])] = q] *)
Definition build_by_id (qs : list Question) : gmap ustr Question :=
  foldl (fun m q => <[q_id q := q]> m) ∅ qs.

(** [QuizEngine(path)]: [files] are the JSON files found under [path], in
    the order [load] visits them, each with its parsed content; finding,
    opening and parsing them come with [load_from] below. *)
Definition load (L : PyLib) (files : list (ustr * json)) : res QuizEngine :=
  match load_files L files [] with
  | Raise e => Raise e
  | Ok qs => Ok {| questions := qs; by_id := build_by_id qs;
                   _bag_by_tag := ∅; _bag_by_category := ∅ |}
  end.

Definition all_tag : ustr := lit "all".

Definition _ids_for_tag (L : PyLib) (e : QuizEngine) (tag : ustr) : list ustr :=
  if bool_decide (tag = all_tag) then map q_id (questions e)
  else
    let tag_n := normalize L tag in
    map q_id (List.filter (fun q => bool_decide (tag_n ∈ map (normalize L) (q_tags q)))
                          (questions e)).

(** The ids [_next_by_category] collects for a normalised category. *)
Definition ids_for_category (L : PyLib) (e : QuizEngine) (cat_n : ustr) : list ustr :=
  map q_id (List.filter (fun q => bool_decide (normalize L (default [] (q_category q)) = cat_n))
                        (questions e)).

(** [l.pop()] *)
Definition pop {A} (l : list A) : res (A * list A) :=
  match rev l with
  | [] => Raise IndexError
  | x :: r => Ok (x, rev r)
  end.

(** Code that mutates an object and may raise: the state is threaded and
    survives an exception. *)
Definition M (S A : Type) : Type := S -> res A * S.

Definition ret {S A} (a : A) : M S A := fun s => (Ok a, s).
Definition raise {S A} (e : exn) : M S A := fun s => (Raise e, s).
Definition bind {S A B} (m : M S A) (k : A -> M S B) : M S B :=
  fun s => match m s with
           | (Ok a, s') => k a s'
           | (Raise e, s') => (Raise e, s')
           end.
Definition get {S} : M S S := fun s => (Ok s, s).
Definition put {S} (s : S) : M S unit := fun _ => (Ok tt, s).
Definition lift {S A} (r : res A) : M S A := fun s => (r, s).

Notation "'let*' x := m 'in' k" := (bind m (fun x => k))
  (at level 10, x pattern, m at level 100, k at level 200, only parsing).

Definition set_bag_by_tag (e : QuizEngine) (tag : ustr) (ids : list ustr) : QuizEngine :=
  {| questions := questions e; by_id := by_id e;
     _bag_by_tag := <[tag := ids]> (_bag_by_tag e);
     _bag_by_category := _bag_by_category e |}.

Definition set_bag_by_category (e : QuizEngine) (cat_n : ustr) (ids : list ustr) : QuizEngine :=
  {| questions := questions e; by_id := by_id e;
     _bag_by_tag := _bag_by_tag e;
     _bag_by_category := <[cat_n := ids]> (_bag_by_category e) |}.

(** The engine together with the state of the global [random] generator. *)
Definition Eng (R : PyRandom) : Type := QuizEngine * rng R.

(** [self.by_id[qid]] *)
Definition lookup_by_id {S} (e : QuizEngine) (qid : ustr) : M S Question :=
  match by_id e !! qid with
  | Some q => ret q
  | None => raise KeyError
  end.

(** The tag branch of [next_question]. *)
Definition next_by_tag (L : PyLib) (R : PyRandom) (tag : ustr) : M (Eng R) Question :=
  let* (e, g) := get in
  let* _ :=
    match _bag_by_tag e !! tag with
    | Some (_ :: _) => ret tt
    | _ =>
        let '(ids, g') := shuffle R g (_ids_for_tag L e tag) in
        put (set_bag_by_tag e tag ids, g')
    end in
  let* (e, g) := get in
  let* (qid, rest) := lift (pop (default [] (_bag_by_tag e !! tag))) in
  let* _ := put (set_bag_by_tag e tag rest, g) in
  lookup_by_id e qid.

Definition _next_by_category (L : PyLib) (R : PyRandom) (category : ustr)
  : M (Eng R) Question :=
  let cat_n := normalize L category in
  let* (e, g) := get in
  let* _ :=
    match _bag_by_category e !! cat_n with
    | Some (_ :: _) => ret tt
    | _ =>
        let '(ids, g') := shuffle R g (ids_for_category L e cat_n) in
        put (set_bag_by_category e cat_n ids, g')
    end in
  let* (e, g) := get in
  match default [] (_bag_by_category e !! cat_n) with
  | [] => next_by_tag L R all_tag      (* fallback to all *)
  | bag =>
      let* (qid, rest) := lift (pop bag) in
      let* _ := put (set_bag_by_category e cat_n rest, g) in
      lookup_by_id e qid
  end.

(** [next_question(tag="all", category=None)] *)
Definition next_question (L : PyLib) (R : PyRandom) (tag : ustr) (category : option ustr)
  : M (Eng R) Question :=
  match category with
  | Some (c :: cs) => _next_by_category L R (c :: cs)
  | _ => next_by_tag L R tag
  end.

(** [check_answer(question, user_text)] *)
Definition check_answer (L : PyLib) (question : Question) (user_text : ustr) : bool :=
  let t := normalize L user_text in
  match t with
  | [] => false
  | _ =>
      let correct : gset ustr := ∅ in
      let correct := foldl (fun c a => {[normalize L a]} ∪ c) correct (q_answers question) in
      let correct := foldl (fun c a => {[normalize L a]} ∪ c) correct (q_aliases question) in
      bool_decide (t ∈ correct)
  end.

(** [list_tags] and [list_categories] return [sorted(set)]: strings are
    compared code point by code point. *)
Fixpoint ustr_ltb (a b : ustr) : bool :=
  match a, b with
  | _, [] => false
  | [], _ :: _ => true
  | x :: a', y :: b' => N.ltb x y || (N.eqb x y && ustr_ltb a' b')
  end.

Fixpoint sorted_insert (x : ustr) (l : list ustr) : list ustr :=
  match l with
  | [] => [x]
  | y :: l' =>
      if bool_decide (x = y) then l
      else if ustr_ltb x y then x :: l
      else y :: sorted_insert x l'
  end.

Definition sorted_set (l : list ustr) : list ustr := foldr sorted_insert [] l.

Definition list_tags (e : QuizEngine) : list ustr :=
  List.filter (fun t => negb (bool_decide (t = all_tag)))
              (sorted_set (concat (map q_tags (questions e)))).

Definition list_categories (e : QuizEngine) : list ustr :=
  sorted_set (omap (fun q => match q_category q with
                             | Some (c :: cs) => Some (c :: cs)
                             | _ => None
                             end) (questions e)).

(** ** db.py *)

(** A value bound to a SQL parameter or read from a column. *)
Inductive value :=
| VNone
| VInt (z : Z)
| VBool (b : bool)
| VStr (s : ustr).

#[global] Instance value_eq_dec : EqDecision value.
Proof. solve_decision. Defined.

Definition value_truthy (v : value) : bool :=
  match v with
  | VNone => false
  | VInt z => negb (Z.eqb z 0)
  | VBool b => b
  | VStr s => nonempty s
  end.

(** [x or d] *)
Definition value_or (x d : value) : value := if value_truthy x then x else d.

(** The row of table [state]. *)
Record StateRow := {
  active : value;            (* INTEGER NOT NULL DEFAULT 0 *)
  current_qid : value;       (* INTEGER *)
  winner_user_id : value;    (* INTEGER *)
  deadline_ts : value;       (* INTEGER *)
  tag : value;               (* TEXT *)
  round_total : value;       (* INTEGER *)
  round_current : value;     (* INTEGER *)
  session_id : value;        (* INTEGER *)
  hint_level : value;        (* INTEGER *)
  hint_total : value;        (* INTEGER *)
  hint_answer : value;       (* TEXT *)
  next_hint_ts : value       (* INTEGER *)
}.

(** The row [INSERT OR IGNORE INTO state(id) VALUES (1)] creates. *)
Definition initial_row : StateRow :=
  {| active := VInt 0; current_qid := VNone; winner_user_id := VNone; deadline_ts := VNone;
     tag := VNone; round_total := VNone; round_current := VNone; session_id := VNone;
     hint_level := VNone; hint_total := VNone; hint_answer := VNone; next_hint_ts := VNone |}.

(** The keyword arguments [set_state] is called with in [main.py]. *)
Inductive key :=
| K_active | K_current_qid | K_winner_user_id | K_deadline_ts | K_tag | K_round_total
| K_round_current | K_session_id | K_hint_level | K_hint_total | K_hint_answer
| K_next_hint_ts
| K_category.

(** Whether table [state] has a column of that name ([init_db] and its
    migrations). *)
Definition is_column (k : key) : bool :=
  match k with
  | K_category => false
  | _ => true
  end.

(** What a column of INTEGER affinity stores for a bound value. *)
Definition as_integer (L : PyLib) (v : value) : value :=
  match v with
  | VBool b => VInt (if b then 1 else 0)
  | VStr s => match integer_affinity L s with Some z => VInt z | None => VStr s end
  | _ => v
  end.

(** What a column of TEXT affinity stores for a bound value. *)
Definition as_text (v : value) : value :=
  match v with
  | VBool b => VStr (str_of_int (if b then 1 else 0))
  | VInt z => VStr (str_of_int z)
  | _ => v
  end.

Definition update_column (L : PyLib) (r : StateRow) (kv : key * value) : StateRow :=
  let '(k, v) := kv in
  match k with
  | K_active =>
      {| active := as_integer L v; current_qid := current_qid r; winner_user_id := winner_user_id r;
         deadline_ts := deadline_ts r; tag := tag r; round_total := round_total r;
         round_current := round_current r; session_id := session_id r; hint_level := hint_level r;
         hint_total := hint_total r; hint_answer := hint_answer r; next_hint_ts := next_hint_ts r |}
  | K_current_qid =>
      {| active := active r; current_qid := as_integer L v; winner_user_id := winner_user_id r;
         deadline_ts := deadline_ts r; tag := tag r; round_total := round_total r;
         round_current := round_current r; session_id := session_id r; hint_level := hint_level r;
         hint_total := hint_total r; hint_answer := hint_answer r; next_hint_ts := next_hint_ts r |}
  | K_winner_user_id =>
      {| active := active r; current_qid := current_qid r; winner_user_id := as_integer L v;
         deadline_ts := deadline_ts r; tag := tag r; round_total := round_total r;
         round_current := round_current r; session_id := session_id r; hint_level := hint_level r;
         hint_total := hint_total r; hint_answer := hint_answer r; next_hint_ts := next_hint_ts r |}
  | K_deadline_ts =>
      {| active := active r; current_qid := current_qid r; winner_user_id := winner_user_id r;
         deadline_ts := as_integer L v; tag := tag r; round_total := round_total r;
         round_current := round_current r; session_id := session_id r; hint_level := hint_level r;
         hint_total := hint_total r; hint_answer := hint_answer r; next_hint_ts := next_hint_ts r |}
  | K_tag =>
      {| active := active r; current_qid := current_qid r; winner_user_id := winner_user_id r;
         deadline_ts := deadline_ts r; tag := as_text v; round_total := round_total r;
         round_current := round_current r; session_id := session_id r; hint_level := hint_level r;
         hint_total := hint_total r; hint_answer := hint_answer r; next_hint_ts := next_hint_ts r |}
  | K_round_total =>
      {| active := active r; current_qid := current_qid r; winner_user_id := winner_user_id r;
         deadline_ts := deadline_ts r; tag := tag r; round_total := as_integer L v;
         round_current := round_current r; session_id := session_id r; hint_level := hint_level r;
         hint_total := hint_total r; hint_answer := hint_answer r; next_hint_ts := next_hint_ts r |}
  | K_round_current =>
      {| active := active r; current_qid := current_qid r; winner_user_id := winner_user_id r;
         deadline_ts := deadline_ts r; tag := tag r; round_total := round_total r;
         round_current := as_integer L v; session_id := session_id r; hint_level := hint_level r;
         hint_total := hint_total r; hint_answer := hint_answer r; next_hint_ts := next_hint_ts r |}
  | K_session_id =>
      {| active := active r; current_qid := current_qid r; winner_user_id := winner_user_id r;
         deadline_ts := deadline_ts r; tag := tag r; round_total := round_total r;
         round_current := round_current r; session_id := as_integer L v; hint_level := hint_level r;
         hint_total := hint_total r; hint_answer := hint_answer r; next_hint_ts := next_hint_ts r |}
  | K_hint_level =>
      {| active := active r; current_qid := current_qid r; winner_user_id := winner_user_id r;
         deadline_ts := deadline_ts r; tag := tag r; round_total := round_total r;
         round_current := round_current r; session_id := session_id r; hint_level := as_integer L v;
         hint_total := hint_total r; hint_answer := hint_answer r; next_hint_ts := next_hint_ts r |}
  | K_hint_total =>
      {| active := active r; current_qid := current_qid r; winner_user_id := winner_user_id r;
         deadline_ts := deadline_ts r; tag := tag r; round_total := round_total r;
         round_current := round_current r; session_id := session_id r; hint_level := hint_level r;
         hint_total := as_integer L v; hint_answer := hint_answer r; next_hint_ts := next_hint_ts r |}
  | K_hint_answer =>
      {| active := active r; current_qid := current_qid r; winner_user_id := winner_user_id r;
         deadline_ts := deadline_ts r; tag := tag r; round_total := round_total r;
         round_current := round_current r; session_id := session_id r; hint_level := hint_level r;
         hint_total := hint_total r; hint_answer := as_text v; next_hint_ts := next_hint_ts r |}
  | K_next_hint_ts =>
      {| active := active r; current_qid := current_qid r; winner_user_id := winner_user_id r;
         deadline_ts := deadline_ts r; tag := tag r; round_total := round_total r;
         round_current := round_current r; session_id := session_id r; hint_level := hint_level r;
         hint_total := hint_total r; hint_answer := hint_answer r; next_hint_ts := as_integer L v |}
  | K_category => r
  end.

(** A row of table [sessions]. *)
Record Session := {
  s_session_id : Z;
  s_chat_id : Z;
  s_thread_id : value;
  s_tag : value;
  s_round_total : Z;
  s_started_at : Z;
  s_ended_at : option Z
}.

(** The database: the single row of [state] (absent before [init_db]), the
    bound topic of table [config], and table [sessions] with the last
    rowid its AUTOINCREMENT key handed out. *)
Record Db := {
  state_row : option StateRow;
  allowed_chat_id : value;
  allowed_thread_id : value;
  sessions : list Session;
  last_session_id : Z
}.

Definition with_state_row (d : Db) (r : option StateRow) : Db :=
  {| state_row := r; allowed_chat_id := allowed_chat_id d;
     allowed_thread_id := allowed_thread_id d; sessions := sessions d;
     last_session_id := last_session_id d |}.

(** [set_state]: one UPDATE of the columns named by the keyword
    arguments. *)
Definition set_state (L : PyLib) (kwargs : list (key * value)) : M Db unit :=
  match kwargs with
  | [] => ret tt
  | _ =>
      if existsb (fun kv => negb (is_column kv.1)) kwargs then raise OperationalError
      else if existsb (fun kv => match kv with (K_active, VNone) => true | _ => false end) kwargs
      then raise IntegrityError
      else
        let* d := get in
        put (with_state_row d ((fun r => foldl (update_column L) r kwargs) <$> state_row d))
  end.

(** The dict [get_state] returns. *)
Record St := {
  st_active : bool;
  st_current_qid : value;
  st_winner_user_id : value;
  st_deadline_ts : value;
  st_tag : value;
  st_round_total : value;
  st_round_current : value;
  st_session_id : value;
  st_hint_level : value;
  st_hint_total : value;
  st_hint_answer : value;
  st_next_hint_ts : value
}.

Definition get_state : M Db St :=
  let* d := get in
  match state_row d with
  | None =>
      ret {| st_active := false; st_current_qid := VNone; st_winner_user_id := VNone;
             st_deadline_ts := VNone; st_tag := VStr all_tag; st_round_total := VNone;
             st_round_current := VInt 0; st_session_id := VNone; st_hint_level := VInt 0;
             st_hint_total := VInt 0; st_hint_answer := VNone; st_next_hint_ts := VNone |}
  | Some row =>
      ret {| st_active := value_truthy (active row);
             st_current_qid := current_qid row;
             st_winner_user_id := winner_user_id row;
             st_deadline_ts := deadline_ts row;
             st_tag := value_or (tag row) (VStr all_tag);
             st_round_total := round_total row;
             st_round_current := value_or (round_current row) (VInt 0);
             st_session_id := session_id row;
             st_hint_level := value_or (hint_level row) (VInt 0);
             st_hint_total := value_or (hint_total row) (VInt 0);
             st_hint_answer := hint_answer row;
             st_next_hint_ts := next_hint_ts row |}
  end.

Definition get_topic : M Db (value * value) :=
  let* d := get in ret (allowed_chat_id d, allowed_thread_id d).

(** [create_session]: returns [cur.lastrowid]. *)
Definition create_session (chat_id : Z) (thread_id : value) (tag : value) (round_total : Z)
                          (now : Z) : M Db Z :=
  let* d := get in
  let sid := (last_session_id d + 1)%Z in
  let* _ := put {| state_row := state_row d; allowed_chat_id := allowed_chat_id d;
                   allowed_thread_id := allowed_thread_id d;
                   sessions := sessions d ++
                     [{| s_session_id := sid; s_chat_id := chat_id; s_thread_id := thread_id;
                         s_tag := tag; s_round_total := round_total; s_started_at := now;
                         s_ended_at := None |}];
                   last_session_id := sid |} in
  ret sid.

(** [end_session]: the bound session id may be any value read from the
    state row; rows whose id equals it get [ended_at]. *)
Definition end_session (sid : value) (now : Z) : M Db unit :=
  let* d := get in
  put {| state_row := state_row d; allowed_chat_id := allowed_chat_id d;
         allowed_thread_id := allowed_thread_id d;
         sessions := map (fun s => if bool_decide (VInt (s_session_id s) = sid)
                                   then {| s_session_id := s_session_id s; s_chat_id := s_chat_id s;
                                           s_thread_id := s_thread_id s; s_tag := s_tag s;
                                           s_round_total := s_round_total s;
                                           s_started_at := s_started_at s;
                                           s_ended_at := Some now |}
                                   else s) (sessions d);
         last_session_id := last_session_id d |}.

(** ** main.py *)

Definition QUESTION_TTL_SEC : Z := 25.
Definition PAUSE_BETWEEN_SEC : Z := 4.
Definition MAX_POINTS : Z := 5.
Definition MIN_POINTS : Z := 1.

Record HintPlan := {
  plan_hint_total : Z;
  interval_sec : Z
}.

Definition choose_hint_plan (L : PyLib) (answer_display : ustr) : HintPlan :=
  let letters := List.filter (isalnum L) answer_display in
  let n := Z.of_nat (length letters) in
  let hint_total :=
    if (n <=? 2)%Z then 0%Z
    else if (n <=? 4)%Z then 1%Z
    else if (n <=? 7)%Z then 2%Z
    else if (n <=? 10)%Z then 3%Z
    else 4%Z in
  if (hint_total <=? 0)%Z then {| plan_hint_total := 0; interval_sec := 9999 |}
  else
    let available := Z.max 5 (QUESTION_TTL_SEC - 7) in
    let interval := Z.max 4 (available / (hint_total + 1)) in
    {| plan_hint_total := hint_total; interval_sec := interval |}.

Fixpoint make_hint_from (L : PyLib) (idx : nat) (answer_display : ustr)
                        (reveal_positions : gset nat) : ustr :=
  match answer_display with
  | [] => []
  | ch :: rest =>
      (if N.eqb ch 32 || N.eqb ch 45 then ch
       else if isalnum L ch then
              if bool_decide (idx ∈ reveal_positions) then ch else underscore
            else ch)
      :: make_hint_from L (S idx) rest reveal_positions
  end.

Definition make_hint_random (L : PyLib) (answer_display : ustr) (reveal_positions : gset nat)
  : ustr :=
  make_hint_from L 0 answer_display reveal_positions.

(** [[i for i, ch in enumerate(answer_display) if ch.isalnum()]], counting
    from [idx]. *)
Fixpoint alnum_positions_from (L : PyLib) (idx : nat) (s : ustr) : list nat :=
  match s with
  | [] => []
  | ch :: rest =>
      if isalnum L ch then idx :: alnum_positions_from L (S idx) rest
      else alnum_positions_from L (S idx) rest
  end.

Definition alnum_positions (L : PyLib) (s : ustr) : list nat := alnum_positions_from L 0 s.

Definition shuffled_alnum_positions (L : PyLib) (R : PyRandom) (answer_display : ustr)
                                    (seed : Z + ustr) : list nat :=
  (shuffle R (seeded R seed) (alnum_positions L answer_display)).1.

Definition points_for_hint_level (hint_level : Z) : Z :=
  Z.max MIN_POINTS (MAX_POINTS - hint_level).

(** [math.ceil(n * (hint_level_next / (hint_total + 1)))] for
    [hint_total + 1 > 0], the quotient and the product taken exactly
    ([reveal_count_float] below is the floating-point computation, and
    [reveal_count_float_agrees] compares the two). *)
Definition ceil_fraction (n hint_level_next hint_total : Z) : Z :=
  (- ((- (n * hint_level_next)) / (hint_total + 1)))%Z.

(** How many letters a hint shows: the [k] of [hint_watcher]. *)
Definition reveal_count (n hint_level_next hint_total : Z) : Z :=
  Z.max 1 (ceil_fraction n hint_level_next hint_total).

(** The same in binary64, as Python computes it: the quotient of the two
    integers rounded to a float, [n] times it rounded again, and
    [math.ceil] of the product. *)
Definition b64_of_Z (z : Z) : SpecFloat.spec_float :=
  SpecFloat.binary_normalize 53 1024 z 0 false.

Definition b64_ceil (x : SpecFloat.spec_float) : Z :=
  match x with
  | SpecFloat.S754_finite s m e =>
      if (0 <=? e)%Z then (if s then - (Z.pos m * 2 ^ e) else Z.pos m * 2 ^ e)%Z
      else if s then (- (Z.pos m / 2 ^ (- e)))%Z
      else (- ((- Z.pos m) / 2 ^ (- e)))%Z
  | _ => 0%Z
  end.

Definition reveal_count_float (n hint_level_next hint_total : Z) : Z :=
  let frac :=
    SpecFloat.SFdiv 53 1024 (b64_of_Z hint_level_next) (b64_of_Z (hint_total + 1)) in
  Z.max 1 (b64_ceil (SpecFloat.SFmul 53 1024 (b64_of_Z n) frac)).

(** [st["current_qid"] or 0] as a seed. *)
Definition seed_of (current_qid : value) : Z + ustr :=
  match value_or current_qid (VInt 0) with
  | VStr s => inr s
  | VInt z => inl z
  | VBool b => inl (if b then 1 else 0)%Z
  | VNone => inl 0%Z
  end.

(** The [reveal_positions] set [hint_watcher] computes for the hint it is
    about to post. *)
Definition reveal_positions (L : PyLib) (R : PyRandom) (answer_display : ustr)
                            (seed : Z + ustr) (hint_level_next hint_total : Z) : gset nat :=
  let total_positions := shuffled_alnum_positions L R answer_display seed in
  let n := Z.of_nat (length total_positions) in
  let k := reveal_count n hint_level_next hint_total in
  list_to_set (take (Z.to_nat k) total_positions).

(** An incoming message and a button press, as far as the handlers read
    them. *)
Record Message := {
  chat_id : Z;
  message_thread_id : option Z;
  text : option ustr
}.

Record CallbackQuery := {
  cb_message : option Message;
  cb_data : ustr
}.

(** What the bot sends, by kind. *)
Inductive Out :=
| ReplyBindTopicFirst
| ReplyAlreadyRunning
| ReplyChooseCategory (categories : list ustr)
| ReplyUnknownTag
| ReplyStarted (tag : ustr) (rounds : Z)
| EditStarted (category : ustr) (rounds : Z)
| CbAnswer
| CbAnswerAlreadyRunning
| SendFinishedWithRating (session_id : value)
| SendFinished
| SendQuestion (header_cur : Z) (header_total : value) (question : ustr)
| SendHint (hint_level_next : Z) (hint_total : Z) (hint_text : ustr) (pts_now : Z).

(** The entry of [pending_setup] for one topic. *)
Record Pending := {
  p_category : option ustr;
  p_tag : option ustr
}.

Section Bot.

Context (L : PyLib) (R : PyRandom).

(** The process: the database, the [quiz] engine with the global random
    generator, the module globals [current_question] and [pending_setup],
    the messages sent so far and the clock [now_ts] reads. *)
Record World := {
  w_db : Db;
  w_quiz : Eng R;
  w_current_question : option Question;
  w_pending_setup : gmap (Z * option Z) Pending;
  w_out : list Out;
  w_now : Z
}.

Definition in_db {A} (m : M Db A) : M World A :=
  fun w =>
    let '(r, d) := m (w_db w) in
    (r, {| w_db := d; w_quiz := w_quiz w; w_current_question := w_current_question w;
           w_pending_setup := w_pending_setup w; w_out := w_out w; w_now := w_now w |}).

Definition in_quiz {A} (m : M (Eng R) A) : M World A :=
  fun w =>
    let '(r, q) := m (w_quiz w) in
    (r, {| w_db := w_db w; w_quiz := q; w_current_question := w_current_question w;
           w_pending_setup := w_pending_setup w; w_out := w_out w; w_now := w_now w |}).

Definition send (o : Out) : M World unit :=
  fun w =>
    (Ok tt, {| w_db := w_db w; w_quiz := w_quiz w; w_current_question := w_current_question w;
               w_pending_setup := w_pending_setup w; w_out := w_out w ++ [o]; w_now := w_now w |}).

Definition set_current_question (q : Question) : M World unit :=
  fun w =>
    (Ok tt, {| w_db := w_db w; w_quiz := w_quiz w; w_current_question := Some q;
               w_pending_setup := w_pending_setup w; w_out := w_out w; w_now := w_now w |}).

Definition set_pending_setup (p : gmap (Z * option Z) Pending) : M World unit :=
  fun w =>
    (Ok tt, {| w_db := w_db w; w_quiz := w_quiz w; w_current_question := w_current_question w;
               w_pending_setup := p; w_out := w_out w; w_now := w_now w |}).

Definition now_ts : M World Z := fun w => (Ok (w_now w), w).

Definition of_thread (t : option Z) : value :=
  match t with Some z => VInt z | None => VNone end.

(** [a >= b] on two values read from the state. *)
Definition value_ge (a b : value) : res bool :=
  match a, b with
  | VInt x, VInt y => Ok (y <=? x)%Z
  | _, _ => Raise TypeError
  end.

(** [cur += 1] *)
Definition value_succ (a : value) : res Z :=
  match a with
  | VInt x => Ok (x + 1)%Z
  | _ => Raise TypeError
  end.

Definition post_next_question (chat : Z) (thread : value) : M World unit :=
  let* st := in_db get_state in
  (* st.get("category"): the dict of get_state has no such key *)
  let category : option ustr := None in
  let total := st_round_total st in
  let cur := value_or (st_round_current st) (VInt 0) in
  let session_id := st_session_id st in
  let* finished :=
    match total with
    | VNone => ret false
    | _ => lift (value_ge cur total)
    end in
  if (finished : bool) then
    (* end quiz + show session rating *)
    let* _ := in_db (set_state L [(K_active, VInt 0); (K_deadline_ts, VNone);
                                  (K_next_hint_ts, VNone)]) in
    if value_truthy session_id then
      let* now := now_ts in
      let* _ := in_db (end_session session_id now) in
      send (SendFinishedWithRating session_id)
    else send SendFinished
  else
    let* q :=
      match category with
      | Some (c :: cs) => in_quiz (next_question L R all_tag (Some (c :: cs)))
      | _ => in_quiz (next_question L R all_tag None)
      end in
    let* _ := set_current_question q in
    let* cur := lift (value_succ cur) in
    let* now := now_ts in
    let deadline := (now + QUESTION_TTL_SEC)%Z in
    (* Hints based on the "display answer" (first answer) *)
    let answer_display := match q_answers q with a :: _ => a | [] => [] end in
    let plan := choose_hint_plan L answer_display in
    let next_hint :=
      if (0 <? plan_hint_total plan)%Z then VInt (now + interval_sec plan) else VNone in
    let* _ := in_db (set_state L [(K_active, VInt 1); (K_current_qid, VStr (q_id q));
                                  (K_winner_user_id, VNone); (K_deadline_ts, VInt deadline);
                                  (K_round_current, VInt cur); (K_hint_level, VInt 0);
                                  (K_hint_total, VInt (plan_hint_total plan));
                                  (K_hint_answer, VStr answer_display);
                                  (K_next_hint_ts, next_hint)]) in
    send (SendQuestion cur total (q_question q)).

Definition start_quiz (chat : Z) (thread : value) (tag : ustr) (rounds : Z) : M World unit :=
  let* now := now_ts in
  let* sid := in_db (create_session chat thread (VStr tag) rounds now) in
  let* _ := in_db (set_state L [(K_active, VInt 1); (K_current_qid, VNone);
                                (K_winner_user_id, VNone); (K_deadline_ts, VNone);
                                (K_tag, VStr tag); (K_round_total, VInt rounds);
                                (K_round_current, VInt 0); (K_session_id, VInt sid);
                                (K_hint_level, VInt 0); (K_hint_total, VInt 0);
                                (K_hint_answer, VNone); (K_next_hint_ts, VNone)]) in
  post_next_question chat thread.

Definition stop_quiz : M World unit :=
  let* st := in_db get_state in
  let* _ :=
    if value_truthy (st_session_id st) then
      let* now := now_ts in in_db (end_session (st_session_id st) now)
    else ret tt in
  in_db (set_state L [(K_active, VInt 0); (K_current_qid, VNone); (K_winner_user_id, VNone);
                      (K_deadline_ts, VNone); (K_tag, VStr all_tag); (K_round_total, VNone);
                      (K_round_current, VInt 0); (K_session_id, VNone); (K_hint_level, VInt 0);
                      (K_hint_total, VInt 0); (K_hint_answer, VNone); (K_next_hint_ts, VNone)]).

(** One turn of the loop of [hint_watcher] (without its [sleep]). *)
Definition hint_watcher_turn : M World unit :=
  let* st := in_db get_state in
  let* (allowed_chat, allowed_thread) := in_db get_topic in
  if st_active st && value_truthy allowed_chat && value_truthy allowed_thread then
    (* only if no winner yet *)
    let* due :=
      match st_winner_user_id st with
      | VNone =>
          if value_truthy (st_hint_total st) then
            let* ge := lift (value_ge (st_hint_level st) (st_hint_total st)) in
            ret (negb ge)
          else ret false
      | _ => ret false
      end in
    if (due : bool) then
      let nht := st_next_hint_ts st in
      let* now := now_ts in
      let* fire :=
        if value_truthy nht then
          let* ge := lift (value_ge (VInt now) nht) in
          ret (ge && value_truthy (st_hint_answer st))
        else ret false in
      match fire, st_hint_level st, st_hint_total st, st_hint_answer st with
      | true, VInt hint_level, VInt hint_total, VStr answer_display =>
          (* reveal more letters each hint: spread across total hints *)
          let hint_level_next := (hint_level + 1)%Z in
          let reveal :=
            reveal_positions L R answer_display (seed_of (st_current_qid st))
                             hint_level_next hint_total in
          let hint_text := make_hint_random L answer_display reveal in
          let pts_now := points_for_hint_level hint_level_next in
          let* _ := send (SendHint hint_level_next hint_total hint_text pts_now) in
          (* schedule next hint *)
          let plan := choose_hint_plan L answer_display in
          let next_hint :=
            if (hint_level_next <? hint_total)%Z then VInt (now + interval_sec plan) else VNone in
          in_db (set_state L [(K_hint_level, VInt hint_level_next); (K_next_hint_ts, next_hint)])
      | _, _, _, _ => ret tt
      end
    else ret tt
  else ret tt.

Definition allowed_topic_from_message (message : Message) (allowed_chat allowed_thread : value)
  : bool :=
  bool_decide (VInt (chat_id message) = allowed_chat)
  && bool_decide (of_thread (message_thread_id message) = allowed_thread).

Definition allowed_topic_from_callback (cb : CallbackQuery) (allowed_chat allowed_thread : value)
  : bool :=
  match cb_message cb with
  | None => false
  | Some m => allowed_topic_from_message m allowed_chat allowed_thread
  end.

Definition ensure_topic_or_hint (message : Message) : M World bool :=
  let* (allowed_chat, allowed_thread) := in_db get_topic in
  if negb (value_truthy allowed_chat) || negb (value_truthy allowed_thread) then
    let* _ := send ReplyBindTopicFirst in ret false
  else
    match message_thread_id message with
    | None => ret false
    | Some _ => ret (allowed_topic_from_message message allowed_chat allowed_thread)
    end.

(** [max(1, min(rounds, 50))] *)
Definition clamp_rounds (rounds : Z) : Z := Z.max 1 (Z.min rounds 50).

(** The handler of [/quiz_start]. *)
Definition cmd_quiz_start (message : Message) : M World unit :=
  let* ok := ensure_topic_or_hint message in
  if negb ok then ret tt else
  let* st := in_db get_state in
  if st_active st then send ReplyAlreadyRunning else
  let parts := split L (default [] (text message)) in
  let thread_id := message_thread_id message in
  (* No params -> inline menu *)
  if bool_decide (length parts = 1%nat) then
    let* w := get in
    let categories := list_categories (w_quiz w).1 in
    let* _ := set_pending_setup
                (<[(chat_id message, thread_id) :=
                     {| p_category := head categories; p_tag := None |}]> (w_pending_setup w)) in
    send (ReplyChooseCategory categories)
  else
  (* /quiz_start <tag> <rounds> *)
  let tag := match parts with _ :: p1 :: _ => strip L p1 | _ => all_tag end in
  let rounds :=
    match parts with
    | _ :: _ :: p2 :: _ =>
        match int_of_str L p2 with
        | Some r => r
        | None => 10%Z      (* except ValueError *)
        end
    | _ => 10%Z
    end in
  let* w := get in
  let allowed_set := all_tag :: list_tags (w_quiz w).1 in
  if negb (bool_decide (tag ∈ allowed_set)) then send ReplyUnknownTag else
  let rounds := clamp_rounds rounds in
  let* _ := send (ReplyStarted tag rounds) in
  start_quiz (chat_id message) (of_thread thread_id) tag rounds.

(** The fallback category of [cb_choose_round]. *)
Definition fallback_category : ustr :=
  [1054; 1073; 1097; 1080; 1077; 32; 1079; 1085; 1072; 1085; 1080; 1103]%N.

(** The handler of the [qs_round:] buttons. *)
Definition cb_choose_round (cb : CallbackQuery) : M World unit :=
  let* (allowed_chat, allowed_thread) := in_db get_topic in
  if negb (value_truthy allowed_chat) || negb (value_truthy allowed_thread) then send CbAnswer
  else if negb (allowed_topic_from_callback cb allowed_chat allowed_thread) then send CbAnswer
  else
  match cb_message cb with
  | None => raise TypeError
  | Some message =>
      let* st := in_db get_state in
      if st_active st then send CbAnswerAlreadyRunning else
      let* arg := lift (after_colon (cb_data cb)) in
      let rounds :=
        match int_of_str L arg with
        | Some r => r
        | None => 10%Z      (* except ValueError *)
        end in
      let rounds := clamp_rounds rounds in
      let key := (chat_id message, message_thread_id message) in
      let* w := get in
      let category :=
        match w_pending_setup w !! key with
        | Some p => p_category p
        | None => None
        end in
      let category :=
        match category with
        | Some (c :: cs) => c :: cs
        | _ => fallback_category
        end in
      let* _ := send (EditStarted category rounds) in
      let* _ := set_pending_setup (delete key (w_pending_setup w)) in
      let* now := now_ts in
      let* sid := in_db (create_session (chat_id message) (of_thread (message_thread_id message))
                                        (VStr category) rounds now) in
      let* _ := in_db (set_state L [(K_active, VBool true); (K_current_qid, VNone);
                                    (K_winner_user_id, VNone); (K_deadline_ts, VNone);
                                    (K_tag, VNone); (K_round_total, VInt rounds);
                                    (K_round_current, VInt 0); (K_session_id, VInt sid);
                                    (K_hint_level, VInt 0); (K_hint_total, VInt 0);
                                    (K_hint_answer, VNone); (K_next_hint_ts, VNone);
                                    (K_category, VStr category)]) in
      let* _ := post_next_question (chat_id message) (of_thread (message_thread_id message)) in
      send CbAnswer
  end.

End Bot.

Arguments w_db {R} _.
Arguments w_quiz {R} _.
Arguments w_current_question {R} _.
Arguments w_pending_setup {R} _.
Arguments w_out {R} _.
Arguments w_now {R} _.

(** ** An instance of the library

    [basic] follows CPython 3.11 on the code points U+0000..U+00FF and
    U+0400..U+045F (Latin-1 and the basic Cyrillic block), on U+2115 and
    U+2122, and on what these decompose into; the character classes are
    those of CPython below U+0500.  Elsewhere it leaves characters
    unchanged and puts them in no class.  [basic_nfkd] does not reorder
    adjacent combining marks ([normalize] removes them right after). *)

Definition in_range (lo hi c : N) : bool := N.leb lo c && N.leb c hi.

Definition basic_isspace (c : N) : bool :=
  in_range 9 13 c || in_range 28 32 c || N.eqb c 133 || N.eqb c 160 || N.eqb c 5760
  || in_range 8192 8202 c || N.eqb c 8232 || N.eqb c 8233 || N.eqb c 8239
  || N.eqb c 8287 || N.eqb c 12288.

Definition basic_isalnum (c : N) : bool :=
  existsb (fun r => in_range r.1 r.2 c)
    [(48, 57); (65, 90); (97, 122); (170, 170); (178, 179); (181, 181); (185, 186);
     (188, 190); (192, 214); (216, 246); (248, 705); (710, 721); (736, 740); (748, 748);
     (750, 750); (880, 884); (886, 887); (890, 893); (895, 895); (902, 902); (904, 906);
     (908, 908); (910, 929); (931, 1013); (1015, 1153); (1162, 1279); (8469, 8469)]%N.

Definition basic_isdigit (c : N) : bool :=
  in_range 48 57 c || in_range 178 179 c || N.eqb c 185.

Definition basic_combining (c : N) : N :=
  if in_range 768 846 c || in_range 848 879 c || in_range 1155 1159 c then 230%N else 0%N.

Definition basic_lower_char (c : N) : N :=
  if in_range 65 90 c || in_range 192 214 c || in_range 216 222 c || in_range 1040 1071 c
  then (c + 32)%N
  else if in_range 1024 1039 c then (c + 80)%N
  else c.

Definition basic_nfkd_char (c : N) : ustr :=
  match c with
  | 160 => [32] | 168 => [32; 776] | 170 => [97] | 175 => [32; 772] | 178 => [50]
  | 179 => [51] | 180 => [32; 769] | 181 => [956] | 184 => [32; 807] | 185 => [49]
  | 186 => [111] | 188 => [49; 8260; 52] | 189 => [49; 8260; 50] | 190 => [51; 8260; 52]
  | 192 => [65; 768] | 193 => [65; 769] | 194 => [65; 770] | 195 => [65; 771]
  | 196 => [65; 776] | 197 => [65; 778] | 199 => [67; 807] | 200 => [69; 768]
  | 201 => [69; 769] | 202 => [69; 770] | 203 => [69; 776] | 204 => [73; 768]
  | 205 => [73; 769] | 206 => [73; 770] | 207 => [73; 776] | 209 => [78; 771]
  | 210 => [79; 768] | 211 => [79; 769] | 212 => [79; 770] | 213 => [79; 771]
  | 214 => [79; 776] | 217 => [85; 768] | 218 => [85; 769] | 219 => [85; 770]
  | 220 => [85; 776] | 221 => [89; 769] | 224 => [97; 768] | 225 => [97; 769]
  | 226 => [97; 770] | 227 => [97; 771] | 228 => [97; 776] | 229 => [97; 778]
  | 231 => [99; 807] | 232 => [101; 768] | 233 => [101; 769] | 234 => [101; 770]
  | 235 => [101; 776] | 236 => [105; 768] | 237 => [105; 769] | 238 => [105; 770]
  | 239 => [105; 776] | 241 => [110; 771] | 242 => [111; 768] | 243 => [111; 769]
  | 244 => [111; 770] | 245 => [111; 771] | 246 => [111; 776] | 249 => [117; 768]
  | 250 => [117; 769] | 251 => [117; 770] | 252 => [117; 776] | 253 => [121; 769]
  | 255 => [121; 776] | 1024 => [1045; 768] | 1025 => [1045; 776] | 1027 => [1043; 769]
  | 1031 => [1030; 776] | 1036 => [1050; 769] | 1037 => [1048; 768] | 1038 => [1059; 774]
  | 1049 => [1048; 774] | 1081 => [1080; 774] | 1104 => [1077; 768] | 1105 => [1077; 776]
  | 1107 => [1075; 769] | 1111 => [1110; 776] | 1116 => [1082; 769] | 1117 => [1080; 768]
  | 1118 => [1091; 774] | 8469 => [78] | 8482 => [84; 77]
  | _ => [c]
  end%N.

Definition ascii_digit (c : N) : option Z :=
  if in_range 48 57 c then Some (Z.of_N (c - 48)) else None.

(** Digits with single underscores between them, as [int] reads them. *)
Fixpoint digits_from (acc : Z) (after_digit : bool) (s : ustr) : option Z :=
  match s with
  | [] => if after_digit then Some acc else None
  | c :: s' =>
      match ascii_digit c with
      | Some d => digits_from (10 * acc + d) true s'
      | None =>
          if N.eqb c underscore && after_digit then
            match s' with
            | [] => None
            | _ => digits_from acc false s'
            end
          else None
      end
  end.

Definition signed_digits (s : ustr) : option Z :=
  match s with
  | 45%N :: s' => Z.opp <$> digits_from 0 false s'
  | 43%N :: s' => digits_from 0 false s'
  | _ => digits_from 0 false s
  end.

(** The blanks [int] skips around the number. *)
Definition int_blank (c : N) : bool :=
  in_range 9 13 c || N.eqb c 32 || (N.leb 127 c && basic_isspace c).

Definition basic_int_of_str (s : ustr) : option Z :=
  signed_digits (rstrip_by int_blank (lstrip_by int_blank s)).

Definition basic_integer_affinity (s : ustr) : option Z :=
  match s with
  | 45%N :: s' =>
      if nonempty s' && forallb (in_range 48 57) s' then Z.opp <$> digits_from 0 false s'
      else None
  | _ => if nonempty s && forallb (in_range 48 57) s then digits_from 0 false s else None
  end.

(** [repr] of a float, a list or a dict is not spelled out: the instance
    answers with a text that starts like it. *)
Definition basic_repr_of (v : json) : ustr :=
  match v with
  | JFloat n d => str_of_int (Z.quot n (Z.pos d)) ++ lit "."
  | JArr _ => lit "["
  | JObj _ => lit "{"
  | _ => []
  end.

Definition basic : PyLib :=
  {| str_lower := map basic_lower_char;
     nfkd := flat_map basic_nfkd_char;
     combining := basic_combining;
     isspace := basic_isspace;
     isalnum := basic_isalnum;
     isdigit := basic_isdigit;
     int_of_str := basic_int_of_str;
     repr_of := basic_repr_of;
     integer_affinity := basic_integer_affinity |}.

(** A small generator to run the draws and the hints on examples: it
    inserts each element at a pseudo-random place of the shuffled rest. *)
Fixpoint insert_at {A} (i : nat) (x : A) (l : list A) : list A :=
  match i, l with
  | S i', y :: l' => y :: insert_at i' x l'
  | _, _ => x :: l
  end.

Definition lcg_next (g : Z) : Z := ((g * 1103515245 + 12345) mod 2147483648)%Z.

Fixpoint lcg_shuffle {A} (g : Z) (l : list A) : list A * Z :=
  match l with
  | [] => ([], g)
  | x :: l' =>
      let '(r, g1) := lcg_shuffle g l' in
      let g2 := lcg_next g1 in
      (insert_at (Z.to_nat (g2 mod (Z.of_nat (length r) + 1))) x r, g2)
  end.

Definition lcg_seed (seed : Z + ustr) : Z :=
  match seed with
  | inl z => Z.abs z
  | inr s => Z.of_N (fold_right N.add 0%N s)
  end.

Definition lcg_random : PyRandom.
Proof.
  refine {| rng := Z; seeded := lcg_seed; shuffle := @lcg_shuffle |}.
  intros A g l. revert g. induction l as [|x l IH]; intros g; simpl.
  - constructor.
  - specialize (IH g). destruct (lcg_shuffle g l) as [r g1]. simpl in *.
    rewrite <- IH.
    generalize (Z.to_nat (lcg_next g1 mod (Z.of_nat (length r) + 1))).
    clear. intros i. revert r. induction i as [|i IHi]; intros [|y r]; simpl;
      try reflexivity.
    rewrite IHi. apply perm_swap.
Defined.

(** ** Definitions the properties are stated with *)






(** [n] consecutive calls of [next_question] with the same arguments. *)
Fixpoint draw_n (L : PyLib) (R : PyRandom) (tag : ustr) (category : option ustr) (n : nat)
  : M (Eng R) (list Question) :=
  match n with
  | O => ret []
  | S n' =>
      let* q := next_question L R tag category in
      let* qs := draw_n L R tag category n' in
      ret (q :: qs)
  end.

(** What [load] establishes and the draws keep: every question can be
    looked up by its id, and the entry found carries that id. *)
Definition indexed (e : QuizEngine) : Prop :=
  forall q, q ∈ questions e -> exists q', by_id e !! q_id q = Some q' /\ q_id q' = q_id q.

(** Runs the monadic code of the engine one step further. *)
Ltac run := unfold bind, get, put, ret, lift, raise, lookup_by_id; simpl.

(** Two engines with the same catalog. *)
Definition same_catalog (e e' : QuizEngine) : Prop :=
  questions e' = questions e /\ by_id e' = by_id e.

(** The ids a call of [next_question] may draw, and the bag it draws
    from. *)
Definition eligible_ids (L : PyLib) (e : QuizEngine) (tag : ustr) (category : option ustr)
  : list ustr :=
  match category with
  | Some (c :: cs) => ids_for_category L e (normalize L (c :: cs))
  | _ => _ids_for_tag L e tag
  end.

Definition scope_bag (L : PyLib) (e : QuizEngine) (tag : ustr) (category : option ustr)
  : option (list ustr) :=
  match category with
  | Some (c :: cs) => _bag_by_category e !! normalize L (c :: cs)
  | _ => _bag_by_tag e !! tag
  end.

(** A small catalog to run the code on. *)
Definition jstr (s : string) : json := JStr (lit s).
Definition field (k : string) (v : json) : ustr * json := (lit k, v).

Definition demo_files : list (ustr * json) :=
  [(lit "questions/geo.json",
    JObj [field "dataset" (JObj []);
          field "questions"
           (JArr [JObj [field "id" (jstr "q1"); field "category" (jstr "Geo");
                        field "question" (jstr "Capital of France?");
                        field "answers" (JArr [jstr "Paris"]); field "difficulty" (JInt 3)];
                  JObj [field "id" (jstr "q2"); field "category" (jstr "Geo");
                        field "question" (jstr "Capital of Russia?");
                        field "answers" (JArr [jstr "Moscow"]);
                        field "aliases" (JArr [jstr "Moskva"]);
                        field "tags" (JArr [jstr "capitals"]);
                        field "difficulty" (jstr "hard")];
                  JObj [field "category" (jstr "Math"); field "question" (jstr " 2+2? ");
                        field "answers" (JArr [jstr "4"; jstr "four"; JInt 4])];
                  JObj [field "id" (jstr "bad"); field "question" (jstr "   ");
                        field "answers" (JArr [jstr "x"])]])])].

(** The engine of an empty catalog, and the engine [load] builds from the
    demo catalog. *)
Definition empty_engine : QuizEngine :=
  {| questions := []; by_id := ∅; _bag_by_tag := ∅; _bag_by_category := ∅ |}.

Definition demo_engine : QuizEngine :=
  match load basic demo_files with
  | Ok e => e
  | Raise _ => empty_engine
  end.

(** A record whose difficulty is a text, and the question it loads as. *)
Definition hard_record : json :=
  JObj [field "id" (jstr "q2"); field "question" (jstr "Capital of Russia?");
        field "answers" (JArr [jstr "Moscow"]); field "difficulty" (jstr "hard")].

Definition hard_question : Question :=
  {| q_id := lit "q2"; q_category := None; q_question := lit "Capital of Russia?";
     q_answers := [lit "Moscow"]; q_aliases := []; q_tags := [];
     q_difficulty := jstr "hard"; q_lang := jstr "ru"; q_meta := JObj [] |}.

(** What [get_state] returns once every per-question field is cleared. *)
Definition cleared_state : St :=
  {| st_active := false; st_current_qid := VNone; st_winner_user_id := VNone;
     st_deadline_ts := VNone; st_tag := VStr all_tag; st_round_total := VNone;
     st_round_current := VInt 0; st_session_id := VNone; st_hint_level := VInt 0;
     st_hint_total := VInt 0; st_hint_answer := VNone; st_next_hint_ts := VNone |}.

(** The row after [set_state(active=0, deadline_ts=None, next_hint_ts=None)]. *)
Definition finished_row (r : StateRow) : StateRow :=
  {| active := VInt 0; current_qid := current_qid r; winner_user_id := winner_user_id r;
     deadline_ts := VNone; tag := tag r; round_total := round_total r;
     round_current := round_current r; session_id := session_id r;
     hint_level := hint_level r; hint_total := hint_total r; hint_answer := hint_answer r;
     next_hint_ts := VNone |}.

(** Runs the monadic code of the handlers one step further. *)
Ltac run_world :=
  unfold in_db, in_quiz, send, set_current_question, set_pending_setup, now_ts,
    get_state, get_topic, set_state, end_session, create_session, with_state_row,
    bind, get, put, ret, lift, raise; simpl.

(** A bound topic with no game running, and a message sent in it. *)
Definition demo_db : Db :=
  {| state_row := Some initial_row; allowed_chat_id := VInt (-1001);
     allowed_thread_id := VInt 7; sessions := []; last_session_id := 0 |}.

(** The process around an engine: nothing sent yet, the clock at 1000. *)
Definition demo_world (e : QuizEngine) : World lcg_random :=
  @Build_World lcg_random demo_db (e, 42%Z) None ∅ [] 1000.

Definition topic_message (t : string) : Message :=
  {| chat_id := -1001; message_thread_id := Some 7%Z; text := Some (lit t) |}.

(** A button pressed under a message of the bound topic. *)
Definition topic_button (data : string) : CallbackQuery :=
  {| cb_message := Some {| chat_id := -1001; message_thread_id := Some 7%Z; text := None |};
     cb_data := lit data |}.

(** The same process at a later time. *)
Definition at_time {R : PyRandom} (now : Z) (w : World R) : World R :=
  {| w_db := w_db w; w_quiz := w_quiz w; w_current_question := w_current_question w;
     w_pending_setup := w_pending_setup w; w_out := w_out w; w_now := now |}.

(** The rounds argument of [/quiz_start <tag> <rounds>] before clamping. *)
Definition requested_rounds (L : PyLib) (parts : list ustr) : Z :=
  match parts with
  | _ :: _ :: p2 :: _ => default 10%Z (int_of_str L p2)
  | _ => 10%Z
  end.

(** * The rest of the program

    What follows embeds the functions of [db.py] and [main.py] that the
    round engine above does not need: the bound topic, the tables of
    users and points, and the handlers and watchers that answer, skip,
    stop and time out a question. *)

(** ** db.py: the bound topic, users and points *)

(** [set_topic]: the UPDATE of the single row of table [config]. *)
Definition set_topic (chat_id thread_id : Z) : M Db unit :=
  let* d := get in
  put {| state_row := state_row d; allowed_chat_id := VInt chat_id;
         allowed_thread_id := VInt thread_id; sessions := sessions d;
         last_session_id := last_session_id d |}.

#[global] Instance value_countable : Countable value.
Proof.
  refine (inj_countable'
            (fun v => match v with
                      | VNone => inl tt
                      | VInt z => inr (inl z)
                      | VBool b => inr (inr (inl b))
                      | VStr s => inr (inr (inr s))
                      end)
            (fun x => match x with
                      | inl _ => VNone
                      | inr (inl z) => VInt z
                      | inr (inr (inl b)) => VBool b
                      | inr (inr (inr s)) => VStr s
                      end) _).
  intros []; reflexivity.
Defined.

(** A row of table [users], without its key. *)
Record UserRow := {
  u_full_name : ustr;
  u_username : option ustr;
  u_updated_at : Z
}.

(** A row of table [points_events], without its AUTOINCREMENT id: rows
    are kept in the order of insertion. *)
Record PointsEvent := {
  e_ts : Z;
  e_chat_id : Z;
  e_thread_id : Z;
  e_session_id : value;
  e_user_id : Z;
  e_delta : Z;
  e_reason : ustr
}.

(** Tables [users], [scores], [session_scores] and [points_events], each
    keyed by its PRIMARY KEY.  The session id is whatever is read from
    the state row, stored with INTEGER affinity. *)
Record Board := {
  users : gmap (Z * Z) UserRow;             (* (chat_id, user_id) *)
  scores : gmap (Z * Z * Z) Z;              (* (chat_id, thread_id, user_id) -> points *)
  session_scores : gmap (value * Z) Z;      (* (session_id, user_id) -> points *)
  points_events : list PointsEvent
}.

(** [upsert_user]: INSERT, or on a conflict of the key DO UPDATE of the
    three other columns. *)
Definition upsert_user (chat_id user_id : Z) (full_name : ustr) (username : option ustr)
                       (now : Z) : M Board unit :=
  let* b := get in
  put {| users := <[(chat_id, user_id) :=
                      {| u_full_name := full_name; u_username := username;
                         u_updated_at := now |}]> (users b);
         scores := scores b; session_scores := session_scores b;
         points_events := points_events b |}.

(** [add_points_alltime]: INSERT of [delta], or on a conflict
    [points = points + excluded.points]. *)
Definition add_points_alltime (chat_id thread_id user_id delta : Z) : M Board unit :=
  let* b := get in
  let k := (chat_id, thread_id, user_id) in
  put {| users := users b;
         scores := <[k := match scores b !! k with
                          | Some points => (points + delta)%Z
                          | None => delta
                          end]> (scores b);
         session_scores := session_scores b; points_events := points_events b |}.

(** [add_points_session]: the same on [session_scores].  (A NULL session
    id, which no conflict clause matches, is not passed by the caller.) *)
Definition add_points_session (L : PyLib) (session_id : value) (user_id delta : Z)
  : M Board unit :=
  let* b := get in
  let k := (as_integer L session_id, user_id) in
  put {| users := users b; scores := scores b;
         session_scores := <[k := match session_scores b !! k with
                                  | Some points => (points + delta)%Z
                                  | None => delta
                                  end]> (session_scores b);
         points_events := points_events b |}.

Definition add_points_event (L : PyLib) (ts chat_id thread_id : Z) (session_id : value)
                            (user_id delta : Z) (reason : ustr) : M Board unit :=
  let* b := get in
  put {| users := users b; scores := scores b; session_scores := session_scores b;
         points_events := points_events b ++
           [{| e_ts := ts; e_chat_id := chat_id; e_thread_id := thread_id;
               e_session_id := as_integer L session_id; e_user_id := user_id;
               e_delta := delta; e_reason := reason |}] |}.

(** ** main.py: answers, skips, stops and timeouts *)

(** [message.from_user], as far as the handlers read it. *)
Record User := {
  user_id : Z;
  full_name : ustr;
  username : option ustr
}.

(** What the handlers below send, by kind. *)
Inductive Reply :=
| ReplyNotInThread
| ReplyTopicBound
| ReplyTags (tags : list ustr)
| ReplyStoppedWithRating (session_id : value)
| ReplyStopped
| ReplyNotRunning
| ReplySkipping
| ReplyCorrect (name : ustr) (pts : Z) (hint_level : Z) (ans : ustr)
| SendTimeout (ans : value).

(** U+2014 EM DASH, shown when there is no answer to show. *)
Definition dash : ustr := [8212%N].

(** [(q.get("answers") or [dash])[0]] *)
Definition first_answer (q : Question) : ustr :=
  match q_answers q with
  | a :: _ => a
  | [] => dash
  end.

(** An integer read from the state, where the code does arithmetic on
    it. *)
Definition value_int (a : value) : res Z :=
  match a with
  | VInt x => Ok x
  | VBool b => Ok (if b then 1 else 0)%Z
  | _ => Raise TypeError
  end.

(** The chat a message is sent to, which the embedding does not record. *)
Definition chat_of (v : value) : Z :=
  match v with
  | VInt z => z
  | _ => 0%Z
  end.

Section Handlers.

Context (L : PyLib) (R : PyRandom).

(** The process with its tables of users and points.  A reply of the
    handlers below is kept with the number of messages of the round
    engine ([w_out]) sent before it, which places it among them. *)
Record Process := {
  pr_world : World R;
  pr_board : Board;
  pr_replies : list (nat * Reply)
}.

Definition in_world {A} (m : M (World R) A) : M Process A :=
  fun p =>
    let '(r, w) := m (pr_world p) in
    (r, {| pr_world := w; pr_board := pr_board p; pr_replies := pr_replies p |}).

Definition in_board {A} (m : M Board A) : M Process A :=
  fun p =>
    let '(r, b) := m (pr_board p) in
    (r, {| pr_world := pr_world p; pr_board := b; pr_replies := pr_replies p |}).

Definition reply (r : Reply) : M Process unit :=
  fun p =>
    (Ok tt, {| pr_world := pr_world p; pr_board := pr_board p;
               pr_replies := pr_replies p ++ [(length (w_out (pr_world p)), r)] |}).

(** [asyncio.sleep(sec)], the handler running alone: the clock moves on. *)
Definition sleep (sec : Z) : M (World R) unit :=
  fun w =>
    (Ok tt, {| w_db := w_db w; w_quiz := w_quiz w;
               w_current_question := w_current_question w;
               w_pending_setup := w_pending_setup w; w_out := w_out w;
               w_now := (w_now w + sec)%Z |}).

(** The handler of [/set_topic]. *)
Definition cmd_set_topic (message : Message) : M Process unit :=
  match message_thread_id message with
  | None => reply ReplyNotInThread
  | Some thread_id =>
      let* _ := in_world (in_db R (set_topic (chat_id message) thread_id)) in
      reply ReplyTopicBound
  end.

(** The handler of [/tags]. *)
Definition cmd_tags (message : Message) : M Process unit :=
  let* ok := in_world (ensure_topic_or_hint R message) in
  if negb ok then ret tt else
  let* w := in_world get in
  reply (ReplyTags (all_tag :: list_tags (w_quiz w).1)).

(** The handler of [/quiz_stop]. *)
Definition cmd_quiz_stop (message : Message) : M Process unit :=
  let* ok := in_world (ensure_topic_or_hint R message) in
  if negb ok then ret tt else
  let* st := in_world (in_db R get_state) in
  let session_id := st_session_id st in
  let* _ := in_world (stop_quiz L R) in
  if value_truthy session_id then reply (ReplyStoppedWithRating session_id)
  else reply ReplyStopped.

(** The handler of [/skip]. *)
Definition cmd_skip (message : Message) : M Process unit :=
  let* ok := in_world (ensure_topic_or_hint R message) in
  if negb ok then ret tt else
  let* st := in_world (in_db R get_state) in
  if negb (st_active st) then reply ReplyNotRunning else
  let* _ := reply ReplySkipping in
  let* _ := in_world (sleep 1) in
  in_world (post_next_question L R (chat_id message) (of_thread (message_thread_id message))).

(** The handler of a text message, up to its pause: whether the message
    was the first right answer, and the points are booked.  (The handler
    is registered for messages that have a text.) *)
Definition on_text_answer_award (message : Message) (from_user : User) : M Process bool :=
  match text message with
  | Some (c :: cs) =>
      let message_text := c :: cs in
      let* ok := in_world (ensure_topic_or_hint R message) in
      if negb ok then ret false else
      match message_thread_id message with
      | None => ret false     (* not reached: [ok] is false outside a thread *)
      | Some thread_id =>
          let* now := in_world (now_ts R) in
          let* _ := in_board (upsert_user (chat_id message) (user_id from_user)
                                          (full_name from_user) (username from_user) now) in
          let* st := in_world (in_db R get_state) in
          if negb (st_active st) then ret false else
          match st_winner_user_id st with
          | VNone =>
              let* w := in_world get in
              match w_current_question w with
              | None => ret false
              | Some q =>
                  (* ignore very short spam *)
                  if (length (normalize L message_text) <? 1)%nat then ret false else
                  if check_answer L q message_text then
                    let* hint_level := lift (value_int (value_or (st_hint_level st) (VInt 0))) in
                    let pts := points_for_hint_level hint_level in
                    let ans := first_answer q in
                    let name := full_name from_user in
                    let session_id := value_or (st_session_id st) (VInt 0) in
                    (* lock winner + stop hints/timer *)
                    let* _ := in_world (in_db R (set_state L
                                [(K_winner_user_id, VInt (user_id from_user));
                                 (K_deadline_ts, VNone); (K_next_hint_ts, VNone)])) in
                    (* add points everywhere *)
                    let* _ := in_board (add_points_alltime (chat_id message) thread_id
                                                           (user_id from_user) pts) in
                    let* _ :=
                      if value_truthy session_id
                      then in_board (add_points_session L session_id (user_id from_user) pts)
                      else ret tt in
                    let* now := in_world (now_ts R) in
                    let* _ := in_board (add_points_event L now (chat_id message) thread_id
                                                         session_id (user_id from_user) pts
                                                         (lit "correct")) in
                    let* _ := reply (ReplyCorrect name pts hint_level ans) in
                    ret true
                  else ret false
              end
          | _ => ret false
          end
      end
  | _ => ret false
  end.

(** The whole handler: after a right answer, the pause and the next
    question. *)
Definition on_text_answer (message : Message) (from_user : User) : M Process unit :=
  let* awarded := on_text_answer_award message from_user in
  if (awarded : bool) then
    let* _ := in_world (sleep PAUSE_BETWEEN_SEC) in
    in_world (post_next_question L R (chat_id message) (of_thread (message_thread_id message)))
  else ret tt.

(** One turn of the loop of [timeout_watcher] (without its last
    [sleep]). *)
Definition timeout_watcher_turn : M Process unit :=
  let* st := in_world (in_db R get_state) in
  let* (allowed_chat, allowed_thread) := in_world (in_db R get_topic) in
  if st_active st && value_truthy allowed_chat && value_truthy allowed_thread then
    let* now := in_world (now_ts R) in
    let* due :=
      if value_truthy (st_deadline_ts st)
      then lift (value_ge (VInt now) (st_deadline_ts st))
      else ret false in
    if (due : bool) then
      match st_winner_user_id st with
      | VNone =>
          let* w := in_world get in
          let ans :=
            if value_truthy (st_hint_answer st) then st_hint_answer st
            else VStr (match w_current_question w with
                       | Some q => first_answer q
                       | None => dash
                       end) in
          let* _ := reply (SendTimeout ans) in
          let* _ := in_world (sleep PAUSE_BETWEEN_SEC) in
          in_world (post_next_question L R (chat_of allowed_chat) allowed_thread)
      | _ => ret tt
      end
    else ret tt
  else ret tt.

End Handlers.

Arguments pr_world {R} _.
Arguments pr_board {R} _.
Arguments pr_replies {R} _.

(** ** Definitions the properties of the rest are stated with *)

(** The hints among the messages sent. *)
Definition is_hint (o : Out) : bool :=
  match o with
  | SendHint _ _ _ _ => true
  | _ => false
  end.

Definition hints_sent (out : list Out) : nat := length (List.filter is_hint out).

(** The row after [set_state(hint_level=.., next_hint_ts=..)]. *)
Definition hinted_row (r : StateRow) (level : Z) (next : value) : StateRow :=
  {| active := active r; current_qid := current_qid r; winner_user_id := winner_user_id r;
     deadline_ts := deadline_ts r; tag := tag r; round_total := round_total r;
     round_current := round_current r; session_id := session_id r;
     hint_level := VInt level; hint_total := hint_total r; hint_answer := hint_answer r;
     next_hint_ts := next |}.

(** How many hints the plan of the current question still has to give. *)
Definition hints_left (d : Db) : nat :=
  match state_row d with
  | Some row =>
      match value_or (hint_level row) (VInt 0), value_or (hint_total row) (VInt 0) with
      | VInt level, VInt total => Z.to_nat (total - level)
      | _, _ => 0%nat
      end
  | None => 0%nat
  end.

(** The loop of [hint_watcher], one turn at each time of [clock]; an
    exception ends the task. *)
Fixpoint hint_watcher_turns (L : PyLib) (R : PyRandom) (clock : list Z) : M (World R) unit :=
  match clock with
  | [] => ret tt
  | now :: rest =>
      let* _ := (fun w => hint_watcher_turn L R (at_time now w)) in
      hint_watcher_turns L R rest
  end.

(** Strings in strictly ascending order, as [sorted] leaves the elements
    of a set. *)
Fixpoint ascending (l : list ustr) : bool :=
  match l with
  | [] => true
  | a :: l' =>
      match l' with
      | [] => true
      | b :: _ => ustr_ltb a b && ascending l'
      end
  end.

(** What the draws keep besides [indexed]: every id waiting in a bag can
    be looked up. *)
Definition bags_indexed (e : QuizEngine) : Prop :=
  (forall tag ids x, _bag_by_tag e !! tag = Some ids -> x ∈ ids -> is_Some (by_id e !! x))
  /\ (forall cat_n ids x,
        _bag_by_category e !! cat_n = Some ids -> x ∈ ids -> is_Some (by_id e !! x)).

(** The records [_load_file] reads from the content of a file. *)
Definition records_of (data : json) : list json :=
  match data with
  | JObj d =>
      match dict_get d (lit "questions") with
      | Some (JArr items) => items
      | _ => []
      end
  | JArr items => items
  | _ => []
  end.

(** A text that is not empty and has no blank at either end. *)
Definition stripped (L : PyLib) (s : ustr) : Prop := s <> [] /\ strip L s = s.

(** Runs of characters of a class separated by single spaces;
    [after_space] says that the previous character was a space (or that
    the text starts here).  [runs_canon] also asks that the text does not
    end with a space. *)
Fixpoint runs_spaced (ok : N -> bool) (after_space : bool) (t : ustr) : bool :=
  match t with
  | [] => true
  | c :: t' =>
      if N.eqb c space then negb after_space && runs_spaced ok true t'
      else ok c && runs_spaced ok false t'
  end.

Fixpoint runs_canon (ok : N -> bool) (after_space : bool) (t : ustr) : bool :=
  match t with
  | [] => negb after_space
  | c :: t' =>
      if N.eqb c space then negb after_space && runs_canon ok true t'
      else ok c && runs_canon ok false t'
  end.

(** Words of [\w] characters that are not blanks, with one space between
    two words and none around. *)
Definition words_spaced (L : PyLib) (t : ustr) : bool :=
  runs_canon (fun c => is_word L c && negb (isspace L c)) true t.

#[global] Instance key_eq_dec : EqDecision key.
Proof. solve_decision. Defined.



(** Session ids are distinct and none is above the last one handed out. *)
Definition sessions_wf (d : Db) : Prop :=
  NoDup (map s_session_id (sessions d))
  /\ Forall (fun s => (s_session_id s <= last_session_id d)%Z) (sessions d).

(** A session with its end time set. *)
Definition ended (s : Session) (now : Z) : Session :=
  {| s_session_id := s_session_id s; s_chat_id := s_chat_id s; s_thread_id := s_thread_id s;
     s_tag := s_tag s; s_round_total := s_round_total s; s_started_at := s_started_at s;
     s_ended_at := Some now |}.

(** The row after [post_next_question] has posted question [q] as round
    [cur] at time [now]. *)
Definition posted_row (L : PyLib) (r : StateRow) (q : Question) (cur now : Z) : StateRow :=
  let answer_display := match q_answers q with a :: _ => a | [] => [] end in
  let plan := choose_hint_plan L answer_display in
  {| active := VInt 1; current_qid := as_integer L (VStr (q_id q)); winner_user_id := VNone;
     deadline_ts := VInt (now + QUESTION_TTL_SEC); tag := tag r; round_total := round_total r;
     round_current := VInt cur; session_id := session_id r; hint_level := VInt 0;
     hint_total := VInt (plan_hint_total plan); hint_answer := VStr answer_display;
     next_hint_ts := if (0 <? plan_hint_total plan)%Z
                     then VInt (now + interval_sec plan) else VNone |}.

(** [n] calls of [post_next_question] in a row, as the answers, skips and
    timeouts of a game make them. *)
Fixpoint next_questions (L : PyLib) (R : PyRandom) (chat : Z) (thread : value) (n : nat)
  : M (World R) unit :=
  match n with
  | O => ret tt
  | S n' =>
      let* _ := post_next_question L R chat thread in
      next_questions L R chat thread n'
  end.

(** The messages that post the questions [qs] as rounds [first],
    [first + 1], ... of [total]. *)
Fixpoint question_messages (first : Z) (total : value) (qs : list Question) : list Out :=
  match qs with
  | [] => []
  | q :: qs' =>
      SendQuestion first total (q_question q) :: question_messages (first + 1) total qs'
  end.

(** The row after [set_state(winner_user_id=.., deadline_ts=None,
    next_hint_ts=None)]. *)
Definition won_row (r : StateRow) (uid : Z) : StateRow :=
  {| active := active r; current_qid := current_qid r; winner_user_id := VInt uid;
     deadline_ts := VNone; tag := tag r; round_total := round_total r;
     round_current := round_current r; session_id := session_id r;
     hint_level := hint_level r; hint_total := hint_total r; hint_answer := hint_answer r;
     next_hint_ts := VNone |}.

(** The points of a user in a topic and in a session (0 without a row),
    and the sum of the points events a filter selects. *)
Definition score (b : Board) (chat thread uid : Z) : Z :=
  default 0%Z (scores b !! (chat, thread, uid)).

Definition session_score (b : Board) (sid : value) (uid : Z) : Z :=
  default 0%Z (session_scores b !! (sid, uid)).

Definition event_sum (f : PointsEvent -> bool) (evs : list PointsEvent) : Z :=
  foldr Z.add 0%Z (map e_delta (List.filter f evs)).

(** The three tables of points agree: a score is the sum of the events
    of its user in its topic, and a session score the sum of the events
    of its user in its session (0 is the session id of an event outside
    any session). *)
Definition ledger_balanced (b : Board) : Prop :=
  (forall chat thread uid,
      score b chat thread uid
      = event_sum (fun e => bool_decide (e_chat_id e = chat /\ e_thread_id e = thread
                                         /\ e_user_id e = uid)) (points_events b))
  /\ (forall sid uid, sid <> VInt 0 ->
        session_score b sid uid
        = event_sum (fun e => bool_decide (e_session_id e = sid /\ e_user_id e = uid))
                    (points_events b)).

(** Runs the monadic code of the handlers of the rest one step further. *)
Ltac run_process :=
  unfold in_world, in_board, reply, sleep, upsert_user, add_points_alltime,
    add_points_session, add_points_event, ensure_topic_or_hint;
  run_world.

(** Closes the case in which a handler returns without booking. *)
Ltac quiet := left; split; [discriminate|]; repeat split; rewrite ?app_nil_r; auto; fail.

(** The same process at a later time. *)
Definition later {R : PyRandom} (now : Z) (p : Process R) : Process R :=
  {| pr_world := at_time now (pr_world p); pr_board := pr_board p;
     pr_replies := pr_replies p |}.

(** A process to run the handlers on: no user, no points, no reply yet. *)
Definition empty_board : Board :=
  {| users := ∅; scores := ∅; session_scores := ∅; points_events := [] |}.

Definition demo_process (w : World lcg_random) : Process lcg_random :=
  {| pr_world := w; pr_board := empty_board; pr_replies := [] |}.

(** The demo game after [/quiz_start all 3]: its first question is
    posted. *)
Definition playing : World lcg_random :=
  (cmd_quiz_start basic lcg_random (topic_message "/quiz_start all 3")
     (demo_world demo_engine)).2.

Definition playing_row : StateRow := default initial_row (state_row (w_db playing)).

Definition playing_question : Question :=
  default hard_question (w_current_question playing).

Definition alice : User := {| user_id := 11; full_name := lit "Alice"; username := None |}.

(** A process that no [/set_topic] has bound yet. *)
Definition unbound_world : World lcg_random :=
  @Build_World lcg_random
    {| state_row := Some initial_row; allowed_chat_id := VNone; allowed_thread_id := VNone;
       sessions := []; last_session_id := 0 |}
    (demo_engine, 42%Z) None ∅ [] 1000.

(** A catalog with a difficulty that [str.isdigit] accepts and [int]
    rejects: U+00B2 SUPERSCRIPT TWO. *)
Definition superscript_files : list (ustr * json) :=
  [(lit "questions/sq.json",
    JArr [JObj [field "question" (jstr "Area of a square of side 3?");
                field "answers" (JArr [jstr "9"]);
                field "difficulty" (JStr [178%N])]])].

(** The row [stop_quiz] leaves. *)
Definition cleared_row : StateRow :=
  {| active := VInt 0; current_qid := VNone; winner_user_id := VNone; deadline_ts := VNone;
     tag := VStr all_tag; round_total := VNone; round_current := VInt 0; session_id := VNone;
     hint_level := VInt 0; hint_total := VInt 0; hint_answer := VNone;
     next_hint_ts := VNone |}.

(** ** quiz.py: the files of a catalog *)

(** What [load] takes from the operating system. *)
Record Files := {
  (** [os.path.isdir] *)
  isdir : ustr -> bool;
  (** [os.walk(dir_path)]: the directories under [dir_path], each with
      the names of its files *)
  walk : ustr -> list (ustr * list ustr);
  (** [os.path.join] *)
  path_join : ustr -> ustr -> ustr;
  (** [open(file_path, "r", encoding="utf-8")] and [json.load]: the
      parsed content of the file, or the exception raised for a file that
      is missing or unreadable ([OSError]) or whose content is not UTF-8
      or not JSON (subclasses of [ValueError]) *)
  read_json : ustr -> res json
}.

(** [s.endswith(suffix)] *)
Definition endswith (s suffix : ustr) : bool :=
  bool_decide (drop (length s - length suffix) s = suffix).

(** [out.sort()] on a list of strings. *)
Fixpoint sort_insert (x : ustr) (l : list ustr) : list ustr :=
  match l with
  | [] => [x]
  | y :: l' => if ustr_ltb x y then x :: l else y :: sort_insert x l'
  end.

Definition sort_strs (l : list ustr) : list ustr := foldr sort_insert [] l.

Definition _iter_json_files (L : PyLib) (fs : Files) (dir_path : ustr) : list ustr :=
  sort_strs
    (flat_map (fun '(root, files) =>
                 map (path_join fs root)
                     (List.filter (fun fn => endswith (str_lower L fn) (lit ".json")) files))
              (walk fs dir_path)).

(** [_load_file(file_path)] as a whole: the file is opened and parsed,
    then its records are read as [_load_file] above does. *)
Definition _load_file_from (L : PyLib) (fs : Files) (file_path : ustr) (qs : list Question)
  : res (list Question) :=
  match read_json fs file_path with
  | Raise e => Raise e
  | Ok data => _load_file L file_path data qs
  end.

Fixpoint load_files_from (L : PyLib) (fs : Files) (paths : list ustr) (qs : list Question)
  : res (list Question) :=
  match paths with
  | [] => Ok qs
  | fp :: rest =>
      match _load_file_from L fs fp qs with
      | Raise e => Raise e
      | Ok qs' => load_files_from L fs rest qs'
      end
  end.

(** The files [load(path)] visits, in its order. *)
Definition files_of (L : PyLib) (fs : Files) (path : ustr) : list ustr :=
  if isdir fs path then _iter_json_files L fs path else [path].

(** [load(path)] as a whole. *)
Definition load_from (L : PyLib) (fs : Files) (path : ustr) : res QuizEngine :=
  match load_files_from L fs (files_of L fs path) [] with
  | Raise e => Raise e
  | Ok qs => Ok {| questions := qs; by_id := build_by_id qs;
                   _bag_by_tag := ∅; _bag_by_category := ∅ |}
  end.

(** The files [load_from] has read, each with its content, as [load]
    takes them. *)
Definition parsed_files (fs : Files) (paths : list ustr) : list (ustr * json) :=
  omap (fun fp => match read_json fs fp with
                  | Ok data => Some (fp, data)
                  | Raise _ => None
                  end) paths.

(** A directory [dir] with the given files and what reading each gives;
    any other path is missing. *)
Definition dir_files (dir : ustr) (files : list (ustr * res json)) : Files :=
  {| isdir := fun p => bool_decide (p = dir);
     walk := fun p => if bool_decide (p = dir) then [(dir, map fst files)] else [];
     path_join := fun a b => a ++ lit "/" ++ b;
     read_json := fun p =>
       default (Raise OSError)
               (snd <$> List.find (fun f => bool_decide (dir ++ lit "/" ++ f.1 = p)) files) |}.

(** ** The draw scopes of the specification *)

(** "Scope is either all questions, questions tagged T, or questions in
    category C." *)
Inductive Scope :=
| AllQuestions
| Tagged (t : ustr)
| InCategory (c : ustr).

(** The eligible questions of a scope are found "filtering by normalized
    tag or normalized category equality". *)
Definition eligible (L : PyLib) (s : Scope) (q : Question) : bool :=
  match s with
  | AllQuestions => true
  | Tagged t => existsb (fun t' => bool_decide (normalize L t' = normalize L t)) (q_tags q)
  | InCategory c =>
      match q_category q with
      | Some c' => bool_decide (normalize L c' = normalize L c)
      | None => false
      end
  end.

Definition eligible_questions (L : PyLib) (s : Scope) (e : QuizEngine) : list Question :=
  List.filter (eligible L s) (questions e).

(** How the code is asked for a scope: [next_question(tag=t)] or
    [next_question(category=c)]. *)
Definition scope_tag (s : Scope) : ustr :=
  match s with
  | Tagged t => t
  | _ => all_tag
  end.

Definition scope_category (s : Scope) : option ustr :=
  match s with
  | InCategory c => Some c
  | _ => None
  end.

(** The scopes the code reads as the specification does: the tag "all"
    is its name for all questions, and a category whose normal form is
    empty also matches the questions without a category. *)
Definition proper_scope (L : PyLib) (s : Scope) : Prop :=
  match s with
  | AllQuestions => True
  | Tagged t => t <> all_tag
  | InCategory c => normalize L c <> []
  end.

(** What [load] establishes and the draws keep besides [indexed]: the ids
    waiting in a bag are ids of its scope. *)
Definition bags_scoped (L : PyLib) (e : QuizEngine) : Prop :=
  (forall tag ids x, _bag_by_tag e !! tag = Some ids -> x ∈ ids -> x ∈ _ids_for_tag L e tag)
  /\ (forall cat_n ids x,
        _bag_by_category e !! cat_n = Some ids -> x ∈ ids -> x ∈ ids_for_category L e cat_n).

(** A catalog of two files in which two records have the same id. *)
Definition twin_files : list (ustr * json) :=
  [(lit "questions/geo.json",
    JArr [JObj [field "id" (JInt 1); field "question" (jstr "Capital of France?");
                field "answers" (JArr [jstr "Paris"]); field "tags" (JArr [jstr "geo"])]]);
   (lit "questions/math.json",
    JArr [JObj [field "id" (JInt 1); field "question" (jstr "2+2?");
                field "answers" (JArr [jstr "4"]); field "tags" (JArr [jstr "math"])]])].

Definition twin_engine : QuizEngine :=
  match load basic twin_files with
  | Ok e => e
  | Raise _ => empty_engine
  end.

Definition paris_question : Question :=
  {| q_id := lit "1"; q_category := None; q_question := lit "Capital of France?";
     q_answers := [lit "Paris"]; q_aliases := []; q_tags := [lit "geo"];
     q_difficulty := JInt 2; q_lang := jstr "ru"; q_meta := JObj [] |}.

Definition sum_question : Question :=
  {| q_id := lit "1"; q_category := None; q_question := lit "2+2?";
     q_answers := [lit "4"]; q_aliases := []; q_tags := [lit "math"];
     q_difficulty := JInt 2; q_lang := jstr "ru"; q_meta := JObj [] |}.

(** A directory with a catalog file, a file that is not a catalog, a file
    that is not JSON, and a file with a difficulty that [int] rejects. *)
Definition demo_dir : Files :=
  dir_files (lit "questions")
    [(lit "geo.json", Ok (JArr [JObj [field "id" (JInt 1);
                                      field "question" (jstr "Capital of France?");
                                      field "answers" (JArr [jstr "Paris"])]]));
     (lit "notes.txt", Ok (jstr "not read"));
     (lit "broken.JSON", Raise ValueError)].

(** * Properties *)

(** ** textnorm.py: normal forms of [normalize] *)

























(** Some values of [normalize], as CPython gives them. *)
Example normalize_examples :
  normalize basic (lit "  New   York!! ") = lit "new york"
  /\ normalize basic (lit "Jean-Paul_Sartre (1905)") = lit "jean paul_sartre 1905"
  /\ normalize basic (lit "?!") = []
  /\ normalize basic [1025; 1083; 1082; 1072; 33]%N = [1077; 1083; 1082; 1072]%N
  /\ normalize basic [67; 97; 102; 233]%N = lit "cafe".
Proof. repeat apply conj; vm_compute; reflexivity. Qed.

(** ** quiz.py: answer matching *)

Lemma foldl_add_normalized (L : PyLib) (l : list ustr) (c0 : gset ustr) (x : ustr) :
  x ∈ foldl (fun c a => {[normalize L a]} ∪ c) c0 l <-> x ∈ c0 \/ x ∈ map (normalize L) l.
Proof.
  revert c0. induction l as [|a l IH]; intros c0; simpl.
  - split; [now left | intros [H|H]; [exact H | inversion H]].
  - rewrite IH, elem_of_union, elem_of_singleton, elem_of_cons. tauto.
Qed.

(** C6: [check_answer] is exact membership of the normalised input in the
    normalised accepted answers and aliases, and a blank input never
    matches; "Paris!", "paris" and "  PARIS  " have the same normal form
    and match the accepted answer "Paris". *)
Theorem check_answer_exact_membership :
  (forall (L : PyLib) (question : Question) (user_text : ustr),
      check_answer L question user_text = true <->
      normalize L user_text <> []
      /\ normalize L user_text ∈ map (normalize L) (q_answers question ++ q_aliases question))
  /\ normalize basic (lit "Paris!") = lit "paris"
  /\ normalize basic (lit "paris") = lit "paris"
  /\ normalize basic (lit "  PARIS  ") = lit "paris"
  /\ (forall question : Question,
        lit "Paris" ∈ q_answers question ->
        check_answer basic question (lit "Paris!") = true
        /\ check_answer basic question (lit "paris") = true
        /\ check_answer basic question (lit "  PARIS  ") = true).
Proof.
  assert (Hiff : forall (L : PyLib) (question : Question) (user_text : ustr),
      check_answer L question user_text = true <->
      normalize L user_text <> []
      /\ normalize L user_text ∈ map (normalize L) (q_answers question ++ q_aliases question)).
  { intros L q t. unfold check_answer. cbv zeta.
    destruct (normalize L t) as [|c r] eqn:Et.
    - split; [discriminate | intros [H _]; contradiction].
    - rewrite bool_decide_eq_true, !foldl_add_normalized, map_app, elem_of_app.
      split.
      + intros [[H|H]|H]; [inversion H | |]; (split; [discriminate | tauto]).
      + intros [_ [H|H]]; tauto. }
  split; [exact Hiff|].
  assert (Hp : normalize basic (lit "Paris") = lit "paris") by reflexivity.
  repeat split; try reflexivity.
  all: apply Hiff; split; [discriminate|].
  all: change (lit "paris" ∈ map (normalize basic) (q_answers question ++ q_aliases question)).
  all: rewrite <- Hp; apply list_elem_of_fmap_2, elem_of_app; now left.
Qed.

(** ** main.py: the hint plan *)

Lemma plan_hint_total_by_count (L : PyLib) (answer_display : ustr) :
  plan_hint_total (choose_hint_plan L answer_display)
  = (let n := length (List.filter (isalnum L) answer_display) in
     if (n <=? 2)%nat then 0 else if (n <=? 4)%nat then 1 else if (n <=? 7)%nat then 2
     else if (n <=? 10)%nat then 3 else 4)%Z.
Proof.
  unfold choose_hint_plan.
  generalize (length (List.filter (isalnum L) answer_display)). intros n.
  cbv zeta.
  destruct (Nat.leb_spec n 2);
    [rewrite (proj2 (Z.leb_le (Z.of_nat n) 2)) by lia; reflexivity|].
  rewrite (proj2 (Z.leb_gt (Z.of_nat n) 2)) by lia.
  destruct (Nat.leb_spec n 4);
    [rewrite (proj2 (Z.leb_le (Z.of_nat n) 4)) by lia; reflexivity|].
  rewrite (proj2 (Z.leb_gt (Z.of_nat n) 4)) by lia.
  destruct (Nat.leb_spec n 7);
    [rewrite (proj2 (Z.leb_le (Z.of_nat n) 7)) by lia; reflexivity|].
  rewrite (proj2 (Z.leb_gt (Z.of_nat n) 7)) by lia.
  destruct (Nat.leb_spec n 10);
    [rewrite (proj2 (Z.leb_le (Z.of_nat n) 10)) by lia; reflexivity|].
  rewrite (proj2 (Z.leb_gt (Z.of_nat n) 10)) by lia.
  reflexivity.
Qed.

(** C7: the number of hints depends only on the count [n] of alphanumeric
    characters of the display answer, by the thresholds 2, 4, 7 and 10,
    and is capped at 4. *)
Theorem choose_hint_plan_thresholds (L : PyLib) (answer_display : ustr) :
  let n := length (List.filter (isalnum L) answer_display) in
  plan_hint_total (choose_hint_plan L answer_display) =
    (if (n <=? 2)%nat then 0
     else if (n <=? 4)%nat then 1
     else if (n <=? 7)%nat then 2
     else if (n <=? 10)%nat then 3
     else 4)%Z
  /\ (n = 2%nat -> plan_hint_total (choose_hint_plan L answer_display) = 0%Z)
  /\ (n = 5%nat -> plan_hint_total (choose_hint_plan L answer_display) = 2%Z)
  /\ (n = 11%nat -> plan_hint_total (choose_hint_plan L answer_display) = 4%Z).
Proof.
  cbv zeta. pose proof (plan_hint_total_by_count L answer_display) as H.
  cbv zeta in H. split; [exact H|]. rewrite H.
  repeat split; intros ->; reflexivity.
Qed.

(** Spaces, hyphens and punctuation do not count. *)
Example choose_hint_plan_examples :
  choose_hint_plan basic (lit "Rim") = {| plan_hint_total := 1; interval_sec := 9 |}
  /\ choose_hint_plan basic (lit "A-b c!") = {| plan_hint_total := 1; interval_sec := 9 |}
  /\ choose_hint_plan basic (lit "ab") = {| plan_hint_total := 0; interval_sec := 9999 |}
  /\ choose_hint_plan basic (lit "New York") = {| plan_hint_total := 2; interval_sec := 6 |}
  /\ choose_hint_plan basic (lit "Jean-Paul Sartre") = {| plan_hint_total := 4; interval_sec := 4 |}.
Proof. repeat apply conj; vm_compute; reflexivity. Qed.

(** ** main.py: the positions a hint reveals *)

Lemma alnum_positions_from_bound (L : PyLib) i s :
  Forall (fun j => i <= j)%nat (alnum_positions_from L i s).
Proof.
  revert i. induction s as [|c s IH]; intros i; simpl; [constructor|].
  assert (H : Forall (fun j => i <= j)%nat (alnum_positions_from L (S i) s)).
  { eapply Forall_impl; [apply IH|]. intros; simpl in *; lia. }
  destruct (isalnum L c); [constructor; [lia | exact H] | exact H].
Qed.

Lemma alnum_positions_from_NoDup (L : PyLib) i s : NoDup (alnum_positions_from L i s).
Proof.
  revert i. induction s as [|c s IH]; intros i; simpl; [constructor|].
  destruct (isalnum L c); [|apply IH].
  constructor; [|apply IH]. intros Hin.
  pose proof (alnum_positions_from_bound L (S i) s) as Hb.
  rewrite Forall_forall in Hb. specialize (Hb _ Hin). simpl in Hb. lia.
Qed.

(** The alphanumeric positions are as many as the alphanumeric characters. *)
Lemma alnum_positions_from_length (L : PyLib) i s :
  length (alnum_positions_from L i s) = length (List.filter (isalnum L) s).
Proof.
  revert i. induction s as [|c s IH]; intros i; simpl; [reflexivity|].
  destruct (isalnum L c); simpl; now rewrite IH.
Qed.

Lemma shuffled_alnum_positions_perm (L : PyLib) (R : PyRandom) s seed :
  shuffled_alnum_positions L R s seed ≡ₚ alnum_positions L s.
Proof. apply shuffle_perm. Qed.

(** [math.ceil] of an exact quotient by a positive number. *)
Lemma ceil_fraction_spec (n l t : Z) :
  (0 <= t)%Z ->
  ((ceil_fraction n l t - 1) * (t + 1) < n * l <= ceil_fraction n l t * (t + 1))%Z.
Proof.
  intros Ht. unfold ceil_fraction.
  pose proof (Z.div_mod (- (n * l)) (t + 1) ltac:(lia)) as Hd.
  pose proof (Z.mod_pos_bound (- (n * l)) (t + 1) ltac:(lia)) as Hm.
  nia.
Qed.

Lemma reveal_count_mono (n l1 l2 t : Z) :
  (0 <= n)%Z -> (0 <= t)%Z -> (l1 <= l2)%Z ->
  (reveal_count n l1 t <= reveal_count n l2 t)%Z.
Proof.
  intros Hn Ht Hl. unfold reveal_count.
  pose proof (ceil_fraction_spec n l1 t Ht). pose proof (ceil_fraction_spec n l2 t Ht).
  assert (ceil_fraction n l1 t <= ceil_fraction n l2 t)%Z by nia. lia.
Qed.

(** At the last level the count reaches [n] exactly when [n] is at most
    [max(1, hint_total)]. *)
Lemma reveal_count_last (n t : Z) :
  (1 <= n)%Z -> (0 <= t)%Z ->
  (n <= reveal_count n t t <-> n <= Z.max 1 t)%Z.
Proof.
  intros Hn Ht. unfold reveal_count.
  pose proof (ceil_fraction_spec n t t Ht). split; intros; nia.
Qed.

Lemma reveal_count_le (n l t : Z) :
  (1 <= n)%Z -> (0 <= t)%Z -> (l <= t)%Z -> (1 <= reveal_count n l t <= n)%Z.
Proof.
  intros Hn Ht Hl. unfold reveal_count.
  pose proof (ceil_fraction_spec n l t Ht). nia.
Qed.

(** The revealed set is the set of a prefix of the shuffled positions:
    nothing outside the alphanumeric positions, and as many elements as
    the prefix is long. *)
Lemma reveal_positions_subset (L : PyLib) (R : PyRandom) s seed l t :
  reveal_positions L R s seed l t ⊆ list_to_set (alnum_positions L s).
Proof.
  unfold reveal_positions. cbv zeta. intros x.
  rewrite !elem_of_list_to_set. intros Hx.
  rewrite <- (shuffled_alnum_positions_perm L R s seed).
  eapply subseteq_take, Hx.
Qed.

Lemma reveal_positions_size (L : PyLib) (R : PyRandom) s seed l t :
  size (reveal_positions L R s seed l t) =
  Nat.min (Z.to_nat (reveal_count (Z.of_nat (length (alnum_positions L s))) l t))
          (length (alnum_positions L s)).
Proof.
  unfold reveal_positions. cbv zeta.
  pose proof (shuffled_alnum_positions_perm L R s seed) as Hp.
  rewrite size_list_to_set, length_take, (Permutation_length Hp); [reflexivity|].
  eapply sublist_NoDup; [|apply sublist_take]. rewrite Hp. apply alnum_positions_from_NoDup.
Qed.

Lemma reveal_positions_covers_iff (L : PyLib) (R : PyRandom) s seed t :
  let n := Z.of_nat (length (alnum_positions L s)) in
  (1 <= n)%Z -> (0 <= t)%Z ->
  (list_to_set (alnum_positions L s) ⊆ reveal_positions L R s seed t t
   <-> (n <= Z.max 1 t)%Z).
Proof.
  intros n Hn Ht. rewrite <- (reveal_count_last n t Hn Ht).
  pose proof (shuffled_alnum_positions_perm L R s seed) as Hp.
  split.
  - intros Hsub. apply subseteq_size in Hsub.
    rewrite reveal_positions_size, size_list_to_set in Hsub
      by apply alnum_positions_from_NoDup.
    fold n in Hsub. lia.
  - intros Hk. unfold reveal_positions. cbv zeta.
    rewrite (Permutation_length Hp). fold n.
    rewrite take_ge by (rewrite (Permutation_length Hp); lia).
    intros x. rewrite !elem_of_list_to_set. now rewrite Hp.
Qed.

(** The plan gives hints only to answers longer than the number of
    hints. *)
Lemma choose_hint_plan_total_lt (L : PyLib) s :
  let t := plan_hint_total (choose_hint_plan L s) in
  (0 <= t <= 4)%Z /\ ((1 <= t)%Z -> (t < Z.of_nat (length (alnum_positions L s)))%Z).
Proof.
  cbv zeta. unfold alnum_positions. rewrite alnum_positions_from_length.
  rewrite plan_hint_total_by_count. cbv zeta.
  repeat match goal with
         | |- context [(?a <=? ?b)%nat] => destruct (Nat.leb_spec a b)
         end; lia.
Qed.

(** The floating-point count is the exact one for every hint plan of
    [choose_hint_plan] (at most 4 hints) and every answer of up to 512
    alphanumeric characters. *)
Lemma reveal_count_float_agrees :
  forallb (fun n =>
    forallb (fun t =>
      forallb (fun l => Z.eqb (reveal_count_float n l t) (reveal_count n l t))
              (map Z.of_nat (seq 1 (Z.to_nat t))))
            [1; 2; 3; 4]%Z)
    (map Z.of_nat (seq 0 513)) = true.
Proof. vm_compute. reflexivity. Qed.

Lemma reveal_positions_mono (L : PyLib) (R : PyRandom) s seed (l1 l2 t : Z) :
  (0 <= t)%Z -> (l1 <= l2)%Z ->
  reveal_positions L R s seed l1 t ⊆ reveal_positions L R s seed l2 t.
Proof.
  intros Ht Hl. unfold reveal_positions. cbv zeta.
  set (pos := shuffled_alnum_positions L R s seed).
  pose proof (reveal_count_mono (Z.of_nat (length pos)) l1 l2 t ltac:(lia) Ht Hl) as Hk.
  intros x. rewrite !elem_of_list_to_set, !elem_of_take.
  intros (i & Hi & Hlt). exists i. split; [exact Hi | lia].
Qed.

(** C4: with the same answer and the same seed, the positions revealed at
    one hint level are among those revealed at the next: both sets are
    prefixes of one shuffled list, and the prefix length grows with the
    level. *)
Theorem reveal_positions_cumulative (L : PyLib) (R : PyRandom) (answer_display : ustr)
    (seed : Z + ustr) (k hint_total : Z) :
  (0 <= k < hint_total)%Z ->
  reveal_positions L R answer_display seed k hint_total
  ⊆ reveal_positions L R answer_display seed (k + 1) hint_total.
Proof. intros Hk. apply reveal_positions_mono; lia. Qed.

Lemma reveal_positions_cumulative_witness :
  (0 <= 1 < 3)%Z
  /\ reveal_positions basic lcg_random (lit "hello world") (inl 5%Z) 1 3
     ⊆ reveal_positions basic lcg_random (lit "hello world") (inl 5%Z) (1 + 1) 3.
Proof.
  split; [lia|]. apply (reveal_positions_cumulative basic lcg_random); lia.
Defined.

(** C3 (amended): at the last hint level the revealed set is a set of
    alphanumeric positions of size [k = max(1, ceil(n * T / (T + 1)))]; it
    covers all [n] of them exactly when [n <= max(1, T)], and never for
    the number of hints [choose_hint_plan] gives the answer, which is
    smaller than [n]. *)
Theorem reveal_positions_last_level (L : PyLib) (R : PyRandom) (answer_display : ustr)
    (seed : Z + ustr) (hint_total : Z) :
  let n := Z.of_nat (length (List.filter (isalnum L) answer_display)) in
  let all := list_to_set (alnum_positions L answer_display) : gset nat in
  let revealed := reveal_positions L R answer_display seed hint_total hint_total in
  (1 <= n)%Z -> (0 <= hint_total)%Z ->
  revealed ⊆ all
  /\ Z.of_nat (size revealed) = reveal_count n hint_total hint_total
  /\ (all ⊆ revealed <-> (n <= Z.max 1 hint_total)%Z)
  /\ (hint_total = plan_hint_total (choose_hint_plan L answer_display) ->
      (1 <= hint_total)%Z ->
      (reveal_count n hint_total hint_total < n)%Z /\ ~ all ⊆ revealed).
Proof.
  intros n all revealed Hn Ht. subst n all revealed.
  rewrite <- (alnum_positions_from_length L 0 answer_display) in *.
  fold (alnum_positions L answer_display) in *.
  set (n := Z.of_nat (length (alnum_positions L answer_display))) in *.
  pose proof (reveal_positions_covers_iff L R answer_display seed hint_total Hn Ht) as Hiff.
  split; [apply reveal_positions_subset|].
  split.
  { rewrite reveal_positions_size. fold n.
    pose proof (reveal_count_le n hint_total hint_total Hn Ht ltac:(lia)). lia. }
  split; [exact Hiff|].
  intros -> Ht1.
  destruct (choose_hint_plan_total_lt L answer_display) as [_ Hlt].
  specialize (Hlt Ht1). fold n in Hlt.
  assert (Hnot : ~ (n <= Z.max 1 (plan_hint_total (choose_hint_plan L answer_display)))%Z) by lia.
  split; [|now rewrite Hiff].
  rewrite <- reveal_count_last in Hnot by assumption. lia.
Qed.

Lemma reveal_positions_last_level_witness :
  (1 <= Z.of_nat (length (List.filter (isalnum basic) (lit "Moscow"))))%Z
  /\ (0 <= 2)%Z
  /\ Z.of_nat (size (reveal_positions basic lcg_random (lit "Moscow") (inl 7%Z) 2 2)) = 4%Z.
Proof.
  assert (H1 : (1 <= Z.of_nat (length (List.filter (isalnum basic) (lit "Moscow"))))%Z)
    by (vm_compute; discriminate).
  assert (H2 : (0 <= 2)%Z) by lia.
  split; [exact H1|]. split; [exact H2|].
  exact (proj1 (proj2 (reveal_positions_last_level basic lcg_random (lit "Moscow")
                         (inl 7%Z) 2 H1 H2))).
Defined.

(** C3 (as stated) fails: "abc" has three letters and is given one hint,
    which shows [max(1, ceil(3 * 1/2)) = 2] of them, whatever the
    shuffle. *)
Lemma reveal_positions_last_level_misses :
  length (List.filter (isalnum basic) (lit "abc")) = 3%nat
  /\ plan_hint_total (choose_hint_plan basic (lit "abc")) = 1%Z
  /\ reveal_count 3 1 1 = 2%Z
  /\ (forall (R : PyRandom) (seed : Z + ustr),
        ~ list_to_set (alnum_positions basic (lit "abc"))
          ⊆ reveal_positions basic R (lit "abc") seed 1 1).
Proof.
  repeat split; try reflexivity.
  intros R seed H.
  apply (reveal_positions_covers_iff basic R (lit "abc") seed 1) in H;
    [vm_compute in H; now apply H | vm_compute; discriminate | lia].
Qed.

(** A game on the demo catalog: the question "Capital of France?" is
    posted, and the two hints of "Paris" show 2 and then 4 of its 5
    letters. *)
Example hint_watcher_example :
  let w1 := (cmd_quiz_start basic lcg_random (topic_message "/quiz_start all 3")
               (demo_world demo_engine)).2 in
  let w2 := (hint_watcher_turn basic lcg_random (at_time 1006 w1)).2 in
  let w3 := (hint_watcher_turn basic lcg_random (at_time 1012 w2)).2 in
  let w4 := (hint_watcher_turn basic lcg_random (at_time 1020 w3)).2 in
  w_out w1 = [ReplyStarted all_tag 3; SendQuestion 1 (VInt 3) (lit "Capital of France?")]
  /\ w_out w3 = w_out w1 ++ [SendHint 1 2 (lit "___is") 4; SendHint 2 2 (lit "Pa_is") 3]
  /\ w_out w4 = w_out w3
  /\ (hint_level <$> state_row (w_db w4)) = Some (VInt 2)
  /\ (next_hint_ts <$> state_row (w_db w4)) = Some VNone.
Proof. cbv zeta. repeat apply conj; vm_compute; reflexivity. Qed.

(** ** quiz.py: the draw bags *)

Lemma pop_snoc {A} (l : list A) (x : A) : pop (l ++ [x]) = Ok (x, l).
Proof. unfold pop. rewrite rev_app_distr. simpl. now rewrite rev_involutive. Qed.

Lemma pop_nil {A} : pop (@nil A) = Raise IndexError.
Proof. reflexivity. Qed.

Lemma build_by_id_spec (qs : list Question) (q : Question) :
  q ∈ qs -> exists q', build_by_id qs !! q_id q = Some q' /\ q_id q' = q_id q.
Proof.
  unfold build_by_id.
  assert (H : forall (m : gmap ustr Question) q,
             (q ∈ qs \/ exists q', m !! q_id q = Some q' /\ q_id q' = q_id q) ->
             exists q', foldl (fun m q => <[q_id q := q]> m) m qs !! q_id q = Some q'
                        /\ q_id q' = q_id q).
  { clear q. induction qs as [|a qs IH]; intros m q [Hin|Hm]; simpl.
    - inversion Hin.
    - exact Hm.
    - apply IH. apply elem_of_cons in Hin as [->|Hin]; [right | now left].
      exists a. split; [apply lookup_insert_eq | reflexivity].
    - apply IH. right. destruct (decide (q_id a = q_id q)) as [Heq|Hne].
      + exists a. rewrite Heq. split; [apply lookup_insert_eq | now rewrite <- Heq].
      + rewrite lookup_insert_ne by exact Hne. exact Hm. }
  intros Hin. apply H. now left.
Qed.

Lemma load_indexed (L : PyLib) files e : load L files = Ok e -> indexed e.
Proof.
  unfold load. destruct (load_files L files []) as [qs|]; [|discriminate].
  intros [= <-] q Hq. simpl in *. now apply build_by_id_spec.
Qed.

Lemma ids_for_tag_in (L : PyLib) e tag x :
  x ∈ _ids_for_tag L e tag -> exists q, q ∈ questions e /\ q_id q = x.
Proof.
  unfold _ids_for_tag. destruct (bool_decide (tag = all_tag)).
  - intros (q & -> & Hq)%list_elem_of_fmap. eauto.
  - intros (q & -> & Hq)%list_elem_of_fmap.
    apply list_elem_of_In, filter_In in Hq as [Hq _]. apply list_elem_of_In in Hq. eauto.
Qed.

Lemma ids_for_category_in (L : PyLib) e cat_n x :
  x ∈ ids_for_category L e cat_n -> exists q, q ∈ questions e /\ q_id q = x.
Proof.
  unfold ids_for_category. intros (q & -> & Hq)%list_elem_of_fmap.
  apply list_elem_of_In, filter_In in Hq as [Hq _]. apply list_elem_of_In in Hq. eauto.
Qed.

(** A draw from a non-empty bag pops its last id. *)
Lemma next_by_tag_pop (L : PyLib) (R : PyRandom) tag e g bag x q :
  _bag_by_tag e !! tag = Some (bag ++ [x]) -> by_id e !! x = Some q ->
  next_by_tag L R tag (e, g) = (Ok q, (set_bag_by_tag e tag bag, g)).
Proof.
  intros Hbag Hq. unfold next_by_tag. run. rewrite Hbag.
  destruct (bag ++ [x]) as [|y r] eqn:E; [now destruct bag|].
  run. rewrite Hbag. simpl. rewrite <- E, pop_snoc. simpl. now rewrite Hq.
Qed.

(** A draw from an absent or empty bag first refills it with the shuffled
    eligible ids. *)
Lemma next_by_tag_refill (L : PyLib) (R : PyRandom) tag e g :
  (_bag_by_tag e !! tag = None \/ _bag_by_tag e !! tag = Some []) ->
  next_by_tag L R tag (e, g) =
  match (shuffle R g (_ids_for_tag L e tag)).1 with
  | [] => (Raise IndexError,
           (set_bag_by_tag e tag [], (shuffle R g (_ids_for_tag L e tag)).2))
  | _ => next_by_tag L R tag
           (set_bag_by_tag e tag (shuffle R g (_ids_for_tag L e tag)).1,
            (shuffle R g (_ids_for_tag L e tag)).2)
  end.
Proof.
  intros Hbag. unfold next_by_tag at 1. run.
  destruct (shuffle R g (_ids_for_tag L e tag)) as [ids g'] eqn:Es. simpl.
  destruct Hbag as [Hb | Hb]; rewrite Hb; simpl; rewrite lookup_insert_eq; simpl.
  all: destruct ids as [|i ids]; [reflexivity|].
  all: unfold next_by_tag; run; rewrite lookup_insert_eq; run.
  all: rewrite lookup_insert_eq; reflexivity.
Qed.

Lemma snoc_destruct {A} (l : list A) : l <> [] -> exists b x, l = b ++ [x].
Proof.
  intros H. destruct (exists_last H) as (b & x & ->). eauto.
Qed.

(** Drawing as many times as the bag holds ids empties it, last id
    first. *)
Lemma drain_tag (L : PyLib) (R : PyRandom) tag r :
  forall e g,
    _bag_by_tag e !! tag = Some (rev r) ->
    (forall x, x ∈ r -> exists q, by_id e !! x = Some q /\ q_id q = x) ->
    exists qs e',
      draw_n L R tag None (length r) (e, g) = (Ok qs, (e', g))
      /\ map q_id qs = r /\ same_catalog e e'
      /\ _bag_by_tag e' = <[tag := []]> (_bag_by_tag e)
      /\ _bag_by_category e' = _bag_by_category e.
Proof.
  induction r as [|x r IH]; intros e g Hbag Hidx.
  - exists [], e. simpl. repeat split. symmetry. now apply insert_id.
  - destruct (Hidx x ltac:(left)) as (q & Hq & Hqx).
    simpl in Hbag.
    pose proof (next_by_tag_pop L R tag e g (rev r) x q Hbag Hq) as Hstep.
    destruct (IH (set_bag_by_tag e tag (rev r)) g) as (qs & e' & Hd & Hm & Hc & Ht & Hcat).
    { simpl. apply lookup_insert_eq. }
    { intros y Hy. apply Hidx. now right. }
    exists (q :: qs), e'. simpl. unfold bind at 1. simpl next_question. rewrite Hstep.
    unfold bind at 1. rewrite Hd. simpl. repeat split.
    + now rewrite Hqx, Hm.
    + apply Hc.
    + apply Hc.
    + rewrite Ht. simpl. apply insert_insert_eq.
    + exact Hcat.
Qed.

Lemma _next_by_category_pop (L : PyLib) (R : PyRandom) category e g bag x q :
  _bag_by_category e !! normalize L category = Some (bag ++ [x]) -> by_id e !! x = Some q ->
  _next_by_category L R category (e, g)
  = (Ok q, (set_bag_by_category e (normalize L category) bag, g)).
Proof.
  intros Hbag Hq. unfold _next_by_category. cbv zeta. run. rewrite Hbag.
  destruct (bag ++ [x]) as [|y r] eqn:E; [now destruct bag|].
  run. rewrite Hbag. simpl. rewrite <- E, pop_snoc. simpl. now rewrite Hq.
Qed.

Lemma _next_by_category_refill (L : PyLib) (R : PyRandom) category e g :
  (_bag_by_category e !! normalize L category = None
   \/ _bag_by_category e !! normalize L category = Some []) ->
  (shuffle R g (ids_for_category L e (normalize L category))).1 <> [] ->
  _next_by_category L R category (e, g) =
  _next_by_category L R category
    (set_bag_by_category e (normalize L category)
       (shuffle R g (ids_for_category L e (normalize L category))).1,
     (shuffle R g (ids_for_category L e (normalize L category))).2).
Proof.
  intros Hbag Hne. unfold _next_by_category at 1. cbv zeta. run.
  destruct (shuffle R g (ids_for_category L e (normalize L category))) as [ids g'] eqn:Es.
  simpl in *. destruct ids as [|i ids]; [contradiction|].
  destruct Hbag as [Hb | Hb]; rewrite Hb; simpl; rewrite lookup_insert_eq; simpl.
  all: unfold _next_by_category; cbv zeta; run; rewrite lookup_insert_eq; run.
  all: rewrite lookup_insert_eq; reflexivity.
Qed.

Lemma drain_category (L : PyLib) (R : PyRandom) tag c cs r :
  forall e g,
    _bag_by_category e !! normalize L (c :: cs) = Some (rev r) ->
    (forall x, x ∈ r -> exists q, by_id e !! x = Some q /\ q_id q = x) ->
    exists qs e',
      draw_n L R tag (Some (c :: cs)) (length r) (e, g) = (Ok qs, (e', g))
      /\ map q_id qs = r /\ same_catalog e e'
      /\ _bag_by_tag e' = _bag_by_tag e
      /\ _bag_by_category e' = <[normalize L (c :: cs) := []]> (_bag_by_category e).
Proof.
  induction r as [|x r IH]; intros e g Hbag Hidx.
  - exists [], e. simpl. repeat split. symmetry. now apply insert_id.
  - destruct (Hidx x ltac:(left)) as (q & Hq & Hqx).
    simpl in Hbag.
    pose proof (_next_by_category_pop L R (c :: cs) e g (rev r) x q Hbag Hq) as Hstep.
    destruct (IH (set_bag_by_category e (normalize L (c :: cs)) (rev r)) g)
      as (qs & e' & Hd & Hm & Hc & Ht & Hcat).
    { simpl. apply lookup_insert_eq. }
    { intros y Hy. apply Hidx. now right. }
    exists (q :: qs), e'. simpl. unfold bind at 1. rewrite Hstep.
    unfold bind at 1. rewrite Hd. simpl. repeat split.
    + now rewrite Hqx, Hm.
    + apply Hc.
    + apply Hc.
    + exact Ht.
    + rewrite Hcat. simpl. apply insert_insert_eq.
Qed.

Lemma eligible_ids_same_catalog (L : PyLib) e e' tag category :
  same_catalog e e' -> eligible_ids L e' tag category = eligible_ids L e tag category.
Proof.
  intros [Hq _]. unfold eligible_ids, ids_for_category, _ids_for_tag. now rewrite Hq.
Qed.

Lemma eligible_ids_indexed (L : PyLib) e tag category x :
  indexed e -> x ∈ eligible_ids L e tag category ->
  exists q, by_id e !! x = Some q /\ q_id q = x.
Proof.
  intros Hidx Hx.
  assert (H : exists q, q ∈ questions e /\ q_id q = x).
  { unfold eligible_ids in Hx. destruct category as [[|c cs]|];
      eauto using ids_for_tag_in, ids_for_category_in. }
  destruct H as (q & Hq & <-). now apply Hidx.
Qed.

(** A run of draws that starts on an absent or empty bag continues on the
    freshly shuffled bag. *)
Lemma next_question_refill (L : PyLib) (R : PyRandom) tag category e g :
  (scope_bag L e tag category = None \/ scope_bag L e tag category = Some []) ->
  eligible_ids L e tag category <> [] ->
  exists e1,
    next_question L R tag category (e, g)
    = next_question L R tag category (e1, (shuffle R g (eligible_ids L e tag category)).2)
    /\ same_catalog e e1
    /\ scope_bag L e1 tag category = Some (shuffle R g (eligible_ids L e tag category)).1.
Proof.
  intros Hbag Hne.
  pose proof (shuffle_perm R _ g (eligible_ids L e tag category)) as Hp.
  assert (Hne' : (shuffle R g (eligible_ids L e tag category)).1 <> []).
  { intros E. rewrite E in Hp. apply Permutation_nil in Hp. contradiction. }
  unfold eligible_ids, scope_bag in *. destruct category as [[|c cs]|].
  - exists (set_bag_by_tag e tag (shuffle R g (_ids_for_tag L e tag)).1).
    simpl next_question. rewrite (next_by_tag_refill L R tag e g Hbag).
    destruct (shuffle R g (_ids_for_tag L e tag)).1 eqn:E; [contradiction|].
    repeat split. simpl. apply lookup_insert_eq.
  - exists (set_bag_by_category e (normalize L (c :: cs))
              (shuffle R g (ids_for_category L e (normalize L (c :: cs)))).1).
    simpl next_question. rewrite (_next_by_category_refill L R (c :: cs) e g Hbag Hne').
    repeat split. simpl. apply lookup_insert_eq.
  - exists (set_bag_by_tag e tag (shuffle R g (_ids_for_tag L e tag)).1).
    simpl next_question. rewrite (next_by_tag_refill L R tag e g Hbag).
    destruct (shuffle R g (_ids_for_tag L e tag)).1 eqn:E; [contradiction|].
    repeat split. simpl. apply lookup_insert_eq.
Qed.

Lemma draw_n_blank_category (L : PyLib) (R : PyRandom) tag n s :
  draw_n L R tag (Some []) n s = draw_n L R tag None n s.
Proof.
  revert s. induction n as [|n IH]; intros s; [reflexivity|].
  simpl. unfold bind. destruct (next_by_tag L R tag s) as [[q|x] s']; [|reflexivity].
  now rewrite IH.
Qed.

Lemma drain_scope (L : PyLib) (R : PyRandom) tag category r e g :
  scope_bag L e tag category = Some (rev r) ->
  (forall x, x ∈ r -> exists q, by_id e !! x = Some q /\ q_id q = x) ->
  exists qs e',
    draw_n L R tag category (length r) (e, g) = (Ok qs, (e', g))
    /\ map q_id qs = r /\ same_catalog e e'
    /\ (r <> [] -> scope_bag L e' tag category = Some []).
Proof.
  intros Hbag Hidx. unfold scope_bag in *. destruct category as [[|c cs]|].
  - destruct (drain_tag L R tag r e g Hbag Hidx) as (qs & e' & Hd & Hm & Hc & Ht & _).
    exists qs, e'. repeat split; try apply Hc.
    + rewrite <- Hd. apply draw_n_blank_category.
    + exact Hm.
    + intros _. rewrite Ht. apply lookup_insert_eq.
  - destruct (drain_category L R tag c cs r e g Hbag Hidx)
      as (qs & e' & Hd & Hm & Hc & _ & Ht).
    exists qs, e'. repeat split; try apply Hc; try assumption.
    intros _. rewrite Ht. apply lookup_insert_eq.
  - destruct (drain_tag L R tag r e g Hbag Hidx) as (qs & e' & Hd & Hm & Hc & Ht & _).
    exists qs, e'. repeat split; try apply Hc; try assumption.
    intros _. rewrite Ht. apply lookup_insert_eq.
Qed.

Lemma draw_n_first (L : PyLib) (R : PyRandom) tag category n s qs s2 :
  draw_n L R tag category (S n) s = (Ok qs, s2) ->
  exists q qs' s1, next_question L R tag category s = (Ok q, s1) /\ qs = q :: qs'.
Proof.
  simpl. unfold bind at 1.
  destruct (next_question L R tag category s) as [[q|x] s1]; [|discriminate].
  unfold bind, ret. destruct (draw_n L R tag category n s1) as [[qs'|x] s3]; [|discriminate].
  intros [= <- <-]. eauto.
Qed.

(** The run of [length ids] draws that starts on an absent or empty bag. *)
Lemma draw_all (L : PyLib) (R : PyRandom) tag category e g :
  indexed e ->
  (scope_bag L e tag category = None \/ scope_bag L e tag category = Some []) ->
  exists qs e' g',
    draw_n L R tag category (length (eligible_ids L e tag category)) (e, g)
    = (Ok qs, (e', g'))
    /\ map q_id qs ≡ₚ eligible_ids L e tag category
    /\ same_catalog e e'
    /\ (eligible_ids L e tag category <> [] -> scope_bag L e' tag category = Some []).
Proof.
  intros Hidx Hbag.
  destruct (decide (eligible_ids L e tag category = [])) as [E|Hne].
  { rewrite E. exists [], e, g. simpl. split; [reflexivity|]. split; [reflexivity|].
    split; [split; reflexivity|]. intros H. now destruct H. }
  destruct (next_question_refill L R tag category e g Hbag Hne) as (e1 & Hstep & Hc1 & Hb1).
  pose proof (shuffle_perm R _ g (eligible_ids L e tag category)) as Hp.
  set (ids' := (shuffle R g (eligible_ids L e tag category)).1) in *.
  set (g1 := (shuffle R g (eligible_ids L e tag category)).2) in *.
  destruct (drain_scope L R tag category (rev ids') e1 g1) as (qs & e' & Hd & Hm & Hc & Hb).
  { now rewrite rev_involutive. }
  { intros x Hx. destruct Hc1 as [_ ->]. apply (eligible_ids_indexed L e tag category); auto.
    rewrite <- Hp. apply list_elem_of_In. apply in_rev. now apply list_elem_of_In. }
  rewrite length_rev, (Permutation_length Hp) in Hd.
  exists qs, e', g1. repeat split.
  - rewrite <- Hd. destruct (length (eligible_ids L e tag category)) eqn:El.
    { destruct (eligible_ids L e tag category); [contradiction | discriminate]. }
    simpl. unfold bind at 1 3. now rewrite Hstep.
  - rewrite Hm, <- Hp. symmetry. apply Permutation_rev.
  - destruct Hc as [-> _]. apply Hc1.
  - destruct Hc as [_ ->]. apply Hc1.
  - intros _. apply Hb. intros E. apply Hne.
    apply Permutation_nil. rewrite <- Hp.
    rewrite <- (rev_involutive ids'), E. reflexivity.
Qed.

(** Starting on an absent or exhausted bag, as many draws as the code
    collects ids for the scope return these ids in some order; the bag is
    then empty, and one more draw reshuffles and returns an id that was
    drawn before. *)
Lemma draws_are_a_permutation (L : PyLib) (R : PyRandom) (e : QuizEngine) (g : rng R)
    (tag : ustr) (category : option ustr) :
  let ids := eligible_ids L e tag category in
  indexed e ->
  (scope_bag L e tag category = None \/ scope_bag L e tag category = Some []) ->
  exists qs e' g',
    draw_n L R tag category (length ids) (e, g) = (Ok qs, (e', g'))
    /\ map q_id qs ≡ₚ ids
    /\ (NoDup ids -> NoDup (map q_id qs))
    /\ (ids <> [] ->
        scope_bag L e' tag category = Some []
        /\ exists q s'', next_question L R tag category (e', g') = (Ok q, s'')
                         /\ q_id q ∈ map q_id qs).
Proof.
  intros ids Hidx Hbag. subst ids.
  destruct (draw_all L R tag category e g Hidx Hbag) as (qs & e' & g' & Hd & Hp & Hc & Hb).
  exists qs, e', g'. split; [exact Hd|]. split; [exact Hp|].
  split; [now rewrite Hp|].
  intros Hne. split; [now apply Hb|].
  assert (Hidx' : indexed e').
  { intros q Hq. destruct Hc as [Hq' Hb']. rewrite Hq' in Hq. rewrite Hb'. now apply Hidx. }
  destruct (draw_all L R tag category e' g' Hidx' (or_intror (Hb Hne)))
    as (qs2 & e2 & g2 & Hd2 & Hp2 & _).
  rewrite (eligible_ids_same_catalog L e e' tag category Hc) in Hd2, Hp2.
  destruct (length (eligible_ids L e tag category)) eqn:El.
  { destruct (eligible_ids L e tag category); [contradiction | discriminate]. }
  destruct (draw_n_first L R tag category n (e', g') qs2 (e2, g2) Hd2)
    as (q & qs' & s1 & Hq & ->).
  exists q, s1. split; [exact Hq|].
  rewrite Hp, <- Hp2. simpl. left.
Qed.

Lemma demo_engine_loaded : load basic demo_files = Ok demo_engine.
Proof. vm_compute. reflexivity. Qed.

Example demo_engine_ids :
  map q_id (questions demo_engine) = [lit "q1"; lit "q2"; lit "geo.json::3"]
  /\ map q_tags (questions demo_engine) = [[lit "geo"]; [lit "capitals"; lit "geo"]; [lit "math"]]
  /\ list_tags demo_engine = [lit "capitals"; lit "geo"; lit "math"]
  /\ list_categories demo_engine = [lit "Geo"; lit "Math"].
Proof. repeat apply conj; vm_compute; reflexivity. Qed.

(** ** quiz.py: the difficulty of a loaded question *)

Lemma _normalize_question_accepted (L : PyLib) n q fp out :
  _normalize_question L n q fp = Ok (Some out) ->
  exists d, q = JObj d /\ difficulty_of L d = Ok (q_difficulty out).
Proof.
  unfold _normalize_question. destruct q as [| | | | |?|d]; try discriminate.
  intros H. exists d. split; [reflexivity|].
  destruct (dict_get d (lit "question")) as [[| | | |text| |]|]; try discriminate.
  destruct (negb (nonempty (strip L text))); [discriminate|].
  destruct (dict_get d (lit "answers")) as [[| | | | |answers|]|]; try discriminate.
  destruct (negb (existsb _ answers)); [discriminate|].
  destruct (difficulty_of L d) as [difficulty|]; [|discriminate].
  now inversion H.
Qed.

(** C8 (amended): in an accepted record the difficulty is 2 when the
    source has none; it is [int] of the source value when [str] of that
    value consists of digits; any other source value is kept as it is. *)
Theorem difficulty_of_accepted_record (L : PyLib) (n_loaded : nat) (q : json)
    (file_path : ustr) (out : Question) :
  _normalize_question L n_loaded q file_path = Ok (Some out) ->
  exists d, q = JObj d
    /\ match dict_get d (lit "difficulty") with
       | None => q_difficulty out = JInt 2
       | Some v =>
           if str_isdigit L (py_str L v)
           then exists z, py_int L v = Ok z /\ q_difficulty out = JInt z
           else q_difficulty out = v
       end.
Proof.
  intros H. destruct (_normalize_question_accepted L n_loaded q file_path out H)
    as (d & -> & Hd).
  exists d. split; [reflexivity|]. unfold difficulty_of in Hd.
  destruct (dict_get d (lit "difficulty")) as [v|]; simpl in Hd.
  - destruct (str_isdigit L (py_str L v)).
    + destruct (py_int L v) as [z|]; [|discriminate]. exists z. now inversion Hd.
    + now inversion Hd.
  - now inversion Hd.
Qed.

Lemma difficulty_of_accepted_record_witness :
  _normalize_question basic 0 hard_record (lit "q.json") = Ok (Some hard_question)
  /\ exists d, hard_record = JObj d
       /\ match dict_get d (lit "difficulty") with
          | None => q_difficulty hard_question = JInt 2
          | Some v =>
              if str_isdigit basic (py_str basic v)
              then exists z, py_int basic v = Ok z /\ q_difficulty hard_question = JInt z
              else q_difficulty hard_question = v
          end.
Proof.
  assert (H : _normalize_question basic 0 hard_record (lit "q.json") = Ok (Some hard_question))
    by reflexivity.
  split; [exact H|].
  exact (difficulty_of_accepted_record basic 0 hard_record (lit "q.json") hard_question H).
Defined.

(** C8 (as stated) fails: a record whose difficulty is the text "hard" is
    accepted and keeps that text; so do a negative number, a float and
    [null]. *)
Lemma difficulty_not_defaulted :
  _normalize_question basic 0 hard_record (lit "q.json") = Ok (Some hard_question)
  /\ q_difficulty hard_question = JStr (lit "hard")
  /\ q_difficulty hard_question <> JInt 2
  /\ difficulty_of basic [field "difficulty" JNull] = Ok JNull
  /\ difficulty_of basic [field "difficulty" (JFloat 5 2)] = Ok (JFloat 5 2)
  /\ difficulty_of basic [field "difficulty" (JInt (-1))] = Ok (JInt (-1))
  /\ difficulty_of basic [field "difficulty" (jstr "4")] = Ok (JInt 4)
  /\ difficulty_of basic [] = Ok (JInt 2).
Proof. repeat apply conj; try (vm_compute; reflexivity). discriminate. Qed.

(** ** main.py: the round state when a game ends *)

Lemma stop_quiz_clears (L : PyLib) (R : PyRandom) (w : World R) :
  exists w', stop_quiz L R w = (Ok tt, w')
             /\ get_state (w_db w') = (Ok cleared_state, w_db w').
Proof.
  unfold stop_quiz. run_world.
  destruct (state_row (w_db w)) as [row|] eqn:Hrow; simpl.
  - destruct (value_truthy (session_id row)); simpl; rewrite ?Hrow; simpl;
      eexists; (split; [reflexivity|]); run_world; reflexivity.
  - eexists; split; [reflexivity|]. run_world. rewrite Hrow. reflexivity.
Qed.

Lemma post_next_question_finishes (L : PyLib) (R : PyRandom) (w : World R) chat thread
    row t c :
  state_row (w_db w) = Some row ->
  round_total row = VInt t -> value_or (round_current row) (VInt 0) = VInt c -> (t <= c)%Z ->
  exists w', post_next_question L R chat thread w = (Ok tt, w')
             /\ state_row (w_db w') = Some (finished_row row).
Proof.
  intros Hrow Ht Hc Hle. unfold post_next_question. run_world.
  rewrite Hrow. simpl. rewrite Ht, Hc. simpl.
  assert (Hcur : value_or (VInt c) (VInt 0) = VInt c).
  { unfold value_or. simpl. destruct (Z.eqb_spec c 0) as [->|]; reflexivity. }
  rewrite Hcur. simpl. rewrite (proj2 (Z.leb_le t c) Hle). simpl.
  rewrite Hrow. simpl.
  destruct (value_truthy (session_id row)); simpl;
    eexists; (split; [reflexivity|]); reflexivity.
Qed.

(** C2 (amended): [stop_quiz] leaves the state inactive with every
    per-question field cleared; the round-completion branch of
    [post_next_question] makes the state inactive and clears the deadline
    and the time of the next hint, and leaves every other column as it
    was. *)
Theorem inactive_after_stop_and_completion (L : PyLib) (R : PyRandom) (w : World R)
    (chat : Z) (thread : value) :
  (exists w', stop_quiz L R w = (Ok tt, w')
              /\ get_state (w_db w') = (Ok cleared_state, w_db w'))
  /\ (forall (row : StateRow) (t c : Z),
        state_row (w_db w) = Some row ->
        round_total row = VInt t ->
        value_or (round_current row) (VInt 0) = VInt c ->
        (t <= c)%Z ->
        exists w', post_next_question L R chat thread w = (Ok tt, w')
                   /\ state_row (w_db w') = Some (finished_row row)
                   /\ exists st, get_state (w_db w') = (Ok st, w_db w')
                        /\ st_active st = false
                        /\ st_deadline_ts st = VNone
                        /\ st_next_hint_ts st = VNone
                        /\ st_current_qid st = current_qid row
                        /\ st_winner_user_id st = winner_user_id row
                        /\ st_session_id st = session_id row
                        /\ st_hint_answer st = hint_answer row).
Proof.
  split; [apply stop_quiz_clears|].
  intros row t c Hrow Ht Hc Hle.
  destruct (post_next_question_finishes L R w chat thread row t c Hrow Ht Hc Hle)
    as (w' & Hrun & Hrow').
  exists w'. split; [exact Hrun|]. split; [exact Hrow'|].
  unfold get_state, bind, get, ret. rewrite Hrow'. simpl.
  eexists. split; [reflexivity|]. simpl. repeat split.
Qed.

(** C2 (as stated) fails: a one-round game is started, its question is
    posted and times out, and [post_next_question] is called again as
    [timeout_watcher] does; the state is then inactive and still holds the
    question id, the hint plan, the cached answer and the session id. *)
Lemma inactive_with_question_fields :
  let w1 := (cmd_quiz_start basic lcg_random (topic_message "/quiz_start all 1")
               (demo_world demo_engine)).2 in
  let w2 := (post_next_question basic lcg_random (-1001) (VInt 7) w1).2 in
  (get_state (w_db w2)).1
  = Ok {| st_active := false; st_current_qid := VStr (lit "q1"); st_winner_user_id := VNone;
          st_deadline_ts := VNone; st_tag := VStr all_tag; st_round_total := VInt 1;
          st_round_current := VInt 1; st_session_id := VInt 1; st_hint_level := VInt 0;
          st_hint_total := VInt 2; st_hint_answer := VStr (lit "Paris");
          st_next_hint_ts := VNone |}
  /\ (get_state (w_db w2)).1 <> Ok cleared_state.
Proof. split; [vm_compute; reflexivity | vm_compute; discriminate]. Qed.

(** ** quiz.py and main.py: a draw on a scope without questions *)

Lemma next_by_tag_empty (L : PyLib) (R : PyRandom) tag e g :
  (_bag_by_tag e !! tag = None \/ _bag_by_tag e !! tag = Some []) ->
  _ids_for_tag L e tag = [] ->
  (next_by_tag L R tag (e, g)).1 = Raise IndexError.
Proof.
  intros Hbag Hids. rewrite (next_by_tag_refill L R tag e g Hbag).
  pose proof (shuffle_perm R _ g (_ids_for_tag L e tag)) as Hp.
  rewrite Hids in *. symmetry in Hp. apply Permutation_nil in Hp. now rewrite Hp.
Qed.

(** C1: the code has no guard on the tag branch.  A draw on a tag whose
    bag is empty and which no question carries raises [IndexError]; so
    does the fallback of a category without questions when the catalog is
    empty; and [/quiz_start all 5] on an empty catalog ends in that
    exception, leaving the state active with no question. *)
Theorem next_question_empty_scope_raises :
  (forall (L : PyLib) (R : PyRandom) (e : QuizEngine) (g : rng R) (tag : ustr),
      (_bag_by_tag e !! tag = None \/ _bag_by_tag e !! tag = Some []) ->
      _ids_for_tag L e tag = [] ->
      (next_question L R tag None (e, g)).1 = Raise IndexError)
  /\ (next_question basic lcg_random (lit "history") None (demo_engine, 42%Z)).1
     = Raise IndexError
  /\ (next_question basic lcg_random all_tag (Some (lit "Geo")) (empty_engine, 42%Z)).1
     = Raise IndexError
  /\ (let r := cmd_quiz_start basic lcg_random (topic_message "/quiz_start all 5")
                 (demo_world empty_engine) in
      r.1 = Raise IndexError
      /\ w_out r.2 = [ReplyStarted all_tag 5]
      /\ (active <$> state_row (w_db r.2)) = Some (VInt 1)
      /\ (current_qid <$> state_row (w_db r.2)) = Some VNone).
Proof.
  split; [intros; now apply next_by_tag_empty|].
  repeat apply conj; vm_compute; reflexivity.
Qed.

(** ** main.py: the number of rounds a game starts with *)

Lemma clamp_rounds_range (r : Z) : (1 <= clamp_rounds r <= 50)%Z.
Proof. unfold clamp_rounds. lia. Qed.

Lemma clamp_rounds_inside (r : Z) : (1 <= r <= 50)%Z -> clamp_rounds r = r.
Proof. unfold clamp_rounds. lia. Qed.

Section RoundTotal.

Context (L : PyLib) (R : PyRandom).

#[local] Arguments next_question : simpl never.

(** Posting a question, or finishing the game, does not touch
    [round_total]. *)
Lemma post_next_question_keeps_round_total (w : World R) chat thread :
  round_total <$> state_row (w_db (post_next_question L R chat thread w).2)
  = round_total <$> state_row (w_db w).
Proof.
  unfold post_next_question. run_world.
  destruct (state_row (w_db w)) as [row|] eqn:Hrow; simpl.
  - destruct (round_total row) eqn:Ht; simpl;
      repeat match goal with
             | |- context [value_or ?a ?b] => destruct (value_or a b) eqn:?; simpl
             | |- context [(?a <=? ?b)%Z] => destruct (a <=? b)%Z eqn:?; simpl
             | |- context [value_truthy ?a] => destruct (value_truthy a) eqn:?; simpl
             | |- context [next_question L R ?t ?c ?s] =>
                 destruct (next_question L R t c s) as [[?|?] ?] eqn:?; simpl
             | |- context [(0 <? ?a)%Z] => destruct (0 <? a)%Z eqn:?; simpl
             end;
      rewrite ?Hrow; simpl; rewrite ?Ht; reflexivity.
  - repeat match goal with
           | |- context [next_question L R ?t ?c ?s] =>
               destruct (next_question L R t c s) as [[?|?] ?] eqn:?; simpl
           | |- context [(0 <? ?a)%Z] => destruct (0 <? a)%Z eqn:?; simpl
           end;
      rewrite ?Hrow; reflexivity.
Qed.

#[local] Arguments post_next_question : simpl never.

(** [start_quiz] stores the number of rounds it is given, whether or not
    the first question can be posted. *)
Lemma start_quiz_round_total (w : World R) chat thread tag rounds row :
  state_row (w_db w) = Some row ->
  round_total <$> state_row (w_db (start_quiz L R chat thread tag rounds w).2)
  = Some (VInt rounds).
Proof.
  intros Hrow. unfold start_quiz. run_world. rewrite Hrow. simpl.
  match goal with
  | |- context [post_next_question L R chat thread ?w1] =>
      pose proof (post_next_question_keeps_round_total w1 chat thread) as Hk;
      destruct (post_next_question L R chat thread w1) as [r w2]
  end.
  simpl in *. rewrite Hk. reflexivity.
Qed.

#[local] Arguments start_quiz : simpl never.

(** The text path: when [/quiz_start <tag> <rounds>] passes its checks,
    the state holds the clamped number of rounds. *)
Lemma cmd_quiz_start_round_total (w : World R) (message : Message) (row : StateRow) (t : Z) :
  value_truthy (allowed_chat_id (w_db w)) = true ->
  value_truthy (allowed_thread_id (w_db w)) = true ->
  message_thread_id message = Some t ->
  allowed_topic_from_message message (allowed_chat_id (w_db w)) (allowed_thread_id (w_db w))
  = true ->
  state_row (w_db w) = Some row ->
  value_truthy (active row) = false ->
  length (split L (default [] (text message))) <> 1%nat ->
  match split L (default [] (text message)) with
  | _ :: p1 :: _ => strip L p1
  | _ => all_tag
  end ∈ all_tag :: list_tags (w_quiz w).1 ->
  round_total <$> state_row (w_db (cmd_quiz_start L R message w).2)
  = Some (VInt (clamp_rounds (requested_rounds L (split L (default [] (text message)))))).
Proof.
  intros Hchat Hthread Ht Htopic Hrow Hactive Hlen Htag.
  unfold cmd_quiz_start, ensure_topic_or_hint. run_world.
  rewrite Hchat, Hthread, Ht. simpl. rewrite Htopic. simpl.
  rewrite Hrow. simpl. rewrite Hactive.
  rewrite bool_decide_eq_false_2 by exact Hlen.
  rewrite bool_decide_eq_true_2 by exact Htag. simpl.
  unfold requested_rounds.
  match goal with
  | |- context [start_quiz L R ?c ?th ?tg ?rounds ?w1] =>
      rewrite (start_quiz_round_total w1 c th tg rounds row) by exact Hrow
  end.
  destruct (split L (default [] (text message))) as [|p0 [|p1 [|p2 ps]]]; reflexivity.
Qed.

(** The button path: the clamped number of rounds is computed and stored
    in the new row of [sessions], and the state update that follows names
    a column [category] that table [state] does not have: the handler
    ends in [OperationalError] and the state row is as it was. *)
Lemma cb_choose_round_raises (w : World R) (cb : CallbackQuery) (m : Message) (arg : ustr)
    (row : StateRow) :
  value_truthy (allowed_chat_id (w_db w)) = true ->
  value_truthy (allowed_thread_id (w_db w)) = true ->
  cb_message cb = Some m ->
  allowed_topic_from_message m (allowed_chat_id (w_db w)) (allowed_thread_id (w_db w)) = true ->
  state_row (w_db w) = Some row ->
  value_truthy (active row) = false ->
  after_colon (cb_data cb) = Ok arg ->
  (cb_choose_round L R cb w).1 = Raise OperationalError
  /\ state_row (w_db (cb_choose_round L R cb w).2) = Some row
  /\ s_round_total <$> last (sessions (w_db (cb_choose_round L R cb w).2))
     = Some (clamp_rounds (default 10%Z (int_of_str L arg))).
Proof.
  intros Hchat Hthread Hm Htopic Hrow Hactive Harg.
  unfold cb_choose_round, allowed_topic_from_callback. run_world.
  rewrite Hchat, Hthread, Hm. simpl. rewrite Htopic. simpl.
  rewrite Hrow. simpl. rewrite Hactive, Harg. simpl.
  repeat split; try assumption.
  rewrite last_snoc. simpl. now destruct (int_of_str L arg).
Qed.

End RoundTotal.

(** C10: both start paths clamp the requested number of rounds to 1..50
    and fall back to 10 for a non-integer argument; the text command
    starts the game with that number, and the button handler, run on a
    press of the "5" button in the bound topic, stores 5 in the new
    session row and then fails in [set_state], so that no game starts. *)
Theorem round_count_on_start_paths :
  (forall r : Z, clamp_rounds r = Z.max 1 (Z.min r 50))
  /\ (let started t :=
        round_total <$> state_row (w_db (cmd_quiz_start basic lcg_random (topic_message t)
                                           (demo_world demo_engine)).2) in
      started "/quiz_start all 5"%string = Some (VInt 5)
      /\ started "/quiz_start all 500"%string = Some (VInt 50)
      /\ started "/quiz_start all -3"%string = Some (VInt 1)
      /\ started "/quiz_start all many"%string = Some (VInt 10)
      /\ started "/quiz_start all"%string = Some (VInt 10))
  /\ (let r := cb_choose_round basic lcg_random (topic_button "qs_round:5")
                 (demo_world demo_engine) in
      r.1 = Raise OperationalError
      /\ state_row (w_db r.2) = Some initial_row
      /\ (round_total <$> state_row (w_db r.2)) = Some VNone
      /\ (active <$> state_row (w_db r.2)) = Some (VInt 0)
      /\ map s_round_total (sessions (w_db r.2)) = [5%Z]
      /\ w_out r.2 = [EditStarted fallback_category 5]).
Proof.
  split; [reflexivity|]. cbv zeta. repeat apply conj; vm_compute; reflexivity.
Qed.

(** ** main.py: the text of a hint *)

Lemma make_hint_from_length (L : PyLib) idx s rp :
  length (make_hint_from L idx s rp) = length s.
Proof. revert idx. induction s as [|c s IH]; intros idx; simpl; [reflexivity | now rewrite IH]. Qed.

Lemma make_hint_from_lookup (L : PyLib) idx s rp i ch :
  s !! i = Some ch ->
  make_hint_from L idx s rp !! i
  = Some (if negb (N.eqb ch 32 || N.eqb ch 45) && isalnum L ch
             && negb (bool_decide ((idx + i)%nat ∈ rp))
          then underscore else ch).
Proof.
  revert idx i. induction s as [|c s IH]; intros idx i H; [discriminate H|].
  destruct i as [|i]; simpl in *.
  - injection H as ->. rewrite Nat.add_0_r.
    destruct (N.eqb ch 32 || N.eqb ch 45); simpl; [reflexivity|].
    destruct (isalnum L ch); simpl; [|reflexivity].
    now destruct (bool_decide (idx ∈ rp)).
  - rewrite (IH (S idx) i H). now rewrite Nat.add_succ_r.
Qed.

Lemma alnum_positions_from_elem (L : PyLib) idx s j :
  j ∈ alnum_positions_from L idx s
  <-> exists i ch, j = (idx + i)%nat /\ s !! i = Some ch /\ isalnum L ch = true.
Proof.
  revert idx. induction s as [|c s IH]; intros idx; simpl.
  - split; [intros H; inversion H | intros (i & ch & _ & H & _); discriminate H].
  - assert (Hrest : j ∈ alnum_positions_from L (S idx) s
                    <-> exists i ch, j = (idx + S i)%nat /\ s !! i = Some ch
                                     /\ isalnum L ch = true).
    { rewrite IH. split; intros (i & ch & -> & H); exists i, ch; (split; [lia | exact H]). }
    destruct (isalnum L c) eqn:Hc.
    + rewrite elem_of_cons, Hrest. split.
      * intros [->|(i & ch & -> & H)].
        -- exists 0%nat, c. rewrite Nat.add_0_r. auto.
        -- exists (S i), ch. auto.
      * intros ([|i] & ch & -> & H & Hch).
        -- left. lia.
        -- right. exists i, ch. auto.
    + rewrite Hrest. split.
      * intros (i & ch & -> & H). exists (S i), ch. auto.
      * intros ([|i] & ch & -> & H & Hch).
        -- simpl in H. injection H as ->. congruence.
        -- exists i, ch. auto.
Qed.

(** X1: the text of a hint has the length of the answer; at each position
    it shows the character of the answer, except that an alphanumeric
    character other than a space or a hyphen whose position is not in the
    revealed set is shown as an underscore. *)
Theorem make_hint_random_shows (L : PyLib) (answer_display : ustr)
    (reveal_positions : gset nat) :
  length (make_hint_random L answer_display reveal_positions) = length answer_display
  /\ forall (idx : nat) (ch : N),
       answer_display !! idx = Some ch ->
       make_hint_random L answer_display reveal_positions !! idx
       = Some (if negb (N.eqb ch 32 || N.eqb ch 45) && isalnum L ch
                  && negb (bool_decide (idx ∈ reveal_positions))
               then underscore else ch).
Proof.
  split; [apply make_hint_from_length|].
  intros idx ch H. unfold make_hint_random.
  now rewrite (make_hint_from_lookup L 0 answer_display reveal_positions idx ch H).
Qed.

(** X2: no hint of the plan shows the whole answer.  For every level from
    1 to the number of hints [choose_hint_plan] gives the answer, the text
    of the hint hides at least one letter or digit behind an underscore,
    so it differs from the answer (the underscore, the space and the
    hyphen are not alphanumeric). *)
Theorem no_hint_shows_the_whole_answer (L : PyLib) (R : PyRandom) (answer_display : ustr)
    (seed : Z + ustr) (hint_level_next : Z) :
  isalnum L 32 = false -> isalnum L 45 = false -> isalnum L underscore = false ->
  (1 <= hint_level_next <= plan_hint_total (choose_hint_plan L answer_display))%Z ->
  let hint_text :=
    make_hint_random L answer_display
      (reveal_positions L R answer_display seed hint_level_next
         (plan_hint_total (choose_hint_plan L answer_display))) in
  (exists (idx : nat) (ch : N),
      answer_display !! idx = Some ch /\ isalnum L ch = true
      /\ hint_text !! idx = Some underscore)
  /\ hint_text <> answer_display.
Proof.
  intros Hsp Hhy Hun Hl hint_text.
  set (t := plan_hint_total (choose_hint_plan L answer_display)) in *.
  destruct (choose_hint_plan_total_lt L answer_display) as [Ht Hlt]. fold t in Ht, Hlt.
  assert (Hn : (1 <= Z.of_nat (length (alnum_positions L answer_display)))%Z) by lia.
  assert (Hnot : ~ list_to_set (alnum_positions L answer_display)
                   ⊆ reveal_positions L R answer_display seed t t).
  { rewrite (reveal_positions_covers_iff L R answer_display seed t Hn ltac:(lia)). lia. }
  assert (Hex : exists idx, idx ∈ alnum_positions L answer_display
                            /\ idx ∉ reveal_positions L R answer_display seed hint_level_next t).
  { destruct (decide (Forall (fun i => i ∈ reveal_positions L R answer_display seed t t)
                             (alnum_positions L answer_display))) as [Hall|Hnall].
    - exfalso. apply Hnot. intros x Hx. rewrite elem_of_list_to_set in Hx.
      rewrite Forall_forall in Hall. now apply Hall.
    - apply not_Forall_Exists in Hnall; [|intros x; apply _].
      apply Exists_exists in Hnall as (idx & Hin & Hout).
      exists idx. split; [exact Hin|]. intros Hr. apply Hout.
      apply (reveal_positions_mono L R answer_display seed hint_level_next t t); [lia | lia |].
      exact Hr. }
  destruct Hex as (idx & Hin & Hout).
  apply alnum_positions_from_elem in Hin as (i & ch & -> & Hi & Hch). simpl in Hout.
  assert (Hshow : hint_text !! i = Some underscore).
  { unfold hint_text, make_hint_random.
    rewrite (make_hint_from_lookup L 0 answer_display _ i ch Hi). simpl.
    rewrite Hch, bool_decide_eq_false_2 by exact Hout.
    destruct (N.eqb_spec ch 32) as [->|_]; [congruence|].
    destruct (N.eqb_spec ch 45) as [->|_]; [congruence|]. reflexivity. }
  split; [exists i, ch; auto|].
  intros E. rewrite E, Hi in Hshow. injection Hshow as ->. congruence.
Qed.

Lemma no_hint_shows_the_whole_answer_witness :
  isalnum basic 32 = false /\ isalnum basic 45 = false /\ isalnum basic underscore = false
  /\ (1 <= 2 <= plan_hint_total (choose_hint_plan basic (lit "Paris")))%Z
  /\ make_hint_random basic (lit "Paris")
       (reveal_positions basic lcg_random (lit "Paris") (inr (lit "q1")) 2
          (plan_hint_total (choose_hint_plan basic (lit "Paris"))))
     <> lit "Paris".
Proof.
  assert (H1 : isalnum basic 32 = false) by reflexivity.
  assert (H2 : isalnum basic 45 = false) by reflexivity.
  assert (H3 : isalnum basic underscore = false) by reflexivity.
  assert (H4 : (1 <= 2 <= plan_hint_total (choose_hint_plan basic (lit "Paris")))%Z)
    by (vm_compute; split; discriminate).
  repeat (split; [assumption|]).
  exact (proj2 (no_hint_shows_the_whole_answer basic lcg_random (lit "Paris")
                  (inr (lit "q1")) 2 H1 H2 H3 H4)).
Defined.

(** X3: what a hint shows, later hints of the same question show too: a
    position at which the hint of a level shows the character of the
    answer shows it at every higher level. *)
Theorem hint_texts_are_cumulative (L : PyLib) (R : PyRandom) (answer_display : ustr)
    (seed : Z + ustr) (l1 l2 hint_total : Z) (idx : nat) :
  (0 <= hint_total)%Z -> (l1 <= l2)%Z ->
  let hint l := make_hint_random L answer_display
                  (reveal_positions L R answer_display seed l hint_total) in
  hint l1 !! idx = answer_display !! idx -> hint l2 !! idx = answer_display !! idx.
Proof.
  intros Ht Hl hint. unfold hint, make_hint_random.
  destruct (answer_display !! idx) as [ch|] eqn:Hi.
  - rewrite !(make_hint_from_lookup L 0 answer_display _ idx ch Hi). simpl.
    pose proof (reveal_positions_mono L R answer_display seed l1 l2 hint_total Ht Hl idx) as Hm.
    destruct (negb (N.eqb ch 32 || N.eqb ch 45) && isalnum L ch); simpl; [|reflexivity].
    destruct (decide (idx ∈ reveal_positions L R answer_display seed l1 hint_total)) as [H1|H1].
    + rewrite (bool_decide_eq_true_2 _ (Hm H1)). reflexivity.
    + rewrite (bool_decide_eq_false_2 _ H1). simpl. intros [= <-].
      now destruct (bool_decide _).
  - intros _. apply lookup_ge_None. rewrite make_hint_from_length.
    now apply lookup_ge_None.
Qed.

Lemma hint_texts_are_cumulative_witness :
  (0 <= 2)%Z /\ (1 <= 2)%Z
  /\ make_hint_random basic (lit "Paris")
       (reveal_positions basic lcg_random (lit "Paris") (inr (lit "q1")) 1 2) !! 3%nat
     = lit "Paris" !! 3%nat
  /\ make_hint_random basic (lit "Paris")
       (reveal_positions basic lcg_random (lit "Paris") (inr (lit "q1")) 2 2) !! 3%nat
     = lit "Paris" !! 3%nat.
Proof.
  assert (H1 : (0 <= 2)%Z) by lia.
  assert (H2 : (1 <= 2)%Z) by lia.
  assert (H3 : make_hint_random basic (lit "Paris")
                 (reveal_positions basic lcg_random (lit "Paris") (inr (lit "q1")) 1 2)
               !! 3%nat = lit "Paris" !! 3%nat) by (vm_compute; reflexivity).
  repeat (split; [assumption|]).
  exact (hint_texts_are_cumulative basic lcg_random (lit "Paris") (inr (lit "q1")) 1 2 2 3
           H1 H2 H3).
Defined.

(** X4: the hint plan fits into the time of a question.  Without hints
    the interval is 9999; with hints it is at least 4 seconds, and hints
    sent one interval apart are all due at least 7 seconds before the 25
    seconds of the question are over. *)
Theorem choose_hint_plan_schedule (L : PyLib) (answer_display : ustr) :
  let plan := choose_hint_plan L answer_display in
  (plan_hint_total plan = 0%Z -> interval_sec plan = 9999%Z)
  /\ ((1 <= plan_hint_total plan)%Z ->
      (4 <= interval_sec plan)%Z
      /\ (plan_hint_total plan * interval_sec plan <= QUESTION_TTL_SEC - 7)%Z
      /\ (plan_hint_total plan * interval_sec plan < QUESTION_TTL_SEC)%Z).
Proof.
  cbv zeta. unfold choose_hint_plan.
  generalize (Z.of_nat (length (List.filter (isalnum L) answer_display))). intros n.
  cbv zeta.
  destruct (n <=? 2)%Z; [simpl; split; [reflexivity | lia]|].
  destruct (n <=? 4)%Z; [vm_compute; split; [discriminate | intros _; repeat split; discriminate]|].
  destruct (n <=? 7)%Z; [vm_compute; split; [discriminate | intros _; repeat split; discriminate]|].
  destruct (n <=? 10)%Z; vm_compute; (split; [discriminate | intros _; repeat split; discriminate]).
Qed.

(** ** main.py: the hint watcher *)

Lemma hint_watcher_turn_cases (L : PyLib) (R : PyRandom) (w : World R) :
  (hint_watcher_turn L R w).2 = w
  \/ exists row level total answer_display nht,
       state_row (w_db w) = Some row
       /\ value_truthy (active row) = true
       /\ value_truthy (allowed_chat_id (w_db w)) = true
       /\ value_truthy (allowed_thread_id (w_db w)) = true
       /\ winner_user_id row = VNone
       /\ value_or (hint_level row) (VInt 0) = VInt level
       /\ hint_total row = VInt total
       /\ (level < total)%Z
       /\ hint_answer row = VStr answer_display /\ answer_display <> []
       /\ next_hint_ts row = VInt nht /\ (nht <= w_now w)%Z
       /\ hint_watcher_turn L R w
          = (Ok tt,
             {| w_db := with_state_row (w_db w)
                  (Some (hinted_row row (level + 1)
                           (if (level + 1 <? total)%Z
                            then VInt (w_now w + interval_sec (choose_hint_plan L answer_display))
                            else VNone)));
                w_quiz := w_quiz w; w_current_question := w_current_question w;
                w_pending_setup := w_pending_setup w;
                w_out := w_out w ++
                  [SendHint (level + 1) total
                     (make_hint_random L answer_display
                        (reveal_positions L R answer_display (seed_of (current_qid row))
                           (level + 1) total))
                     (points_for_hint_level (level + 1))];
                w_now := w_now w |}).
Proof.
  destruct w as [d q cq ps out now]. unfold hint_watcher_turn. run_world.
  destruct (state_row d) as [row|] eqn:Hrow; simpl; [|now left].
  destruct (value_truthy (active row)) eqn:Hact; simpl; [|now left].
  destruct (value_truthy (allowed_chat_id d)) eqn:Hchat; simpl; [|now left].
  destruct (value_truthy (allowed_thread_id d)) eqn:Hthr; simpl; [|now left].
  destruct (winner_user_id row) eqn:Hwin; simpl; try now left.
  assert (Htot : forall v, value_truthy v = true -> value_or v (VInt 0) = v).
  { intros v Hv. unfold value_or. now rewrite Hv. }
  destruct (value_truthy (value_or (hint_total row) (VInt 0))) eqn:Htt; simpl; [|now left].
  assert (Htt' : value_truthy (hint_total row) = true).
  { unfold value_or in Htt. destruct (value_truthy (hint_total row)); [reflexivity | discriminate]. }
  rewrite (Htot _ Htt') in *.
  destruct (value_or (hint_level row) (VInt 0)) as [|level| |] eqn:Hlev; simpl; try now left.
  destruct (hint_total row) as [|total| |] eqn:Htotal; simpl; try now left.
  destruct (Z.leb_spec total level) as [Hge|Hlt]; simpl; [now left|].
  destruct (value_truthy (next_hint_ts row)) eqn:Hnt; simpl; [|now left].
  destruct (next_hint_ts row) as [|nht| |] eqn:Hnht; simpl; try now left.
  destruct (Z.leb_spec nht now) as [Hdue|Hnot]; simpl; [|now left].
  destruct (value_truthy (hint_answer row)) eqn:Hat; simpl; [|now left].
  destruct (hint_answer row) as [| | |answer_display] eqn:Hans; simpl; try now left.
  right. exists row, level, total, answer_display, nht.
  repeat (split; [first [reflexivity | assumption | (intros ->; discriminate Hat)]|]).
  rewrite Hrow. simpl. unfold hinted_row.
  destruct (level + 1 <? total)%Z; reflexivity.
Qed.

Lemma value_or_int (z : Z) : value_or (VInt z) (VInt 0) = VInt z.
Proof. unfold value_or. simpl. now destruct (Z.eqb_spec z 0) as [->|]. Qed.

(** X5: one turn of the hint watcher either changes nothing, or the game
    is active, the round has no winner, the hint level is below the
    number of hints and the time of the next hint has come; it then sends
    exactly one hint, of the next level, sets the hint level to that
    level and the time of the next hint one interval ahead (NULL after
    the last hint), and leaves the other columns, the engine and the
    sessions as they were. *)
Theorem hint_watcher_turn_effect (L : PyLib) (R : PyRandom) (w : World R) :
  (hint_watcher_turn L R w).2 = w
  \/ exists (row : StateRow) (level total : Z) (answer_display : ustr) (nht : Z),
       state_row (w_db w) = Some row
       /\ value_truthy (active row) = true
       /\ winner_user_id row = VNone
       /\ value_or (hint_level row) (VInt 0) = VInt level
       /\ hint_total row = VInt total
       /\ (level < total)%Z
       /\ hint_answer row = VStr answer_display
       /\ next_hint_ts row = VInt nht /\ (nht <= w_now w)%Z
       /\ (hint_watcher_turn L R w).1 = Ok tt
       /\ w_out (hint_watcher_turn L R w).2
          = w_out w ++
            [SendHint (level + 1) total
               (make_hint_random L answer_display
                  (reveal_positions L R answer_display (seed_of (current_qid row))
                     (level + 1) total))
               (points_for_hint_level (level + 1))]
       /\ state_row (w_db (hint_watcher_turn L R w).2)
          = Some (hinted_row row (level + 1)
                    (if (level + 1 <? total)%Z
                     then VInt (w_now w + interval_sec (choose_hint_plan L answer_display))
                     else VNone))
       /\ w_quiz (hint_watcher_turn L R w).2 = w_quiz w
       /\ sessions (w_db (hint_watcher_turn L R w).2) = sessions (w_db w).
Proof.
  destruct (hint_watcher_turn_cases L R w)
    as [H|(row & level & total & a & nht & H1 & H2 & _ & _ & H3 & H4 & H5 & H6 & H7 & _ & H8 & H9 & H)];
    [now left|].
  right. exists row, level, total, a, nht. rewrite H. simpl. repeat split; assumption.
Qed.

Lemma hints_sent_app (o1 o2 : list Out) :
  hints_sent (o1 ++ o2) = (hints_sent o1 + hints_sent o2)%nat.
Proof. unfold hints_sent. now rewrite List.filter_app, length_app. Qed.

(** X6: however long the hint watcher runs and whatever the times of its
    turns, it sends at most as many hints as the plan of the current
    question still has to give (the number of hints minus the hint
    level). *)
Theorem hint_watcher_gives_at_most_the_plan (L : PyLib) (R : PyRandom) (clock : list Z)
    (w : World R) :
  (hints_sent (w_out (hint_watcher_turns L R clock w).2)
   <= hints_sent (w_out w) + hints_left (w_db w))%nat.
Proof.
  revert w. induction clock as [|now clock IH]; intros w; simpl; [lia|].
  unfold bind.
  destruct (hint_watcher_turn_cases L R (at_time now w))
    as [H|(row & level & total & a & nht & H1 & _ & _ & _ & _ & H4 & H5 & H6 & _ & _ & _ & _ & H)].
  - destruct (hint_watcher_turn L R (at_time now w)) as [[[]|x] w1]; simpl in H; subst w1.
    + specialize (IH (at_time now w)). simpl in IH. exact IH.
    + simpl. lia.
  - rewrite H. specialize (IH (hint_watcher_turn L R (at_time now w)).2).
    rewrite H in IH. simpl in IH. simpl in H1.
    rewrite hints_sent_app in IH. unfold hints_left at 1 in IH. simpl in IH.
    rewrite value_or_int in IH.
    unfold hints_left. rewrite H1, H4, H5, !value_or_int in *.
    change (hints_sent [SendHint _ _ _ _]) with 1%nat in IH.
    simpl. lia.
Qed.

(** ** quiz.py: the lists of tags and categories *)

Lemma ustr_ltb_irrefl (a : ustr) : ustr_ltb a a = false.
Proof.
  induction a as [|x a IH]; [reflexivity|]. simpl.
  rewrite N.ltb_irrefl, N.eqb_refl, IH. reflexivity.
Qed.

Lemma ustr_ltb_trans (a b c : ustr) :
  ustr_ltb a b = true -> ustr_ltb b c = true -> ustr_ltb a c = true.
Proof.
  revert b c. induction a as [|x a IH]; intros [|y b] [|z c]; simpl; try discriminate; auto.
  rewrite !orb_true_iff, !andb_true_iff, !N.ltb_lt, !N.eqb_eq.
  intros [H1|[-> H1]] [H2|[-> H2]]; try (left; lia); try (now left).
  right. split; [reflexivity|]. eauto.
Qed.

Lemma ustr_ltb_total (a b : ustr) :
  a <> b -> ustr_ltb a b = false -> ustr_ltb b a = true.
Proof.
  revert b. induction a as [|x a IH]; intros [|y b]; simpl; try congruence.
  rewrite !orb_false_iff, !andb_false_iff, !orb_true_iff, !andb_true_iff,
    !N.ltb_lt, !N.ltb_ge, !N.eqb_eq, !N.eqb_neq.
  intros Hne [Hxy H]. destruct (N.eq_dec x y) as [->|Hd].
  - right. split; [reflexivity|]. destruct H as [H|H]; [congruence|].
    apply IH; [congruence | exact H].
  - left. lia.
Qed.

Lemma sorted_insert_elem (x y : ustr) (l : list ustr) :
  y ∈ sorted_insert x l <-> y = x \/ y ∈ l.
Proof.
  induction l as [|z l IH]; simpl.
  - rewrite list_elem_of_singleton. split; [now left | intros [H|H]; [exact H | inversion H]].
  - destruct (bool_decide_reflect (x = z)) as [->|Hne].
    + rewrite elem_of_cons. tauto.
    + destruct (ustr_ltb x z).
      * rewrite !elem_of_cons. tauto.
      * rewrite !elem_of_cons, IH. tauto.
Qed.

Lemma ascending_cons (x : ustr) (l : list ustr) :
  ascending (x :: l) = true
  <-> Forall (fun b => ustr_ltb x b = true) l /\ ascending l = true.
Proof.
  revert x. induction l as [|y l IH]; intros x.
  - simpl. split; [intros _; split; [constructor | reflexivity] | reflexivity].
  - change (ascending (x :: y :: l)) with (ustr_ltb x y && ascending (y :: l)).
    rewrite andb_true_iff. split.
    + intros [Hxy Hl]. split; [|exact Hl]. constructor; [exact Hxy|].
      apply IH in Hl as [Hy _]. eapply Forall_impl; [exact Hy|].
      intros b Hb. simpl in *. eapply ustr_ltb_trans; eauto.
    + intros [Hx Hl]. split; [|exact Hl]. now inversion Hx.
Qed.

Lemma sorted_insert_ascending (x : ustr) (l : list ustr) :
  ascending l = true -> ascending (sorted_insert x l) = true.
Proof.
  induction l as [|z l IH]; intros Hl; [reflexivity|].
  simpl sorted_insert.
  destruct (bool_decide_reflect (x = z)) as [->|Hne]; [exact Hl|].
  destruct (ustr_ltb x z) eqn:Hxz.
  - change (ustr_ltb x z && ascending (z :: l) = true). now rewrite Hxz, Hl.
  - apply ascending_cons in Hl as [Hz Hl]. apply ascending_cons. split; [|now apply IH].
    apply Forall_forall. intros b Hb. apply sorted_insert_elem in Hb as [->|Hb].
    + now apply ustr_ltb_total.
    + rewrite Forall_forall in Hz. now apply Hz.
Qed.

Lemma sorted_set_elem (y : ustr) (l : list ustr) : y ∈ sorted_set l <-> y ∈ l.
Proof.
  unfold sorted_set. induction l as [|x l IH]; simpl; [reflexivity|].
  rewrite sorted_insert_elem, IH, elem_of_cons. tauto.
Qed.

Lemma sorted_set_ascending (l : list ustr) : ascending (sorted_set l) = true.
Proof.
  unfold sorted_set. induction l as [|x l IH]; simpl; [reflexivity|].
  now apply sorted_insert_ascending.
Qed.

Lemma filter_ascending (f : ustr -> bool) (l : list ustr) :
  ascending l = true -> ascending (List.filter f l) = true.
Proof.
  induction l as [|x l IH]; intros Hl; [reflexivity|].
  apply ascending_cons in Hl as [Hx Hl]. simpl List.filter.
  destruct (f x); [|now apply IH]. apply ascending_cons. split; [|now apply IH].
  apply Forall_forall. intros y Hy. apply list_elem_of_In, filter_In in Hy as [Hy _].
  rewrite Forall_forall in Hx. apply Hx. now apply list_elem_of_In.
Qed.

Lemma ascending_NoDup (l : list ustr) : ascending l = true -> NoDup l.
Proof.
  induction l as [|x l IH]; intros Hl; [constructor|].
  apply ascending_cons in Hl as [Hx Hl]. constructor; [|now apply IH].
  intros Hin. rewrite Forall_forall in Hx. specialize (Hx _ Hin).
  now rewrite ustr_ltb_irrefl in Hx.
Qed.

Lemma elem_of_concat {A} (x : A) (ls : list (list A)) :
  x ∈ concat ls <-> exists l, x ∈ l /\ l ∈ ls.
Proof.
  induction ls as [|l ls IH]; simpl.
  - split; [intros H; inversion H | intros (l & _ & H); inversion H].
  - rewrite elem_of_app, IH. split.
    + intros [H|(l' & H & Hl')]; [exists l | exists l'];
        (split; [exact H|]); [left | now right].
    + intros (l' & H & Hl'). apply elem_of_cons in Hl' as [->|Hl']; [now left|].
      right. eauto.
Qed.

Lemma list_tags_elem (e : QuizEngine) (t : ustr) :
  t ∈ list_tags e <-> t <> all_tag /\ exists q, q ∈ questions e /\ t ∈ q_tags q.
Proof.
  unfold list_tags.
  rewrite list_elem_of_In, filter_In, <- list_elem_of_In, sorted_set_elem, negb_true_iff,
    bool_decide_eq_false.
  rewrite elem_of_concat. split.
  - intros [(ts & Ht & Hts) Hne]. split; [exact Hne|].
    apply list_elem_of_fmap in Hts as (q & -> & Hq). eauto.
  - intros [Hne (q & Hq & Ht)]. split; [|exact Hne].
    exists (q_tags q). split; [exact Ht|]. now apply list_elem_of_fmap_2.
Qed.

(** X7: [list_tags] returns exactly the tags carried by some loaded
    question, without the tag "all", in strictly ascending order of code
    points, each once. *)
Theorem list_tags_sorted_tags (e : QuizEngine) :
  (forall t : ustr,
      t ∈ list_tags e <-> t <> all_tag /\ exists q, q ∈ questions e /\ t ∈ q_tags q)
  /\ ascending (list_tags e) = true
  /\ NoDup (list_tags e).
Proof.
  assert (Hs : ascending (list_tags e) = true).
  { apply filter_ascending, sorted_set_ascending. }
  split; [apply list_tags_elem|]. split; [exact Hs | now apply ascending_NoDup].
Qed.

(** X8: [list_categories] returns exactly the non-empty categories of the
    loaded questions, in strictly ascending order of code points, each
    once. *)
Theorem list_categories_sorted_categories (e : QuizEngine) :
  (forall c : ustr,
      c ∈ list_categories e <-> c <> [] /\ exists q, q ∈ questions e /\ q_category q = Some c)
  /\ ascending (list_categories e) = true
  /\ NoDup (list_categories e).
Proof.
  assert (Hs : ascending (list_categories e) = true).
  { apply sorted_set_ascending. }
  split; [|split; [exact Hs|]].
  - intros c. unfold list_categories. rewrite sorted_set_elem, list_elem_of_omap. split.
    + intros (q & Hq & Hc). destruct (q_category q) as [[|x cs]|] eqn:E; try discriminate.
      injection Hc as <-. split; [discriminate | eauto].
    + intros [Hne (q & Hq & Hc)]. exists q. split; [exact Hq|]. rewrite Hc.
      destruct c; [contradiction | reflexivity].
  - now apply ascending_NoDup.
Qed.

(** ** quiz.py: what a draw can end in *)

Lemma same_catalog_refl e : same_catalog e e.
Proof. split; reflexivity. Qed.

Lemma same_catalog_trans e1 e2 e3 :
  same_catalog e1 e2 -> same_catalog e2 e3 -> same_catalog e1 e3.
Proof. intros [H1 H2] [H3 H4]. split; congruence. Qed.

Lemma indexed_same_catalog e e' : same_catalog e e' -> indexed e -> indexed e'.
Proof. intros [Hq Hb] Hidx q Hin. rewrite Hq in Hin. rewrite Hb. now apply Hidx. Qed.

Lemma bags_indexed_set_tag e tag ids :
  bags_indexed e -> (forall x, x ∈ ids -> is_Some (by_id e !! x)) ->
  bags_indexed (set_bag_by_tag e tag ids).
Proof.
  intros [Ht Hc] Hids. split; simpl; [|exact Hc].
  intros tag' ids' x Hl Hx. destruct (decide (tag = tag')) as [<-|Hne].
  - rewrite lookup_insert_eq in Hl. injection Hl as <-. now apply Hids.
  - rewrite lookup_insert_ne in Hl by exact Hne. eauto.
Qed.

Lemma bags_indexed_set_category e c ids :
  bags_indexed e -> (forall x, x ∈ ids -> is_Some (by_id e !! x)) ->
  bags_indexed (set_bag_by_category e c ids).
Proof.
  intros [Ht Hc] Hids. split; simpl; [exact Ht|].
  intros c' ids' x Hl Hx. destruct (decide (c = c')) as [<-|Hne].
  - rewrite lookup_insert_eq in Hl. injection Hl as <-. now apply Hids.
  - rewrite lookup_insert_ne in Hl by exact Hne. eauto.
Qed.

(** The tag branch: the catalog and the other bags are left alone, a
    question found by its id is returned, and the only failure is the
    empty scope. *)
Lemma next_by_tag_outcome (L : PyLib) (R : PyRandom) tag e g :
  indexed e -> bags_indexed e ->
  exists r e' g',
    next_by_tag L R tag (e, g) = (r, (e', g'))
    /\ same_catalog e e' /\ bags_indexed e'
    /\ _bag_by_category e' = _bag_by_category e
    /\ (forall tag', tag' <> tag -> _bag_by_tag e' !! tag' = _bag_by_tag e !! tag')
    /\ match r with
       | Ok q => exists x, by_id e !! x = Some q
       | Raise x => x = IndexError /\ _ids_for_tag L e tag = []
       end.
Proof.
  intros Hidx Hbags.
  assert (Hpop : forall e1 g1 b x,
             same_catalog e e1 -> bags_indexed e1 ->
             _bag_by_category e1 = _bag_by_category e ->
             (forall tag', tag' <> tag -> _bag_by_tag e1 !! tag' = _bag_by_tag e !! tag') ->
             _bag_by_tag e1 !! tag = Some (b ++ [x]) ->
             exists r e' g',
               next_by_tag L R tag (e1, g1) = (r, (e', g'))
               /\ same_catalog e e' /\ bags_indexed e'
               /\ _bag_by_category e' = _bag_by_category e
               /\ (forall tag', tag' <> tag -> _bag_by_tag e' !! tag' = _bag_by_tag e !! tag')
               /\ match r with
                  | Ok q => exists x, by_id e !! x = Some q
                  | Raise x => x = IndexError /\ _ids_for_tag L e tag = []
                  end).
  { intros e1 g1 b x Hc1 Hb1 Hcat1 Hfr1 Hbag.
    destruct (proj1 Hb1 tag (b ++ [x]) x Hbag) as [q Hq]; [apply elem_of_app; right; left|].
    exists (Ok q), (set_bag_by_tag e1 tag b), g1.
    split; [exact (next_by_tag_pop L R tag e1 g1 b x q Hbag Hq)|].
    split; [destruct Hc1; split; simpl; assumption|].
    split.
    { apply bags_indexed_set_tag; [exact Hb1|]. intros y Hy.
      apply (proj1 Hb1 tag (b ++ [x]) y Hbag). apply elem_of_app. now left. }
    split; [exact Hcat1|].
    split.
    { intros tag' Hne. simpl. rewrite lookup_insert_ne by congruence. now apply Hfr1. }
    exists x. destruct Hc1 as [_ <-]. exact Hq. }
  destruct (_bag_by_tag e !! tag) as [[|y r]|] eqn:Hbag.
  2: { destruct (snoc_destruct (y :: r) ltac:(discriminate)) as (b & x & E). rewrite E in Hbag.
       apply (Hpop e g b x); auto using same_catalog_refl. }
  all: rewrite (next_by_tag_refill L R tag e g) by (rewrite Hbag; auto).
  all: pose proof (shuffle_perm R _ g (_ids_for_tag L e tag)) as Hp.
  all: destruct (shuffle R g (_ids_for_tag L e tag)) as [ids g1] eqn:Es; simpl in *.
  all: destruct ids as [|i ids].
  1,3: exists (Raise IndexError), (set_bag_by_tag e tag []), g1.
  1,2: split; [reflexivity|]; split; [split; reflexivity|].
  1,2: split; [apply bags_indexed_set_tag; [exact Hbags | intros x Hx; inversion Hx]|].
  1,2: split; [reflexivity|].
  1,2: split; [intros tag' Hne; simpl; now rewrite lookup_insert_ne by congruence|].
  1,2: split; [reflexivity|]; now apply Permutation_nil in Hp.
  all: destruct (snoc_destruct (i :: ids) ltac:(discriminate)) as (b & x & E); rewrite E in *.
  all: apply (Hpop (set_bag_by_tag e tag (b ++ [x])) g1 b x);
         [split; reflexivity | | reflexivity
         | intros tag' Hne; simpl; now rewrite lookup_insert_ne by congruence
         | simpl; apply lookup_insert_eq].
  all: apply bags_indexed_set_tag; [exact Hbags|]; intros z Hz; rewrite Hp in Hz.
  all: apply ids_for_tag_in in Hz as (q & Hq & <-).
  all: destruct (Hidx q Hq) as (q' & Hq' & _); eauto.
Qed.

(** A category without questions falls back to the whole catalog. *)
Lemma _next_by_category_fallback (L : PyLib) (R : PyRandom) category e g :
  (_bag_by_category e !! normalize L category = None
   \/ _bag_by_category e !! normalize L category = Some []) ->
  (shuffle R g (ids_for_category L e (normalize L category))).1 = [] ->
  _next_by_category L R category (e, g)
  = next_by_tag L R all_tag
      (set_bag_by_category e (normalize L category) [],
       (shuffle R g (ids_for_category L e (normalize L category))).2).
Proof.
  intros Hbag Hnil. unfold _next_by_category at 1. cbv zeta. run.
  destruct (shuffle R g (ids_for_category L e (normalize L category))) as [ids g'] eqn:Es.
  simpl in *. subst ids.
  destruct Hbag as [Hb | Hb]; rewrite Hb; simpl; rewrite lookup_insert_eq; reflexivity.
Qed.

Lemma _next_by_category_outcome (L : PyLib) (R : PyRandom) category e g :
  indexed e -> bags_indexed e ->
  exists r e' g',
    _next_by_category L R category (e, g) = (r, (e', g'))
    /\ same_catalog e e' /\ bags_indexed e'
    /\ (forall c', c' <> normalize L category ->
          _bag_by_category e' !! c' = _bag_by_category e !! c')
    /\ (forall tag', tag' <> all_tag -> _bag_by_tag e' !! tag' = _bag_by_tag e !! tag')
    /\ match r with
       | Ok q => exists x, by_id e !! x = Some q
       | Raise x => x = IndexError /\ questions e = []
       end.
Proof.
  intros Hidx Hbags. set (cat_n := normalize L category).
  assert (Hpop : forall e1 g1 b x,
             same_catalog e e1 -> bags_indexed e1 ->
             _bag_by_tag e1 = _bag_by_tag e ->
             (forall c', c' <> cat_n -> _bag_by_category e1 !! c' = _bag_by_category e !! c') ->
             _bag_by_category e1 !! cat_n = Some (b ++ [x]) ->
             exists r e' g',
               _next_by_category L R category (e1, g1) = (r, (e', g'))
               /\ same_catalog e e' /\ bags_indexed e'
               /\ (forall c', c' <> cat_n ->
                     _bag_by_category e' !! c' = _bag_by_category e !! c')
               /\ (forall tag', tag' <> all_tag ->
                     _bag_by_tag e' !! tag' = _bag_by_tag e !! tag')
               /\ match r with
                  | Ok q => exists x, by_id e !! x = Some q
                  | Raise x => x = IndexError /\ questions e = []
                  end).
  { intros e1 g1 b x Hc1 Hb1 Htag1 Hfr1 Hbag.
    destruct (proj2 Hb1 cat_n (b ++ [x]) x Hbag) as [q Hq]; [apply elem_of_app; right; left|].
    exists (Ok q), (set_bag_by_category e1 cat_n b), g1.
    split; [exact (_next_by_category_pop L R category e1 g1 b x q Hbag Hq)|].
    split; [destruct Hc1; split; simpl; assumption|].
    split.
    { apply bags_indexed_set_category; [exact Hb1|]. intros y Hy.
      apply (proj2 Hb1 cat_n (b ++ [x]) y Hbag). apply elem_of_app. now left. }
    split.
    { intros c' Hne. simpl. rewrite lookup_insert_ne by congruence. now apply Hfr1. }
    split; [intros tag' _; simpl; now rewrite Htag1|].
    exists x. destruct Hc1 as [_ <-]. exact Hq. }
  destruct (_bag_by_category e !! cat_n) as [[|y r]|] eqn:Hbag.
  2: { destruct (snoc_destruct (y :: r) ltac:(discriminate)) as (b & x & E). rewrite E in Hbag.
       apply (Hpop e g b x); auto using same_catalog_refl. }
  all: pose proof (shuffle_perm R _ g (ids_for_category L e cat_n)) as Hp.
  all: destruct (shuffle R g (ids_for_category L e cat_n)).1 as [|i ids] eqn:Es.
  1,3: rewrite (_next_by_category_fallback L R category e g) by (fold cat_n; auto).
  1,2: fold cat_n.
  1,2: destruct (next_by_tag_outcome L R all_tag (set_bag_by_category e cat_n [])
                   (shuffle R g (ids_for_category L e cat_n)).2)
         as (r & e' & g' & Hrun & Hc & Hb & Hcat & Hfr & Hr);
         [exact Hidx
         | apply bags_indexed_set_category; [exact Hbags | intros x Hx; inversion Hx] |].
  1,2: exists r, e', g'; split; [exact Hrun|]; split; [exact Hc|]; split; [exact Hb|].
  1,2: split; [intros c' Hne; rewrite Hcat; simpl; now rewrite lookup_insert_ne by congruence|].
  1,2: split; [exact Hfr|].
  1,2: destruct r as [q|x]; [exact Hr|]; destruct Hr as [-> Hr]; split; [reflexivity|].
  1,2: unfold _ids_for_tag in Hr;
       rewrite bool_decide_eq_true_2 in Hr by reflexivity; simpl in Hr;
       now destruct (questions e).
  all: rewrite (_next_by_category_refill L R category e g)
         by (fold cat_n; rewrite ?Es; auto; discriminate).
  all: fold cat_n; rewrite Es.
  all: destruct (snoc_destruct (i :: ids) ltac:(discriminate)) as (b & x & E); rewrite E in *.
  all: apply (Hpop (set_bag_by_category e cat_n (b ++ [x])) _ b x);
         [split; reflexivity | | reflexivity
         | intros c' Hne; simpl; now rewrite lookup_insert_ne by congruence
         | simpl; apply lookup_insert_eq].
  all: apply bags_indexed_set_category; [exact Hbags|]; intros z Hz; rewrite Hp in Hz.
  all: apply ids_for_category_in in Hz as (q & Hq & <-).
  all: destruct (Hidx q Hq) as (q' & Hq' & _); eauto.
Qed.

Lemma load_bags_indexed (L : PyLib) files e : load L files = Ok e -> bags_indexed e.
Proof.
  unfold load. destruct (load_files L files []) as [qs|]; [|discriminate].
  intros [= <-]. split; simpl; intros ? ? ? H; now rewrite lookup_empty in H.
Qed.

(** X9: on an engine built by [load], and after any draws, every question
    can be looked up by its id and so can every id waiting in a bag; a
    draw keeps this, never fails with [KeyError], and fails at all (with
    [IndexError]) only when no question carries the tag or, with a
    category, when the catalog is empty. *)
Theorem next_question_outcome (L : PyLib) (R : PyRandom) :
  (forall files e, load L files = Ok e -> indexed e /\ bags_indexed e)
  /\ (forall (e : QuizEngine) (g : rng R) (tag : ustr) (category : option ustr),
        indexed e -> bags_indexed e ->
        exists r e' g',
          next_question L R tag category (e, g) = (r, (e', g'))
          /\ same_catalog e e' /\ indexed e' /\ bags_indexed e'
          /\ match r with
             | Ok q => exists x, by_id e !! x = Some q
             | Raise x =>
                 x = IndexError
                 /\ match category with
                    | Some (_ :: _) => questions e = []
                    | _ => _ids_for_tag L e tag = []
                    end
             end).
Proof.
  split; [intros files e H; split; [eapply load_indexed | eapply load_bags_indexed]; eauto|].
  intros e g tag category Hidx Hbags.
  destruct category as [[|c cs]|]; simpl next_question.
  2: destruct (_next_by_category_outcome L R (c :: cs) e g Hidx Hbags)
       as (r & e' & g' & Hrun & Hc & Hb & _ & _ & Hr).
  1,3: destruct (next_by_tag_outcome L R tag e g Hidx Hbags)
         as (r & e' & g' & Hrun & Hc & Hb & _ & _ & Hr).
  all: exists r, e', g'; split; [exact Hrun|]; split; [exact Hc|].
  all: split; [eapply indexed_same_catalog; eauto|]; split; [exact Hb | exact Hr].
Qed.

(** X10: a draw leaves the catalog alone and touches the bag of its own
    scope only: a draw by tag leaves every bag of another tag and every
    category bag as it was; a draw by category leaves the bags of the
    other categories and, but for its fallback bag "all", the tag bags. *)
Theorem next_question_leaves_other_bags (L : PyLib) (R : PyRandom) (e : QuizEngine)
    (g : rng R) (tag : ustr) (category : option ustr) :
  indexed e -> bags_indexed e ->
  let e' := (next_question L R tag category (e, g)).2.1 in
  questions e' = questions e /\ by_id e' = by_id e
  /\ match category with
     | Some (c :: cs) =>
         (forall cat_n, cat_n <> normalize L (c :: cs) ->
            _bag_by_category e' !! cat_n = _bag_by_category e !! cat_n)
         /\ (forall tag', tag' <> all_tag -> _bag_by_tag e' !! tag' = _bag_by_tag e !! tag')
     | _ =>
         _bag_by_category e' = _bag_by_category e
         /\ (forall tag', tag' <> tag -> _bag_by_tag e' !! tag' = _bag_by_tag e !! tag')
     end.
Proof.
  intros Hidx Hbags. cbv zeta.
  destruct category as [[|c cs]|]; simpl next_question.
  2: destruct (_next_by_category_outcome L R (c :: cs) e g Hidx Hbags)
       as (r & e' & g' & Hrun & Hc & _ & H1 & H2 & _).
  1,3: destruct (next_by_tag_outcome L R tag e g Hidx Hbags)
         as (r & e' & g' & Hrun & Hc & _ & H1 & H2 & _).
  all: rewrite Hrun; simpl; destruct Hc as [Hq Hb]; auto.
Qed.

Lemma next_question_leaves_other_bags_witness :
  indexed demo_engine /\ bags_indexed demo_engine
  /\ _bag_by_category
       (next_question basic lcg_random (lit "geo") None (demo_engine, 42%Z)).2.1
     = _bag_by_category demo_engine.
Proof.
  assert (H1 : indexed demo_engine) by exact (load_indexed _ _ _ demo_engine_loaded).
  assert (H2 : bags_indexed demo_engine) by exact (load_bags_indexed _ _ _ demo_engine_loaded).
  split; [exact H1|]. split; [exact H2|].
  exact (proj1 (proj2 (proj2 (next_question_leaves_other_bags basic lcg_random demo_engine
                                42%Z (lit "geo") None H1 H2)))).
Defined.

(** ** quiz.py: the index of the questions *)

Lemma build_by_id_foldl (qs : list Question) (m : gmap ustr Question) (x : ustr) :
  foldl (fun m q => <[q_id q := q]> m) m qs !! x
  = match last (List.filter (fun q => bool_decide (q_id q = x)) qs) with
    | Some q => Some q
    | None => m !! x
    end.
Proof.
  revert m. induction qs as [|a qs IH]; intros m; [reflexivity|].
  simpl foldl. rewrite IH. simpl List.filter.
  destruct (bool_decide_reflect (q_id a = x)) as [Ha|Ha].
  - destruct (List.filter _ qs) as [|b r] eqn:E.
    + simpl. rewrite <- Ha. apply lookup_insert_eq.
    + change (last (a :: b :: r)) with (last (b :: r)).
      destruct (last (b :: r)) eqn:El; [reflexivity|].
      apply last_None in El. discriminate El.
  - destruct (last (List.filter _ qs)); [reflexivity|]. now apply lookup_insert_ne.
Qed.

(** X12: after [load], [by_id] maps an id to the last loaded question that
    carries it (an earlier question with the same id is shadowed), and
    holds nothing for an id that no loaded question carries. *)
Theorem by_id_keeps_the_last_of_an_id (L : PyLib) (files : list (ustr * json))
    (e : QuizEngine) (x : ustr) :
  load L files = Ok e ->
  by_id e !! x = last (List.filter (fun q => bool_decide (q_id q = x)) (questions e))
  /\ (by_id e !! x = None <-> x ∉ map q_id (questions e)).
Proof.
  unfold load. destruct (load_files L files []) as [qs|]; [|discriminate].
  intros [= <-]. simpl. unfold build_by_id.
  assert (H : build_by_id qs !! x
              = last (List.filter (fun q => bool_decide (q_id q = x)) qs)).
  { unfold build_by_id. rewrite build_by_id_foldl, lookup_empty.
    now destruct (last _). }
  split; [exact H|]. unfold build_by_id in H. rewrite H. rewrite last_None. split.
  - intros E (q & Hx & Hq)%list_elem_of_fmap.
    assert (Hin : In q (List.filter (fun q => bool_decide (q_id q = x)) qs)).
    { apply filter_In. split; [now apply list_elem_of_In | now apply bool_decide_eq_true_2]. }
    rewrite E in Hin. inversion Hin.
  - intros Hx. destruct (List.filter _ qs) as [|q r] eqn:E; [reflexivity|].
    exfalso. apply Hx.
    assert (Hin : In q (List.filter (fun q => bool_decide (q_id q = x)) qs))
      by (rewrite E; now left).
    apply filter_In in Hin as [Hin Hq]. apply bool_decide_eq_true_1 in Hq. subst x.
    apply list_elem_of_fmap_2. now apply list_elem_of_In.
Qed.

Lemma by_id_keeps_the_last_of_an_id_witness :
  load basic demo_files = Ok demo_engine
  /\ by_id demo_engine !! lit "q2"
     = last (List.filter (fun q => bool_decide (q_id q = lit "q2")) (questions demo_engine)).
Proof.
  split; [exact demo_engine_loaded|].
  exact (proj1 (by_id_keeps_the_last_of_an_id basic demo_files demo_engine (lit "q2")
                  demo_engine_loaded)).
Defined.

(** ** quiz.py: the eligible questions of a scope *)

Lemma bool_decide_elem_of_map {A B} `{EqDecision B} (f : A -> B) (a : B) (l : list A) :
  bool_decide (a ∈ map f l) = existsb (fun x => bool_decide (f x = a)) l.
Proof.
  induction l as [|x l IH]; cbn [map existsb].
  - apply bool_decide_eq_false_2. intros H. inversion H.
  - rewrite <- IH. destruct (bool_decide_reflect (f x = a)) as [E|E]; cbn [orb].
    + apply bool_decide_eq_true_2. rewrite E. left.
    + destruct (bool_decide_reflect (a ∈ map f l)) as [H|H].
      * apply bool_decide_eq_true_2. now right.
      * apply bool_decide_eq_false_2. intros H'. apply elem_of_cons in H' as [H'|H']; auto.
Qed.

Lemma filter_ext_in' {A} (p p' : A -> bool) (l : list A) :
  (forall x, x ∈ l -> p x = p' x) -> List.filter p l = List.filter p' l.
Proof.
  intros H. apply filter_ext_in. intros x Hx. apply H. now apply list_elem_of_In.
Qed.

(** On a proper scope the ids the code collects are the ids of the
    eligible questions, in the order of the catalog. *)
Lemma eligible_ids_eligible_questions (L : PyLib) (e : QuizEngine) (s : Scope) :
  proper_scope L s ->
  eligible_ids L e (scope_tag s) (scope_category s) = map q_id (eligible_questions L s e).
Proof.
  unfold eligible_ids, eligible_questions.
  destruct s as [|t|c]; cbn [scope_tag scope_category proper_scope].
  - intros _. unfold _ids_for_tag. rewrite bool_decide_eq_true_2 by reflexivity.
    f_equal. induction (questions e) as [|q l IH]; [reflexivity|]. simpl. now f_equal.
  - intros Hne. unfold _ids_for_tag. rewrite bool_decide_eq_false_2 by exact Hne.
    f_equal. apply filter_ext_in'. intros q _. apply bool_decide_elem_of_map.
  - intros Hne. destruct c as [|x c]; [exfalso; apply Hne; reflexivity|].
    unfold ids_for_category. f_equal. apply filter_ext_in'. intros q _. unfold eligible.
    destruct (q_category q) as [c'|]; [reflexivity|]. cbn [default].
    apply bool_decide_eq_false_2. intros E. apply Hne. rewrite <- E. reflexivity.
Qed.

(** A question a draw returns is one [by_id] holds, and the draw leaves
    the catalog as it is, whatever the bags hold. *)
Lemma next_by_tag_by_id (L : PyLib) (R : PyRandom) tag e g r e' g' :
  next_by_tag L R tag (e, g) = (r, (e', g')) ->
  same_catalog e e'
  /\ match r with
     | Ok q => exists x, by_id e !! x = Some q
     | Raise _ => True
     end.
Proof.
  unfold next_by_tag. run.
  destruct (_bag_by_tag e !! tag) as [[|y b]|] eqn:Hbag; simpl.
  2: { rewrite Hbag. simpl. destruct (pop (y :: b)) as [[qid rest]|x] eqn:Ep; simpl.
       - destruct (by_id e !! qid) as [q|] eqn:Hq; intros [= <- <- <-];
           (split; [split; reflexivity|]); eauto.
       - intros [= <- <- <-]. split; [split; reflexivity | exact I]. }
  all: destruct (shuffle R g (_ids_for_tag L e tag)) as [ids g1]; simpl.
  all: rewrite lookup_insert_eq; simpl.
  all: destruct (pop ids) as [[qid rest]|x] eqn:Ep; simpl.
  all: try (destruct (by_id e !! qid) as [q|] eqn:Hq).
  all: intros [= <- <- <-]; (split; [split; reflexivity|]); eauto.
Qed.

Lemma _next_by_category_by_id (L : PyLib) (R : PyRandom) category e g r e' g' :
  _next_by_category L R category (e, g) = (r, (e', g')) ->
  same_catalog e e'
  /\ match r with
     | Ok q => exists x, by_id e !! x = Some q
     | Raise _ => True
     end.
Proof.
  unfold _next_by_category. cbv zeta. run.
  set (cat_n := normalize L category).
  assert (Hfall : forall e1 g1,
             same_catalog e e1 ->
             next_by_tag L R all_tag (e1, g1) = (r, (e', g')) ->
             same_catalog e e'
             /\ match r with
                | Ok q => exists x, by_id e !! x = Some q
                | Raise _ => True
                end).
  { intros e1 g1 Hc H. apply next_by_tag_by_id in H as [Hc' Hr].
    split; [eapply same_catalog_trans; eauto|].
    destruct r; [|exact I]. destruct Hc as [_ Hb]. now rewrite <- Hb. }
  destruct (_bag_by_category e !! cat_n) as [[|y b]|] eqn:Hbag; simpl.
  2: { rewrite Hbag. simpl. destruct (pop (y :: b)) as [[qid rest]|x] eqn:Ep; simpl.
       - destruct (by_id e !! qid) as [q|] eqn:Hq; intros [= <- <- <-];
           (split; [split; reflexivity|]); eauto.
       - intros [= <- <- <-]. split; [split; reflexivity | exact I]. }
  all: destruct (shuffle R g (ids_for_category L e cat_n)) as [ids g1]; simpl.
  all: rewrite lookup_insert_eq; simpl.
  all: destruct ids as [|i ids]; [apply Hfall; split; reflexivity|].
  all: destruct (pop (i :: ids)) as [[qid rest]|x] eqn:Ep; simpl.
  all: try (destruct (by_id e !! qid) as [q|] eqn:Hq).
  all: intros [= <- <- <-]; (split; [split; reflexivity|]); eauto.
Qed.

Lemma next_question_by_id (L : PyLib) (R : PyRandom) tag category e g r e' g' :
  next_question L R tag category (e, g) = (r, (e', g')) ->
  same_catalog e e'
  /\ match r with
     | Ok q => exists x, by_id e !! x = Some q
     | Raise _ => True
     end.
Proof.
  destruct category as [[|c cs]|]; simpl;
    eauto using next_by_tag_by_id, _next_by_category_by_id.
Qed.

Lemma draw_n_by_id (L : PyLib) (R : PyRandom) tag category n :
  forall e g qs e' g',
    draw_n L R tag category n (e, g) = (Ok qs, (e', g')) ->
    Forall (fun q => exists x, by_id e !! x = Some q) qs.
Proof.
  induction n as [|n IH]; intros e g qs e' g'; simpl.
  - intros [= <- <- <-]. constructor.
  - unfold bind at 1.
    destruct (next_question L R tag category (e, g)) as [[q|x] [e1 g1]] eqn:E1; [|discriminate].
    unfold bind, ret.
    destruct (draw_n L R tag category n (e1, g1)) as [[qs'|x] [e2 g2]] eqn:E2; [|discriminate].
    intros [= <- <- <-].
    apply next_question_by_id in E1 as [[_ Hb] Hq]. constructor; [exact Hq|].
    apply IH in E2. rewrite Hb in E2. exact E2.
Qed.

(** What [by_id] holds when it is the index of the catalog. *)
Lemma build_by_id_lookup (qs : list Question) (x : ustr) (q : Question) :
  build_by_id qs !! x = Some q -> q ∈ qs /\ q_id q = x.
Proof.
  unfold build_by_id. rewrite build_by_id_foldl, lookup_empty.
  destruct (last (List.filter (fun q => bool_decide (q_id q = x)) qs)) as [q'|] eqn:El;
    [|discriminate].
  intros [= ->]. apply last_Some in El as (l' & El).
  assert (Hin : In q (List.filter (fun q => bool_decide (q_id q = x)) qs)).
  { rewrite El. apply in_or_app. right. now left. }
  apply filter_In in Hin as [Hin Hx]. split; [now apply list_elem_of_In|].
  now apply bool_decide_eq_true_1 in Hx.
Qed.

Lemma build_by_id_indexed (e : QuizEngine) :
  by_id e = build_by_id (questions e) -> indexed e.
Proof. intros E q Hq. rewrite E. now apply build_by_id_spec. Qed.

Lemma NoDup_map_inj_on {A B} (f : A -> B) (l : list A) (x y : A) :
  NoDup (map f l) -> x ∈ l -> y ∈ l -> f x = f y -> x = y.
Proof.
  induction l as [|a l IH]; intros Hnd Hx Hy E; [inversion Hx|].
  simpl in Hnd. apply NoDup_cons in Hnd as [Ha Hnd].
  apply elem_of_cons in Hx as [->|Hx]; apply elem_of_cons in Hy as [->|Hy]; auto.
  - exfalso. apply Ha. rewrite E. now apply list_elem_of_fmap_2.
  - exfalso. apply Ha. rewrite <- E. now apply list_elem_of_fmap_2.
Qed.

Lemma NoDup_map_filter {A B} (f : A -> B) (p : A -> bool) (l : list A) :
  NoDup (map f l) -> NoDup (map f (List.filter p l)).
Proof.
  induction l as [|a l IH]; simpl; intros Hnd; [constructor|].
  apply NoDup_cons in Hnd as [Ha Hnd]. destruct (p a); simpl; [|auto].
  apply NoDup_cons. split; [|auto].
  intros (b & E & Hb)%list_elem_of_fmap. apply Ha. rewrite E.
  apply list_elem_of_fmap_2. apply list_elem_of_In.
  apply list_elem_of_In, filter_In in Hb as [Hb _]. exact Hb.
Qed.

(** Two lists of questions of a catalog with distinct ids that have the
    same ids are the same questions. *)
Lemma same_ids_same_questions (qs l1 l2 : list Question) :
  NoDup (map q_id qs) ->
  Forall (fun q => q ∈ qs) l1 -> Forall (fun q => q ∈ qs) l2 ->
  NoDup (map q_id l2) ->
  map q_id l1 ≡ₚ map q_id l2 -> l1 ≡ₚ l2.
Proof.
  intros Hnd H1 H2 Hnd2 Hp.
  assert (Hnd1 : NoDup (map q_id l1)) by now rewrite Hp.
  rewrite Forall_forall in H1, H2.
  apply NoDup_Permutation.
  - eapply NoDup_fmap_1; exact Hnd1.
  - eapply NoDup_fmap_1; exact Hnd2.
  - intros q. split; intros Hq.
    + assert (Hid : q_id q ∈ map q_id l2) by (rewrite <- Hp; now apply list_elem_of_fmap_2).
      apply list_elem_of_fmap in Hid as (q' & E & Hq').
      rewrite (NoDup_map_inj_on q_id qs q q' Hnd); auto.
    + assert (Hid : q_id q ∈ map q_id l1) by (rewrite Hp; now apply list_elem_of_fmap_2).
      apply list_elem_of_fmap in Hid as (q' & E & Hq').
      rewrite (NoDup_map_inj_on q_id qs q q' Hnd); auto.
Qed.

(** C5 (amended): draws of a scope return its eligible questions.  For all
    questions, for a tag other than "all" and for a category whose normal
    form is not empty, starting on an absent or exhausted bag, as many
    draws as the scope has eligible questions succeed and return the ids
    of the eligible questions in some order, each as often as the
    catalog holds it; when the ids of the catalog are distinct, the
    questions returned are the eligible questions themselves, each once.
    The bag is then empty, and one more draw reshuffles and returns an
    id that was drawn before. *)
Theorem draws_return_the_eligible_questions (L : PyLib) (R : PyRandom) (e : QuizEngine)
    (g : rng R) (s : Scope) :
  let tag := scope_tag s in
  let category := scope_category s in
  let eligible_qs := eligible_questions L s e in
  proper_scope L s ->
  by_id e = build_by_id (questions e) ->
  (scope_bag L e tag category = None \/ scope_bag L e tag category = Some []) ->
  exists qs e' g',
    draw_n L R tag category (length eligible_qs) (e, g) = (Ok qs, (e', g'))
    /\ map q_id qs ≡ₚ map q_id eligible_qs
    /\ (NoDup (map q_id (questions e)) -> qs ≡ₚ eligible_qs /\ NoDup (map q_id qs))
    /\ (eligible_qs <> [] ->
        scope_bag L e' tag category = Some []
        /\ exists q s'', next_question L R tag category (e', g') = (Ok q, s'')
                         /\ q_id q ∈ map q_id qs).
Proof.
  intros tag category eligible_qs Hs Hby Hbag.
  pose proof (eligible_ids_eligible_questions L e s Hs) as Hids.
  fold tag category eligible_qs in Hids.
  destruct (draws_are_a_permutation L R e g tag category (build_by_id_indexed e Hby) Hbag)
    as (qs & e' & g' & Hd & Hp & _ & Hnext).
  rewrite Hids in Hd, Hp, Hnext. rewrite length_map in Hd.
  exists qs, e', g'. split; [exact Hd|]. split; [exact Hp|]. split.
  - intros Hnd.
    assert (Hnd2 : NoDup (map q_id eligible_qs)) by now apply NoDup_map_filter.
    split; [|now rewrite Hp].
    apply (same_ids_same_questions (questions e)); auto.
    + pose proof (draw_n_by_id L R tag category _ e g qs e' g' Hd) as Hall.
      eapply Forall_impl; [exact Hall|]. intros q [x Hq]. rewrite Hby in Hq.
      now apply build_by_id_lookup in Hq.
    + apply Forall_forall. intros q Hq.
      apply list_elem_of_In, filter_In in Hq as [Hq _]. now apply list_elem_of_In.
  - intros Hne. apply Hnext. intros E. apply Hne. now apply map_eq_nil in E.
Qed.

Lemma draws_return_the_eligible_questions_witness :
  proper_scope basic (Tagged (lit "Geo"))
  /\ NoDup (map q_id (questions demo_engine))
  /\ map q_id (eligible_questions basic (Tagged (lit "Geo")) demo_engine) = [lit "q1"; lit "q2"]
  /\ exists qs e' g',
       draw_n basic lcg_random (lit "Geo") None 2 (demo_engine, 7%Z) = (Ok qs, (e', g'))
       /\ qs ≡ₚ eligible_questions basic (Tagged (lit "Geo")) demo_engine
       /\ NoDup (map q_id qs).
Proof.
  assert (H0 : proper_scope basic (Tagged (lit "Geo"))) by discriminate.
  assert (H1 : by_id demo_engine = build_by_id (questions demo_engine)) by reflexivity.
  assert (H2 : scope_bag basic demo_engine (lit "Geo") None = None
               \/ scope_bag basic demo_engine (lit "Geo") None = Some [])
    by (left; reflexivity).
  assert (H3 : NoDup (map q_id (questions demo_engine))).
  { apply (bool_decide_eq_true_1 (NoDup (map q_id (questions demo_engine)))).
    vm_compute. reflexivity. }
  split; [exact H0|]. split; [exact H3|]. split; [vm_compute; reflexivity|].
  destruct (draws_return_the_eligible_questions basic lcg_random demo_engine 7%Z
              (Tagged (lit "Geo")) H0 H1 H2)
    as (qs & e' & g' & Hd & _ & Hnd & _).
  exists qs, e', g'. split; [exact Hd|]. exact (Hnd H3).
Defined.

(** C5 (as stated) fails: [load] accepts two records with the same id, and
    [by_id] keeps the later one.  The catalog then has two eligible
    questions, and two draws on a fresh bag return the same question
    twice. *)
Lemma draws_repeat_a_duplicated_id :
  load basic twin_files = Ok twin_engine
  /\ questions twin_engine = [paris_question; sum_question]
  /\ eligible_questions basic AllQuestions twin_engine = [paris_question; sum_question]
  /\ _bag_by_tag twin_engine !! all_tag = None
  /\ (draw_n basic lcg_random all_tag None 2 (twin_engine, 42%Z)).1
     = Ok [sum_question; sum_question].
Proof. repeat split; vm_compute; reflexivity. Qed.

(** The two scopes the code reads in its own way: the tag "all" stands
    for all questions whatever their tags, and a category whose normal
    form is empty is matched by the questions that have no category. *)
Example scopes_the_code_reads_its_own_way :
  eligible_questions basic (Tagged all_tag) twin_engine = []
  /\ eligible_ids basic twin_engine all_tag None = [lit "1"; lit "1"]
  /\ eligible_questions basic (InCategory (lit "?!")) twin_engine = []
  /\ eligible_ids basic twin_engine all_tag (Some (lit "?!")) = [lit "1"; lit "1"].
Proof. repeat split; vm_compute; reflexivity. Qed.

(** ** quiz.py: the bags hold ids of their scope *)

Lemma load_bags_scoped (L : PyLib) files e : load L files = Ok e -> bags_scoped L e.
Proof.
  unfold load. destruct (load_files L files []) as [qs|]; [|discriminate].
  intros [= <-]. split; simpl; intros ? ? ? H; now rewrite lookup_empty in H.
Qed.

Lemma load_by_id (L : PyLib) files e :
  load L files = Ok e -> by_id e = build_by_id (questions e).
Proof.
  unfold load. destruct (load_files L files []) as [qs|]; [|discriminate].
  now intros [= <-].
Qed.

Lemma bags_scoped_set_tag (L : PyLib) e tag ids :
  bags_scoped L e -> (forall x, x ∈ ids -> x ∈ _ids_for_tag L e tag) ->
  bags_scoped L (set_bag_by_tag e tag ids).
Proof.
  intros [Ht Hc] Hids. split; [|exact Hc].
  intros tag' ids' x Hl Hx. change (x ∈ _ids_for_tag L e tag').
  simpl in Hl. destruct (decide (tag = tag')) as [<-|Hne].
  - rewrite lookup_insert_eq in Hl. injection Hl as <-. now apply Hids.
  - rewrite lookup_insert_ne in Hl by exact Hne. eauto.
Qed.

Lemma bags_scoped_set_category (L : PyLib) e c ids :
  bags_scoped L e -> (forall x, x ∈ ids -> x ∈ ids_for_category L e c) ->
  bags_scoped L (set_bag_by_category e c ids).
Proof.
  intros [Ht Hc] Hids. split; [exact Ht|].
  intros c' ids' x Hl Hx. change (x ∈ ids_for_category L e c').
  simpl in Hl. destruct (decide (c = c')) as [<-|Hne].
  - rewrite lookup_insert_eq in Hl. injection Hl as <-. now apply Hids.
  - rewrite lookup_insert_ne in Hl by exact Hne. eauto.
Qed.

(** The tag branch returns the question [by_id] holds for an id of the
    tag, and keeps the bags within their scopes. *)
Lemma next_by_tag_scoped (L : PyLib) (R : PyRandom) tag e g :
  indexed e -> bags_scoped L e ->
  exists r e' g',
    next_by_tag L R tag (e, g) = (r, (e', g'))
    /\ same_catalog e e' /\ bags_scoped L e'
    /\ match r with
       | Ok q => exists x, x ∈ _ids_for_tag L e tag /\ by_id e !! x = Some q
       | Raise _ => _ids_for_tag L e tag = []
       end.
Proof.
  intros Hidx Hbags.
  assert (Hpop : forall e1 g1 b x,
             same_catalog e e1 -> bags_scoped L e1 ->
             _bag_by_tag e1 !! tag = Some (b ++ [x]) ->
             exists r e' g',
               next_by_tag L R tag (e1, g1) = (r, (e', g'))
               /\ same_catalog e e' /\ bags_scoped L e'
               /\ match r with
                  | Ok q => exists x, x ∈ _ids_for_tag L e tag /\ by_id e !! x = Some q
                  | Raise _ => _ids_for_tag L e tag = []
                  end).
  { intros e1 g1 b x Hc1 Hb1 Hbag.
    assert (Hx : x ∈ _ids_for_tag L e1 tag).
    { apply (proj1 Hb1 tag (b ++ [x]) x Hbag). apply elem_of_app. right. left. }
    rewrite (eligible_ids_same_catalog L e e1 tag None Hc1 : _ids_for_tag L e1 tag = _) in Hx.
    destruct (ids_for_tag_in L e tag x Hx) as (q0 & Hq0 & Hid).
    destruct (Hidx q0 Hq0) as (q & Hq & _). rewrite Hid in Hq.
    exists (Ok q), (set_bag_by_tag e1 tag b), g1.
    split; [apply (next_by_tag_pop L R tag e1 g1 b x q Hbag); destruct Hc1 as [_ ->]; exact Hq|].
    split; [destruct Hc1; split; simpl; assumption|].
    split; [|eauto].
    apply bags_scoped_set_tag; [exact Hb1|]. intros y Hy.
    apply (proj1 Hb1 tag (b ++ [x]) y Hbag). apply elem_of_app. now left. }
  destruct (_bag_by_tag e !! tag) as [[|y r]|] eqn:Hbag.
  2: { destruct (snoc_destruct (y :: r) ltac:(discriminate)) as (b & x & E). rewrite E in Hbag.
       apply (Hpop e g b x); auto using same_catalog_refl. }
  all: rewrite (next_by_tag_refill L R tag e g) by (rewrite Hbag; auto).
  all: pose proof (shuffle_perm R _ g (_ids_for_tag L e tag)) as Hp.
  all: destruct (shuffle R g (_ids_for_tag L e tag)) as [ids g1] eqn:Es; simpl in *.
  all: destruct ids as [|i ids].
  1,3: exists (Raise IndexError), (set_bag_by_tag e tag []), g1.
  1,2: split; [reflexivity|]; split; [split; reflexivity|].
  1,2: split; [apply bags_scoped_set_tag; [exact Hbags | intros x Hx; inversion Hx]|].
  1,2: now apply Permutation_nil in Hp.
  all: destruct (snoc_destruct (i :: ids) ltac:(discriminate)) as (b & x & E); rewrite E in *.
  all: apply (Hpop (set_bag_by_tag e tag (b ++ [x])) g1 b x);
         [split; reflexivity | | simpl; apply lookup_insert_eq].
  all: apply bags_scoped_set_tag; [exact Hbags|]; intros z Hz; now rewrite <- Hp.
Qed.

(** The category branch: an id of the category, or of the whole catalog
    when the category has no question. *)
Lemma _next_by_category_scoped (L : PyLib) (R : PyRandom) category e g :
  indexed e -> bags_scoped L e ->
  exists r e' g',
    _next_by_category L R category (e, g) = (r, (e', g'))
    /\ same_catalog e e' /\ bags_scoped L e'
    /\ match r with
       | Ok q =>
           exists x, by_id e !! x = Some q
             /\ (x ∈ ids_for_category L e (normalize L category)
                 \/ ids_for_category L e (normalize L category) = []
                    /\ x ∈ map q_id (questions e))
       | Raise _ => True
       end.
Proof.
  intros Hidx Hbags. set (cat_n := normalize L category).
  assert (Hpop : forall e1 g1 b x,
             same_catalog e e1 -> bags_scoped L e1 ->
             _bag_by_category e1 !! cat_n = Some (b ++ [x]) ->
             exists r e' g',
               _next_by_category L R category (e1, g1) = (r, (e', g'))
               /\ same_catalog e e' /\ bags_scoped L e'
               /\ match r with
                  | Ok q =>
                      exists x, by_id e !! x = Some q
                        /\ (x ∈ ids_for_category L e cat_n
                            \/ ids_for_category L e cat_n = [] /\ x ∈ map q_id (questions e))
                  | Raise _ => True
                  end).
  { intros e1 g1 b x Hc1 Hb1 Hbag.
    assert (Hx : x ∈ ids_for_category L e1 cat_n).
    { apply (proj2 Hb1 cat_n (b ++ [x]) x Hbag). apply elem_of_app. right. left. }
    assert (Hsame : ids_for_category L e1 cat_n = ids_for_category L e cat_n).
    { unfold ids_for_category. now destruct Hc1 as [-> _]. }
    rewrite Hsame in Hx.
    destruct (ids_for_category_in L e cat_n x Hx) as (q0 & Hq0 & Hid).
    destruct (Hidx q0 Hq0) as (q & Hq & _). rewrite Hid in Hq.
    exists (Ok q), (set_bag_by_category e1 cat_n b), g1.
    split; [apply (_next_by_category_pop L R category e1 g1 b x q Hbag);
            destruct Hc1 as [_ ->]; exact Hq|].
    split; [destruct Hc1; split; simpl; assumption|].
    split; [|eauto].
    apply bags_scoped_set_category; [exact Hb1|]. intros y Hy.
    apply (proj2 Hb1 cat_n (b ++ [x]) y Hbag). apply elem_of_app. now left. }
  destruct (_bag_by_category e !! cat_n) as [[|y r]|] eqn:Hbag.
  2: { destruct (snoc_destruct (y :: r) ltac:(discriminate)) as (b & x & E). rewrite E in Hbag.
       apply (Hpop e g b x); auto using same_catalog_refl. }
  all: pose proof (shuffle_perm R _ g (ids_for_category L e cat_n)) as Hp.
  all: destruct (shuffle R g (ids_for_category L e cat_n)).1 as [|i ids] eqn:Es.
  1,3: rewrite (_next_by_category_fallback L R category e g) by (fold cat_n; auto).
  1,2: fold cat_n.
  1,2: destruct (next_by_tag_scoped L R all_tag (set_bag_by_category e cat_n [])
                   (shuffle R g (ids_for_category L e cat_n)).2)
         as (r & e' & g' & Hrun & Hc & Hb & Hr);
         [exact Hidx
         | apply bags_scoped_set_category; [exact Hbags | intros x Hx; inversion Hx] |].
  1,2: exists r, e', g'; split; [exact Hrun|]; split; [exact Hc|]; split; [exact Hb|].
  1,2: destruct r as [q|x]; [|exact I]; destruct Hr as (x & Hx & Hq); exists x.
  1,2: split; [exact Hq|]; right; split; [now apply Permutation_nil in Hp|].
  1,2: unfold _ids_for_tag in Hx; rewrite bool_decide_eq_true_2 in Hx by reflexivity;
       exact Hx.
  all: rewrite (_next_by_category_refill L R category e g)
         by (fold cat_n; rewrite ?Es; auto; discriminate).
  all: fold cat_n; rewrite Es.
  all: destruct (snoc_destruct (i :: ids) ltac:(discriminate)) as (b & x & E); rewrite E in *.
  all: apply (Hpop (set_bag_by_category e cat_n (b ++ [x])) _ b x);
         [split; reflexivity | | simpl; apply lookup_insert_eq].
  all: apply bags_scoped_set_category; [exact Hbags|]; intros z Hz; now rewrite <- Hp.
Qed.

Lemma next_question_scoped (L : PyLib) (R : PyRandom) tag category e g :
  by_id e = build_by_id (questions e) -> bags_scoped L e ->
  exists r e' g',
    next_question L R tag category (e, g) = (r, (e', g'))
    /\ questions e' = questions e /\ by_id e' = build_by_id (questions e')
    /\ bags_scoped L e'.
Proof.
  intros Hby Hbags. pose proof (build_by_id_indexed e Hby) as Hidx.
  destruct category as [[|c cs]|]; simpl next_question.
  2: destruct (_next_by_category_scoped L R (c :: cs) e g Hidx Hbags)
       as (r & e' & g' & Hrun & [Hq Hb] & Hs & _).
  1,3: destruct (next_by_tag_scoped L R tag e g Hidx Hbags)
         as (r & e' & g' & Hrun & [Hq Hb] & Hs & _).
  all: exists r, e', g'; split; [exact Hrun|]; split; [exact Hq|].
  all: split; [now rewrite Hb, Hq | exact Hs].
Qed.

(** X11: a listed tag can be drawn.  Every tag that [list_tags] returns
    is carried by a question.  On an engine as [load] builds it and the
    draws leave it ([by_id] is the index of the catalog, and the ids
    waiting in a bag are ids of its scope), a draw with a listed tag
    never fails: it returns the question that [by_id] holds for the id of
    a question carrying the tag (compared after normalisation), and
    leaves the engine in such a state again.  When the ids of the
    catalog are distinct, the question returned carries the tag itself;
    when a later question has the same id, it is that later question,
    whatever its tags. *)
Theorem listed_tags_can_be_drawn (L : PyLib) (R : PyRandom) (e : QuizEngine) (g : rng R)
    (t : ustr) :
  t ∈ list_tags e ->
  let tagged := eligible_questions L (Tagged t) e in
  tagged <> []
  /\ (by_id e = build_by_id (questions e) -> bags_scoped L e ->
      exists q e' g',
        next_question L R t None (e, g) = (Ok q, (e', g'))
        /\ q_id q ∈ map q_id tagged
        /\ by_id e !! q_id q
           = last (List.filter (fun q' => bool_decide (q_id q' = q_id q)) (questions e))
        /\ by_id e !! q_id q = Some q
        /\ (NoDup (map q_id (questions e)) -> q ∈ tagged)
        /\ questions e' = questions e
        /\ by_id e' = build_by_id (questions e')
        /\ bags_scoped L e').
Proof.
  intros Ht tagged. apply list_tags_elem in Ht as [Hne (q0 & Hq0 & Ht)].
  assert (Hids : _ids_for_tag L e t = map q_id tagged).
  { exact (eligible_ids_eligible_questions L e (Tagged t) Hne). }
  assert (Htagged : tagged <> []).
  { intros E.
    assert (Hin : In q0 tagged).
    { apply filter_In. split; [now apply list_elem_of_In|]. simpl.
      apply existsb_exists. exists t. split; [now apply list_elem_of_In|].
      now apply bool_decide_eq_true_2. }
    rewrite E in Hin. inversion Hin. }
  split; [exact Htagged|]. intros Hby Hbags.
  pose proof (build_by_id_indexed e Hby) as Hidx.
  destruct (next_by_tag_scoped L R t e g Hidx Hbags)
    as ([q|x] & e' & g' & Hrun & [Hq Hb] & Hs & Hr).
  - destruct Hr as (x & Hx & Hqx). rewrite Hids in Hx.
    pose proof Hqx as Hlook. rewrite Hby in Hlook.
    apply build_by_id_lookup in Hlook as [Hin Hid]. subst x.
    exists q, e', g'. split; [exact Hrun|]. split; [exact Hx|].
    split.
    { rewrite Hby. unfold build_by_id. rewrite build_by_id_foldl, lookup_empty.
      now destruct (last _). }
    split; [exact Hqx|]. split.
    { intros Hnd. apply list_elem_of_fmap in Hx as (q1 & E & Hq1).
      assert (Hq1' : q1 ∈ questions e).
      { apply list_elem_of_In, filter_In in Hq1 as [Hq1 _]. now apply list_elem_of_In. }
      now rewrite (NoDup_map_inj_on q_id (questions e) q q1 Hnd Hin Hq1' E). }
    split; [exact Hq|]. split; [now rewrite Hb, Hq | exact Hs].
  - exfalso. rewrite Hids in Hr. apply map_eq_nil in Hr. contradiction.
Qed.

Lemma listed_tags_can_be_drawn_witness :
  lit "geo" ∈ list_tags demo_engine
  /\ NoDup (map q_id (questions demo_engine))
  /\ exists q e' g',
       next_question basic lcg_random (lit "geo") None (demo_engine, 42%Z) = (Ok q, (e', g'))
       /\ q ∈ eligible_questions basic (Tagged (lit "geo")) demo_engine.
Proof.
  assert (H : lit "geo" ∈ list_tags demo_engine).
  { apply (bool_decide_eq_true_1 (lit "geo" ∈ list_tags demo_engine)).
    vm_compute. reflexivity. }
  assert (H1 : by_id demo_engine = build_by_id (questions demo_engine))
    by exact (load_by_id _ _ _ demo_engine_loaded).
  assert (H2 : bags_scoped basic demo_engine)
    by exact (load_bags_scoped _ _ _ demo_engine_loaded).
  assert (H3 : NoDup (map q_id (questions demo_engine))).
  { apply (bool_decide_eq_true_1 (NoDup (map q_id (questions demo_engine)))).
    vm_compute. reflexivity. }
  split; [exact H|]. split; [exact H3|].
  destruct (proj2 (listed_tags_can_be_drawn basic lcg_random demo_engine 42%Z (lit "geo") H)
              H1 H2)
    as (q & e' & g' & Hrun & _ & _ & _ & Hin & _).
  exists q, e', g'. split; [exact Hrun | exact (Hin H3)].
Defined.

(** With a duplicated id the question drawn for a listed tag need not
    carry it: in the catalog of the two files, the tag "geo" is listed,
    and the draw returns the later question of id 1, tagged "math". *)
Example draw_by_tag_returns_the_later_twin :
  list_tags twin_engine = [lit "geo"; lit "math"]
  /\ eligible_questions basic (Tagged (lit "geo")) twin_engine = [paris_question]
  /\ (next_question basic lcg_random (lit "geo") None (twin_engine, 42%Z)).1 = Ok sum_question
  /\ q_tags sum_question = [lit "math"].
Proof. repeat split; vm_compute; reflexivity. Qed.

(** ** quiz.py: what a loaded question looks like *)

Lemma lstrip_by_id p s :
  match s with [] => True | c :: _ => p c = false end -> lstrip_by p s = s.
Proof. destruct s as [|c s]; [reflexivity|]. intros H. simpl. now rewrite H. Qed.

Lemma lstrip_by_starts p s :
  match lstrip_by p s with [] => True | c :: _ => p c = false end.
Proof.
  induction s as [|c s IH]; simpl; [exact I|].
  destruct (p c) eqn:Hc; [exact IH | exact Hc].
Qed.

Lemma rstrip_by_starts p s :
  match s with [] => True | c :: _ => p c = false end ->
  match rstrip_by p s with [] => True | c :: _ => p c = false end.
Proof.
  destruct s as [|c s]; simpl; [auto|]. intros Hc.
  destruct (rstrip_by p s); [now rewrite Hc | exact Hc].
Qed.

Lemma rstrip_by_idem p s : rstrip_by p (rstrip_by p s) = rstrip_by p s.
Proof.
  induction s as [|c s IH]; simpl; [reflexivity|].
  destruct (rstrip_by p s) as [|d r] eqn:E.
  - destruct (p c) eqn:Hc; simpl; [reflexivity | now rewrite Hc].
  - simpl. simpl in IH. now rewrite IH.
Qed.

Lemma strip_strip (L : PyLib) s : strip L (strip L s) = strip L s.
Proof.
  unfold strip.
  rewrite (lstrip_by_id (isspace L) (rstrip_by (isspace L) (lstrip_by (isspace L) s))).
  - apply rstrip_by_idem.
  - apply rstrip_by_starts, lstrip_by_starts.
Qed.

Lemma clean_list_stripped (L : PyLib) xs : Forall (stripped L) (clean_list L xs).
Proof.
  induction xs as [|[| | | |s| |] xs IH]; simpl; try exact IH; [constructor|].
  destruct (strip L s) as [|c r] eqn:E; simpl; [exact IH|].
  constructor; [|exact IH]. split; [discriminate|]. rewrite <- E. apply strip_strip.
Qed.

Lemma clean_list_nonempty (L : PyLib) xs :
  existsb (fun a => match a with JStr s => nonempty (strip L s) | _ => false end) xs = true ->
  clean_list L xs <> [].
Proof.
  induction xs as [|[| | | |s| |] xs IH]; simpl; try exact IH; [discriminate|].
  destruct (strip L s) as [|c r]; simpl; [exact IH | discriminate].
Qed.

(** X13: a question accepted at load time is clean: its text, its answers,
    its aliases and its tags are non-empty and have no blank at either
    end, it has at least one answer, its category (if it is a string) has
    no blank at either end, and its first answer, the one the hints and
    the messages show, is one of its answers. *)
Theorem accepted_question_is_clean (L : PyLib) (n_loaded : nat) (q : json)
    (file_path : ustr) (out : Question) :
  _normalize_question L n_loaded q file_path = Ok (Some out) ->
  stripped L (q_question out)
  /\ q_answers out <> []
  /\ Forall (stripped L) (q_answers out)
  /\ Forall (stripped L) (q_aliases out)
  /\ Forall (stripped L) (q_tags out)
  /\ (forall c, q_category out = Some c -> strip L c = c)
  /\ first_answer out ∈ q_answers out.
Proof.
  unfold _normalize_question. destruct q as [| | | | |?|d]; try discriminate.
  destruct (dict_get d (lit "question")) as [[| | | |text| |]|]; try discriminate.
  destruct (strip L text) as [|c0 t0] eqn:Et; [discriminate|]. simpl negb. cbv iota.
  destruct (dict_get d (lit "answers")) as [[| | | | |answers|]|]; try discriminate.
  destruct (existsb _ answers) eqn:Ea; [|discriminate]. simpl negb. cbv iota.
  destruct (difficulty_of L d) as [difficulty|]; [|discriminate].
  intros [= <-]. simpl.
  pose proof (clean_list_nonempty L answers Ea) as Hne.
  split; [split; [discriminate | rewrite <- Et; apply strip_strip]|].
  split; [exact Hne|].
  split; [apply clean_list_stripped|].
  split; [apply clean_list_stripped|].
  split; [apply clean_list_stripped|].
  split.
  - intros c. destruct (default JNull (dict_get d (lit "category"))); try discriminate.
    intros [= <-]. apply strip_strip.
  - unfold first_answer. simpl. destruct (clean_list L answers); [contradiction | left].
Qed.

Lemma accepted_question_is_clean_witness :
  _normalize_question basic 0 hard_record (lit "q.json") = Ok (Some hard_question)
  /\ stripped basic (q_question hard_question).
Proof.
  assert (H : _normalize_question basic 0 hard_record (lit "q.json") = Ok (Some hard_question))
    by reflexivity.
  split; [exact H|].
  exact (proj1 (accepted_question_is_clean basic 0 hard_record (lit "q.json")
                  hard_question H)).
Defined.

(** ** quiz.py: what can stop the loading *)

Lemma _normalize_question_raises (L : PyLib) n q fp x :
  _normalize_question L n q fp = Raise x ->
  exists d v, q = JObj d /\ dict_get d (lit "difficulty") = Some v
              /\ str_isdigit L (py_str L v) = true /\ py_int L v = Raise x.
Proof.
  unfold _normalize_question. destruct q as [| | | | |?|d]; try discriminate.
  destruct (dict_get d (lit "question")) as [[| | | |text| |]|]; try discriminate.
  destruct (negb (nonempty (strip L text))); [discriminate|].
  destruct (dict_get d (lit "answers")) as [[| | | | |answers|]|]; try discriminate.
  destruct (negb (existsb _ answers)); [discriminate|].
  unfold difficulty_of.
  destruct (dict_get d (lit "difficulty")) as [v|] eqn:Ed; simpl.
  - destruct (str_isdigit L (py_str L v)) eqn:Hd; [|discriminate].
    destruct (py_int L v) as [z|y] eqn:Hi; [discriminate|].
    intros [= <-]. exists d, v. auto.
  - discriminate.
Qed.

Lemma load_items_raises (L : PyLib) fp items qs x :
  load_items L fp items qs = Raise x ->
  exists raw n, raw ∈ items /\ _normalize_question L n raw fp = Raise x.
Proof.
  revert qs. induction items as [|raw items IH]; intros qs; simpl; [discriminate|].
  destruct (_normalize_question L (length qs) raw fp) as [[q|]|y] eqn:E.
  - intros H. destruct (IH _ H) as (r & n & Hr & Hn). exists r, n. split; [now right | exact Hn].
  - intros H. destruct (IH _ H) as (r & n & Hr & Hn). exists r, n. split; [now right | exact Hn].
  - intros [= <-]. exists raw, (length qs). split; [left | exact E].
Qed.

Lemma _load_file_raises (L : PyLib) fp data qs x :
  _load_file L fp data qs = Raise x ->
  exists raw n, raw ∈ records_of data /\ _normalize_question L n raw fp = Raise x.
Proof.
  unfold _load_file, records_of. intros E.
  destruct data as [| | | | |items|d]; try discriminate.
  - now apply load_items_raises in E.
  - destruct (dict_get d (lit "questions")) as [[| | | | |items|]|]; try discriminate.
    now apply load_items_raises in E.
Qed.

Lemma load_files_from_raises (L : PyLib) (fs : Files) paths qs x :
  load_files_from L fs paths qs = Raise x ->
  exists fp, fp ∈ paths
    /\ (read_json fs fp = Raise x
        \/ exists data raw n, read_json fs fp = Ok data /\ raw ∈ records_of data
                              /\ _normalize_question L n raw fp = Raise x).
Proof.
  revert qs. induction paths as [|fp paths IH]; intros qs; simpl; [discriminate|].
  unfold _load_file_from. destruct (read_json fs fp) as [data|y] eqn:Er.
  - destruct (_load_file L fp data qs) as [qs'|y] eqn:E.
    + intros H. destruct (IH _ H) as (fp' & Hin & Hfp'). exists fp'. split; [now right | exact Hfp'].
    + intros [= <-]. exists fp. split; [left|]. right.
      destruct (_load_file_raises L fp data qs y E) as (raw & n & Hr & Hn).
      rewrite Er. exists data, raw, n. auto.
  - intros [= <-]. exists fp. split; [left|]. left. exact Er.
Qed.

(** When every file can be read, [load_from] is [load] on the parsed
    files. *)
Lemma load_files_from_parsed (L : PyLib) (fs : Files) paths qs :
  Forall (fun fp => exists data, read_json fs fp = Ok data) paths ->
  load_files_from L fs paths qs = load_files L (parsed_files fs paths) qs.
Proof.
  revert qs. induction paths as [|fp paths IH]; intros qs Hall; [reflexivity|].
  inversion Hall as [|? ? [data Hd] Hrest]; subst.
  simpl. unfold _load_file_from, parsed_files. simpl. rewrite Hd. simpl.
  destruct (_load_file L fp data qs) as [qs'|y]; [|reflexivity].
  now apply IH.
Qed.

(** X14: what makes [load] fail.  If [load(path)] raises, then one of the
    files it visits (the path itself, or the [.json] files under the
    directory) either cannot be opened or parsed, raising that exception,
    or holds a record with a [difficulty] whose [str] consists of digits
    for [str.isdigit] and which [int] rejects with that exception.
    Nothing else in a record makes the loading fail.  A file that cannot
    be opened or parsed is not skipped: it makes the loading of the whole
    catalog fail, with its exception or that of an earlier file.  When
    every file can be read, [load(path)] is the loading of the parsed
    files that the other properties are stated for. *)
Theorem load_fails_on_a_file_or_a_difficulty (L : PyLib) (fs : Files) (path : ustr) :
  (forall x : exn,
      load_from L fs path = Raise x ->
      exists file_path : ustr,
        file_path ∈ files_of L fs path
        /\ (read_json fs file_path = Raise x
            \/ exists (data : json) (d : list (ustr * json)) (v : json),
                 read_json fs file_path = Ok data
                 /\ JObj d ∈ records_of data
                 /\ dict_get d (lit "difficulty") = Some v
                 /\ str_isdigit L (py_str L v) = true
                 /\ py_int L v = Raise x))
  /\ (Forall (fun fp => exists data, read_json fs fp = Ok data) (files_of L fs path) ->
      load_from L fs path = load L (parsed_files fs (files_of L fs path)))
  /\ (forall (file_path : ustr) (x : exn),
        file_path ∈ files_of L fs path -> read_json fs file_path = Raise x ->
        exists y : exn, load_from L fs path = Raise y).
Proof.
  split; [|split].
  - intros x. unfold load_from.
    destruct (load_files_from L fs (files_of L fs path) []) as [qs|y] eqn:E; [discriminate|].
    intros [= <-].
    destruct (load_files_from_raises L fs _ [] y E) as (fp & Hin & [Hr|Hd]).
    + exists fp. split; [exact Hin|]. now left.
    + destruct Hd as (data & raw & n & Hr & Hraw & Hn).
      destruct (_normalize_question_raises L n raw fp y Hn) as (d & v & -> & Hd & Hs & Hi).
      exists fp. split; [exact Hin|]. right. exists data, d, v. auto.
  - intros Hall. unfold load_from, load. now rewrite load_files_from_parsed.
  - intros fp x Hin Hr. unfold load_from.
    assert (H : forall qs, exists y, load_files_from L fs (files_of L fs path) qs = Raise y).
    { induction (files_of L fs path) as [|fp' paths IH]; [inversion Hin|]. intros qs. simpl.
      destruct (_load_file_from L fs fp' qs) as [qs'|y] eqn:E; [|eauto].
      apply elem_of_cons in Hin as [->|Hin]; [|now apply IH].
      unfold _load_file_from in E. rewrite Hr in E. discriminate E. }
    destruct (H []) as [y Hy]. exists y. now rewrite Hy.
Qed.

Lemma load_fails_on_a_file_or_a_difficulty_witness :
  files_of basic demo_dir (lit "questions")
  = [lit "questions/broken.JSON"; lit "questions/geo.json"]
  /\ load_from basic demo_dir (lit "questions") = Raise ValueError
  /\ load_from basic demo_dir (lit "questions/missing.json") = Raise OSError
  /\ exists file_path : ustr,
       file_path ∈ files_of basic demo_dir (lit "questions/missing.json")
       /\ (read_json demo_dir file_path = Raise OSError
           \/ exists (data : json) (d : list (ustr * json)) (v : json),
                read_json demo_dir file_path = Ok data
                /\ JObj d ∈ records_of data
                /\ dict_get d (lit "difficulty") = Some v
                /\ str_isdigit basic (py_str basic v) = true
                /\ py_int basic v = Raise OSError).
Proof.
  assert (H : load_from basic demo_dir (lit "questions/missing.json") = Raise OSError)
    by (vm_compute; reflexivity).
  split; [vm_compute; reflexivity|]. split; [vm_compute; reflexivity|].
  split; [exact H|].
  exact (proj1 (load_fails_on_a_file_or_a_difficulty basic demo_dir
                  (lit "questions/missing.json")) OSError H).
Defined.

(** With the superscript two as a difficulty, the catalog is not loaded. *)
Example load_superscript_difficulty :
  load basic superscript_files = Raise ValueError.
Proof. vm_compute. reflexivity. Qed.

(** ** quiz.py: the answers a question accepts *)

(** X15: typing a listed answer or alias is accepted whenever its normal
    form is not empty; two inputs with the same normal form get the same
    verdict; and a question all of whose answers and aliases have an
    empty normal form (punctuation only) accepts no input at all. *)
Theorem check_answer_accepts_listed_answers (L : PyLib) (question : Question) :
  (forall a : ustr,
      a ∈ q_answers question ++ q_aliases question -> normalize L a <> [] ->
      check_answer L question a = true)
  /\ (forall s s' : ustr,
        normalize L s = normalize L s' ->
        check_answer L question s = check_answer L question s')
  /\ (Forall (fun a => normalize L a = []) (q_answers question ++ q_aliases question) ->
      forall s : ustr, check_answer L question s = false).
Proof.
  assert (Hmem : forall t, t ∈ foldl (fun c a => {[normalize L a]} ∪ c)
                             (foldl (fun c a => {[normalize L a]} ∪ c) (∅ : gset ustr)
                                    (q_answers question)) (q_aliases question)
                           <-> t ∈ map (normalize L) (q_answers question ++ q_aliases question)).
  { intros t. rewrite !foldl_add_normalized, map_app, elem_of_app.
    split; [intros [[H|H]|H]; [inversion H | tauto | tauto] | tauto]. }
  split; [|split].
  - intros a Ha Hne. unfold check_answer. cbv zeta.
    destruct (normalize L a) as [|c r] eqn:E; [contradiction|].
    apply bool_decide_eq_true_2, Hmem. rewrite <- E. now apply list_elem_of_fmap_2.
  - intros s s' E. unfold check_answer. now rewrite E.
  - intros Hall s. unfold check_answer. cbv zeta.
    destruct (normalize L s) as [|c r] eqn:E; [reflexivity|].
    apply bool_decide_eq_false_2. rewrite Hmem.
    intros (a & Hc & Ha)%list_elem_of_fmap.
    rewrite Forall_forall in Hall. rewrite (Hall a Ha) in Hc. discriminate Hc.
Qed.

(** ** textnorm.py: the shape of a normalised text *)

Section NormalShape.

Context (L : PyLib) (Hspace : isspace L space = true).

Let ok (c : N) : bool := is_word L c && negb (isspace L c).

Lemma sub_runs_from_no_punct r u :
  Forall (fun d => punct L d = false) (sub_runs_from (punct L) r u).
Proof.
  revert r. induction u as [|c u IH]; intros r; simpl; [constructor|].
  destruct (punct L c) eqn:Hp.
  - destruct r; [apply IH|]. constructor; [|apply IH].
    unfold punct. now rewrite Hspace, andb_false_r.
  - constructor; [exact Hp | apply IH].
Qed.

Lemma sub_runs_from_runs_spaced r v :
  Forall (fun d => punct L d = false) v ->
  runs_spaced ok r (sub_runs_from (isspace L) r v) = true.
Proof.
  intros H. revert r. induction H as [|c v Hc _ IH]; intros r; simpl; [reflexivity|].
  destruct (isspace L c) eqn:Hsp.
  - destruct r; [apply IH|]. simpl. apply IH.
  - simpl. destruct (N.eqb_spec c space) as [->|_]; [congruence|].
    unfold ok. rewrite Hsp. unfold punct in Hc. rewrite Hsp in Hc. simpl in Hc.
    rewrite andb_true_r in Hc. apply negb_false_iff in Hc. rewrite Hc. apply IH.
Qed.

Lemma ok_not_space c : ok c = true -> isspace L c = false.
Proof. unfold ok. rewrite andb_true_iff, negb_true_iff. tauto. Qed.

Lemma lstrip_by_runs_spaced b w :
  runs_spaced ok b w = true -> runs_spaced ok true (lstrip_by (isspace L) w) = true.
Proof.
  revert b. induction w as [|c w IH]; intros b H; [reflexivity|].
  simpl in H. simpl. destruct (N.eqb_spec c space) as [->|Hc].
  - apply andb_true_iff in H as [_ H]. rewrite Hspace. eauto.
  - apply andb_true_iff in H as [Hs H]. rewrite (ok_not_space c Hs). simpl.
    destruct (N.eqb_spec c space); [contradiction|]. now rewrite Hs.
Qed.

Lemma rstrip_by_runs_canon b w :
  runs_spaced ok b w = true ->
  rstrip_by (isspace L) w = [] \/ runs_canon ok b (rstrip_by (isspace L) w) = true.
Proof.
  revert b. induction w as [|c w IH]; intros b H; [now left|].
  simpl in H. simpl. destruct (N.eqb_spec c space) as [->|Hc].
  - apply andb_true_iff in H as [Hb H]. destruct (IH _ H) as [->|Hr].
    + left. now rewrite Hspace.
    + destruct (rstrip_by (isspace L) w) as [|d r]; [discriminate Hr|].
      right. simpl. simpl in Hr. now rewrite Hb, Hr.
  - apply andb_true_iff in H as [Hs H]. right.
    destruct (IH _ H) as [->|Hr].
    + rewrite (ok_not_space c Hs). simpl. destruct (N.eqb_spec c space); [contradiction|].
      now rewrite Hs.
    + destruct (rstrip_by (isspace L) w) as [|d r] eqn:Er.
      * rewrite (ok_not_space c Hs). simpl. destruct (N.eqb_spec c space); [contradiction|].
        now rewrite Hs.
      * change (runs_canon ok b (c :: d :: r)) with
          (if N.eqb c space then negb b && runs_canon ok true (d :: r)
           else ok c && runs_canon ok false (d :: r)).
        destruct (N.eqb_spec c space); [contradiction|]. now rewrite Hs, Hr.
Qed.

Lemma runs_canon_chars b t :
  runs_canon ok b t = true -> Forall (fun c => c = space \/ ok c = true) t.
Proof.
  revert b. induction t as [|c t IH]; intros b H; [constructor|].
  simpl in H. destruct (N.eqb_spec c space) as [->|Hc].
  - apply andb_true_iff in H as [_ H]. constructor; [now left | eauto].
  - apply andb_true_iff in H as [Hs H]. constructor; [now right | eauto].
Qed.

Lemma normalize_shape (s : ustr) :
  normalize L s = [] \/ words_spaced L (normalize L s) = true.
Proof.
  destruct s as [|c0 s0]; [now left|]. unfold normalize. cbv zeta.
  unfold strip at 1. unfold words_spaced.
  apply rstrip_by_runs_canon. eapply lstrip_by_runs_spaced.
  apply (sub_runs_from_runs_spaced false). apply sub_runs_from_no_punct.
Qed.

End NormalShape.

(** X16: the shape of a normalised text.  [normalize] returns the empty
    text or words of [\w] characters with exactly one space between two
    words: no punctuation is left, the only blank left is the single
    space between words, and there is no blank at either end.  (The
    space is a blank for [str.strip] and the regex class.) *)
Theorem normalize_gives_spaced_words (L : PyLib) (s : ustr) :
  isspace L space = true ->
  (normalize L s = [] \/ words_spaced L (normalize L s) = true)
  /\ Forall (fun c => punct L c = false) (normalize L s)
  /\ Forall (fun c => isspace L c = true -> c = space) (normalize L s)
  /\ strip L (normalize L s) = normalize L s.
Proof.
  intros Hspace.
  pose proof (normalize_shape L Hspace s) as Hshape.
  split; [exact Hshape|].
  assert (Hchars : Forall (fun c => c = space \/ is_word L c && negb (isspace L c) = true)
                          (normalize L s)).
  { destruct Hshape as [->|H]; [constructor|]. eapply runs_canon_chars, H. }
  split; [|split].
  - eapply Forall_impl; [exact Hchars|]. intros c [->|Hc]; unfold punct.
    + now rewrite Hspace, andb_false_r.
    + apply andb_true_iff in Hc as [-> _]. reflexivity.
  - eapply Forall_impl; [exact Hchars|]. intros c [->|Hc] Hsp; [reflexivity|].
    apply andb_true_iff in Hc as [_ Hc]. rewrite Hsp in Hc. discriminate Hc.
  - destruct s as [|c0 s0]; [reflexivity|]. unfold normalize. cbv zeta. apply strip_strip.
Qed.

Lemma normalize_gives_spaced_words_witness :
  isspace basic space = true
  /\ strip basic (normalize basic (lit " New   York!! ")) = normalize basic (lit " New   York!! ").
Proof.
  assert (H : isspace basic space = true) by reflexivity.
  split; [exact H|].
  exact (proj2 (proj2 (proj2 (normalize_gives_spaced_words basic (lit " New   York!! ") H)))).
Defined.

(** ** db.py: the state row *)






(** ** db.py: sessions *)

Lemma end_session_sessions (sid : value) (now : Z) (d : Db) :
  sessions (end_session sid now d).2
  = map (fun s => if bool_decide (VInt (s_session_id s) = sid) then ended s now else s)
        (sessions d).
Proof. reflexivity. Qed.

(** X18: session ids are never reused.  When the ids of the sessions are
    distinct and none is above the last id handed out, [create_session]
    returns an id that no session has, appends a session that has not
    ended and keeps that invariant; [end_session] on the new id then
    sets the end time of the new session and of no other; neither
    touches the state row. *)
Theorem session_ids_are_fresh (d : Db) (chat_id : Z) (thread_id tag : value)
    (round_total now now' : Z) :
  sessions_wf d ->
  let r := create_session chat_id thread_id tag round_total now d in
  let d1 := r.2 in
  let new := {| s_session_id := last_session_id d + 1; s_chat_id := chat_id;
                s_thread_id := thread_id; s_tag := tag; s_round_total := round_total;
                s_started_at := now; s_ended_at := None |} in
  r.1 = Ok (last_session_id d + 1)%Z
  /\ ((last_session_id d + 1)%Z ∉ map s_session_id (sessions d))
  /\ sessions d1 = sessions d ++ [new]
  /\ state_row d1 = state_row d
  /\ sessions_wf d1
  /\ (let d2 := (end_session (VInt (last_session_id d + 1)) now' d1).2 in
      sessions d2 = sessions d ++ [ended new now']
      /\ state_row d2 = state_row d
      /\ sessions_wf d2).
Proof.
  intros [Hnd Hle]. cbv zeta.
  assert (Hfresh : ((last_session_id d + 1)%Z ∉ map s_session_id (sessions d))).
  { intros (s & Hs & Hin)%list_elem_of_fmap. rewrite Forall_forall in Hle.
    specialize (Hle s Hin). simpl in Hle. lia. }
  assert (Hwf1 : sessions_wf (create_session chat_id thread_id tag round_total now d).2).
  { split; simpl.
    - rewrite map_app. simpl. apply NoDup_app. split; [exact Hnd|].
      split; [|apply NoDup_singleton].
      intros x Hx Hx'. apply list_elem_of_singleton in Hx'. subst x. contradiction.
    - apply Forall_app. split; [|repeat constructor; simpl; lia].
      eapply Forall_impl; [exact Hle|]. intros s Hs. simpl in *. lia. }
  split; [reflexivity|]. split; [exact Hfresh|]. split; [reflexivity|].
  split; [reflexivity|]. split; [exact Hwf1|].
  assert (Hmap : map (fun s => if bool_decide (VInt (s_session_id s)
                                               = VInt (last_session_id d + 1))
                               then ended s now' else s) (sessions d) = sessions d).
  { rewrite <- (map_id (sessions d)) at 2. apply map_ext_in. intros s Hs.
    rewrite bool_decide_eq_false_2; [reflexivity|]. intros [= E]. apply Hfresh.
    rewrite <- E. apply list_elem_of_fmap_2. now apply list_elem_of_In. }
  assert (Hs2 : sessions (end_session (VInt (last_session_id d + 1)) now'
                            (create_session chat_id thread_id tag round_total now d).2).2
                = sessions d ++ [ended {| s_session_id := last_session_id d + 1;
                                          s_chat_id := chat_id; s_thread_id := thread_id;
                                          s_tag := tag; s_round_total := round_total;
                                          s_started_at := now; s_ended_at := None |} now']).
  { rewrite end_session_sessions. simpl sessions. rewrite map_app, Hmap. simpl.
    now rewrite bool_decide_eq_true_2. }
  split; [exact Hs2|]. split; [reflexivity|].
  destruct Hwf1 as [Hnd1 Hle1]. split.
  - rewrite Hs2. simpl in Hnd1. rewrite map_app in *. exact Hnd1.
  - rewrite Hs2. simpl in Hle1. simpl last_session_id.
    apply Forall_app in Hle1 as [Hl1 Hl2]. apply Forall_app. split; [exact Hl1|].
    repeat constructor. simpl. lia.
Qed.

Lemma session_ids_are_fresh_witness :
  sessions_wf demo_db
  /\ sessions_wf (create_session (-1001) (VInt 7) (VStr all_tag) 5 1000 demo_db).2.
Proof.
  assert (H : sessions_wf demo_db) by (split; constructor).
  split; [exact H|].
  exact (proj1 (proj2 (proj2 (proj2 (proj2
           (session_ids_are_fresh demo_db (-1001) (VInt 7) (VStr all_tag) 5 1000 1000 H)))))).
Defined.

(** ** main.py: posting the questions of a game *)

Section Rounds.

Context (L : PyLib) (R : PyRandom).

#[local] Arguments next_question : simpl never.

Lemma post_next_question_posts (w : World R) chat thread row c q s' :
  state_row (w_db w) = Some row ->
  value_or (round_current row) (VInt 0) = VInt c ->
  (round_total row = VNone \/ exists n, round_total row = VInt n /\ (c < n)%Z) ->
  next_question L R all_tag None (w_quiz w) = (Ok q, s') ->
  post_next_question L R chat thread w
  = (Ok tt,
     {| w_db := with_state_row (w_db w) (Some (posted_row L row q (c + 1) (w_now w)));
        w_quiz := s'; w_current_question := Some q;
        w_pending_setup := w_pending_setup w;
        w_out := w_out w ++ [SendQuestion (c + 1) (round_total row) (q_question q)];
        w_now := w_now w |}).
Proof.
  intros Hrow Hc Ht Hq. unfold post_next_question. run_world.
  rewrite Hrow. simpl. rewrite Hc, value_or_int. simpl.
  destruct Ht as [Ht|(n & Ht & Hlt)]; rewrite Ht; simpl.
  - rewrite Hq. simpl. rewrite Hrow. simpl. unfold posted_row.
    destruct (0 <? _)%Z; reflexivity.
  - rewrite (proj2 (Z.leb_gt n c)) by lia. simpl.
    rewrite Hq. simpl. rewrite Hrow. simpl. unfold posted_row. rewrite Ht.
    destruct (0 <? _)%Z; reflexivity.
Qed.

Lemma post_next_question_ends (w : World R) chat thread row n c :
  state_row (w_db w) = Some row ->
  round_total row = VInt n ->
  value_or (round_current row) (VInt 0) = VInt c ->
  (n <= c)%Z ->
  value_truthy (session_id row) = true ->
  post_next_question L R chat thread w
  = (Ok tt,
     {| w_db := (end_session (session_id row) (w_now w)
                   (with_state_row (w_db w) (Some (finished_row row)))).2;
        w_quiz := w_quiz w; w_current_question := w_current_question w;
        w_pending_setup := w_pending_setup w;
        w_out := w_out w ++ [SendFinishedWithRating (session_id row)];
        w_now := w_now w |}).
Proof.
  intros Hrow Ht Hc Hle Hsid. unfold post_next_question. run_world.
  rewrite Hrow. simpl. rewrite Ht, Hc, value_or_int. simpl.
  rewrite (proj2 (Z.leb_le n c) Hle). simpl. rewrite Hrow. simpl. rewrite Hsid. reflexivity.
Qed.

Lemma question_messages_app first total qs1 qs2 :
  question_messages first total (qs1 ++ qs2)
  = question_messages first total qs1
    ++ question_messages (first + Z.of_nat (length qs1)) total qs2.
Proof.
  revert first. induction qs1 as [|q qs1 IH]; intros first; simpl.
  - now rewrite Z.add_0_r.
  - rewrite IH. do 3 f_equal. lia.
Qed.

(** From round [c] of [n], [n - c] calls post the remaining questions and
    one more ends the game. *)
Lemma next_questions_play (k : nat) :
  forall (w : World R) chat thread row n c,
    state_row (w_db w) = Some row ->
    round_total row = VInt n ->
    value_or (round_current row) (VInt 0) = VInt c ->
    (c + Z.of_nat k = n)%Z ->
    value_truthy (session_id row) = true ->
    indexed (w_quiz w).1 -> bags_indexed (w_quiz w).1 -> questions (w_quiz w).1 <> [] ->
    exists w' qs row',
      next_questions L R chat thread (S k) w = (Ok tt, w')
      /\ length qs = k
      /\ Forall (fun q => exists x, by_id (w_quiz w).1 !! x = Some q) qs
      /\ w_out w' = w_out w ++ question_messages (c + 1) (VInt n) qs
                           ++ [SendFinishedWithRating (session_id row)]
      /\ state_row (w_db w') = Some row'
      /\ active row' = VInt 0 /\ deadline_ts row' = VNone /\ next_hint_ts row' = VNone
      /\ round_total row' = VInt n /\ value_or (round_current row') (VInt 0) = VInt n
      /\ session_id row' = session_id row
      /\ sessions (w_db w')
         = map (fun s => if bool_decide (VInt (s_session_id s) = session_id row)
                         then ended s (w_now w) else s) (sessions (w_db w))
      /\ w_now w' = w_now w.
Proof.
  induction k as [|k IH]; intros w chat thread row n c Hrow Ht Hc Hk Hsid Hidx Hbags Hne.
  - assert (c = n) by lia. subst c.
    pose proof (post_next_question_ends w chat thread row n n Hrow Ht Hc ltac:(lia) Hsid)
      as Hend.
    eexists _, [], (finished_row row).
    split; [simpl; unfold bind, ret; rewrite Hend; reflexivity|].
    simpl. repeat split; auto.
  - assert (Hlt : (c < n)%Z) by lia.
    assert (Hk' : (c + 1 + Z.of_nat k = n)%Z) by lia. clear Hk.
    destruct w as [d [e g] cq ps out now]. simpl in *.
    destruct (next_by_tag_outcome L R all_tag e g Hidx Hbags)
      as ([q|x] & e' & g' & Hrun & Hcat & Hb' & _ & _ & Hr).
    2: { destruct Hr as [_ Hr]. unfold _ids_for_tag in Hr.
         rewrite bool_decide_eq_true_2 in Hr by reflexivity.
         exfalso. apply Hne. now destruct (questions e). }
    pose proof (post_next_question_posts
                  {| w_db := d; w_quiz := (e, g); w_current_question := cq;
                     w_pending_setup := ps; w_out := out; w_now := now |}
                  chat thread row c q (e', g') Hrow Hc
                  (or_intror (ex_intro _ n (conj Ht Hlt))) Hrun) as Hpost.
    simpl in Hpost.
    edestruct (IH {| w_db := with_state_row d (Some (posted_row L row q (c + 1) now));
                     w_quiz := (e', g'); w_current_question := Some q;
                     w_pending_setup := ps;
                     w_out := out ++ [SendQuestion (c + 1) (round_total row) (q_question q)];
                     w_now := now |} chat thread (posted_row L row q (c + 1) now) n (c + 1)%Z)
      as (w' & qs & row' & Hrun' & Hlen & Hall & Hout & Hrow' & H1 & H2 & H3 & H4 & H5 & H6
          & H7 & H8); try reflexivity; simpl; auto.
    { apply value_or_int. }
    { eapply indexed_same_catalog; eauto. }
    { destruct Hcat as [-> _]. exact Hne. }
    exists w', (q :: qs), row'.
    split.
    { change (next_questions L R chat thread (S (S k)))
        with (bind (post_next_question L R chat thread)
                   (fun _ => next_questions L R chat thread (S k))).
      unfold bind at 1. rewrite Hpost. exact Hrun'. }
    split; [simpl; now rewrite Hlen|].
    split.
    { constructor; [exact Hr|]. eapply Forall_impl; [exact Hall|].
      simpl. intros q' (x & Hx). exists x. destruct Hcat as [_ <-]. exact Hx. }
    split.
    { rewrite Hout. simpl. rewrite Ht, <- !app_assoc. reflexivity. }
    repeat split; auto.
Qed.

End Rounds.

Lemma map_ended_fresh (l : list Session) (new : Session) (now : Z) :
  s_session_id new ∉ map s_session_id l ->
  map (fun s => if bool_decide (VInt (s_session_id s) = VInt (s_session_id new))
                then ended s now else s) (l ++ [new])
  = l ++ [ended new now].
Proof.
  intros Hfresh. rewrite map_app. simpl. rewrite bool_decide_eq_true_2 by reflexivity.
  f_equal. rewrite <- (map_id l) at 2. apply map_ext_in. intros s Hs.
  rewrite bool_decide_eq_false_2; [reflexivity|]. intros [= E]. apply Hfresh.
  rewrite <- E. apply list_elem_of_fmap_2. now apply list_elem_of_In.
Qed.

Section Game.

#[local] Arguments post_next_question : simpl never.
#[local] Arguments next_questions : simpl never.

(** X19: a game asks its rounds.  On a catalog that is not empty,
    [start_quiz] with [rounds] rounds followed by [rounds] further calls
    of [post_next_question] (one for each question that was answered,
    skipped or timed out) never fails; it posts exactly [rounds]
    questions of the catalog, numbered 1 to [rounds] of [rounds], and
    then the end of the game with the rating of its session; the state
    is then inactive, at round [rounds] of [rounds], and the session of
    the game, and no other, has its end time. *)
Theorem a_game_asks_its_rounds (L : PyLib) (R : PyRandom) (w : World R) (chat : Z)
    (thread : value) (tag : ustr) (rounds : Z) (row : StateRow) :
  indexed (w_quiz w).1 -> bags_indexed (w_quiz w).1 -> questions (w_quiz w).1 <> [] ->
  state_row (w_db w) = Some row -> sessions_wf (w_db w) ->
  (0 <= last_session_id (w_db w))%Z -> (1 <= rounds)%Z ->
  let sid := (last_session_id (w_db w) + 1)%Z in
  let game :=
    let* _ := start_quiz L R chat thread tag rounds in
    next_questions L R chat thread (Z.to_nat rounds) in
  exists (w' : World R) (qs : list Question),
    game w = (Ok tt, w')
    /\ length qs = Z.to_nat rounds
    /\ Forall (fun q => exists x, by_id (w_quiz w).1 !! x = Some q) qs
    /\ w_out w' = w_out w ++ question_messages 1 (VInt rounds) qs
                         ++ [SendFinishedWithRating (VInt sid)]
    /\ (exists st, get_state (w_db w') = (Ok st, w_db w')
                   /\ st_active st = false /\ st_round_total st = VInt rounds
                   /\ st_round_current st = VInt rounds /\ st_session_id st = VInt sid
                   /\ st_deadline_ts st = VNone /\ st_next_hint_ts st = VNone)
    /\ sessions (w_db w')
       = sessions (w_db w) ++
         [{| s_session_id := sid; s_chat_id := chat; s_thread_id := thread;
             s_tag := VStr tag; s_round_total := rounds; s_started_at := w_now w;
             s_ended_at := Some (w_now w) |}].
Proof.
  intros Hidx Hbags Hne Hrow [Hnd Hle] Hlast Hrounds sid game.
  set (row0 := {| active := VInt 1; current_qid := VNone; winner_user_id := VNone;
                  deadline_ts := VNone; tag := VStr tag; round_total := VInt rounds;
                  round_current := VInt 0; session_id := VInt sid; hint_level := VInt 0;
                  hint_total := VInt 0; hint_answer := VNone; next_hint_ts := VNone |}).
  set (new := {| s_session_id := sid; s_chat_id := chat; s_thread_id := thread;
                 s_tag := VStr tag; s_round_total := rounds; s_started_at := w_now w;
                 s_ended_at := None |}).
  set (w1 := {| w_db := {| state_row := Some row0;
                           allowed_chat_id := allowed_chat_id (w_db w);
                           allowed_thread_id := allowed_thread_id (w_db w);
                           sessions := sessions (w_db w) ++ [new];
                           last_session_id := sid |};
                w_quiz := w_quiz w; w_current_question := w_current_question w;
                w_pending_setup := w_pending_setup w; w_out := w_out w;
                w_now := w_now w |}).
  assert (Hgame : game w = next_questions L R chat thread (S (Z.to_nat rounds)) w1).
  { unfold game, start_quiz. run_world. rewrite Hrow. simpl. fold sid. fold row0. fold new.
    fold w1.
    change (next_questions L R chat thread (S (Z.to_nat rounds)) w1)
      with (bind (post_next_question L R chat thread)
                 (fun _ => next_questions L R chat thread (Z.to_nat rounds)) w1).
    unfold bind.
    destruct (post_next_question L R chat thread w1) as [[[]|x] w2]; reflexivity. }
  destruct (next_questions_play L R (Z.to_nat rounds) w1 chat thread row0 rounds 0)
    as (w' & qs & row' & Hrun & Hlen & Hall & Hout & Hrow' & H1 & H2 & H3 & H4 & H5 & H6
        & H7 & H8); try reflexivity; auto.
  { lia. }
  { simpl. apply negb_true_iff, Z.eqb_neq. unfold sid. lia. }
  exists w', qs. rewrite Hgame.
  split; [exact Hrun|]. split; [exact Hlen|]. split; [exact Hall|].
  split; [exact Hout|]. split.
  - unfold get_state, bind, get, ret. rewrite Hrow'. eexists. split; [reflexivity|]. simpl.
    rewrite H1, H4, H5, H6, H2, H3. repeat split.
  - rewrite H7. simpl. apply (map_ended_fresh (sessions (w_db w)) new (w_now w)).
    simpl. intros (s & Hs & Hin)%list_elem_of_fmap. rewrite Forall_forall in Hle.
    specialize (Hle s Hin). simpl in Hle. unfold sid in Hs. lia.
Qed.

Lemma a_game_asks_its_rounds_witness :
  questions demo_engine <> [] /\ state_row demo_db = Some initial_row
  /\ exists (w' : World lcg_random) (qs : list Question),
       (let* _ := start_quiz basic lcg_random (-1001) (VInt 7) all_tag 2 in
        next_questions basic lcg_random (-1001) (VInt 7) (Z.to_nat 2))
         (demo_world demo_engine) = (Ok tt, w')
       /\ length qs = 2%nat
       /\ w_out w' = question_messages 1 (VInt 2) qs ++ [SendFinishedWithRating (VInt 1)].
Proof.
  assert (H1 : indexed demo_engine) by exact (load_indexed _ _ _ demo_engine_loaded).
  assert (H2 : bags_indexed demo_engine) by exact (load_bags_indexed _ _ _ demo_engine_loaded).
  assert (H3 : questions demo_engine <> []) by (intros E; vm_compute in E; discriminate E).
  assert (H4 : state_row demo_db = Some initial_row) by reflexivity.
  assert (H5 : sessions_wf demo_db) by (split; constructor).
  assert (H6 : (0 <= 0)%Z) by lia.
  assert (H7 : (1 <= 2)%Z) by lia.
  split; [exact H3|]. split; [exact H4|].
  destruct (a_game_asks_its_rounds basic lcg_random (demo_world demo_engine) (-1001) (VInt 7)
              all_tag 2 initial_row H1 H2 H3 H4 H5 H6 H7)
    as (w' & qs & Hrun & Hlen & _ & Hout & _).
  exists w', qs. split; [exact Hrun|]. split; [exact Hlen | exact Hout].
Defined.

End Game.

(** ** main.py: the first right answer *)

Lemma value_or_idem (v : value) :
  value_or (value_or v (VInt 0)) (VInt 0) = value_or v (VInt 0).
Proof. unfold value_or. destruct (value_truthy v) eqn:E; [now rewrite E | reflexivity]. Qed.

Lemma check_answer_nonempty (L : PyLib) q s :
  check_answer L q s = true -> (length (normalize L s) <? 1)%nat = false.
Proof.
  unfold check_answer. cbv zeta. destruct (normalize L s); [discriminate | reflexivity].
Qed.

Section Award.

Context (L : PyLib) (R : PyRandom).

#[local] Arguments normalize : simpl never.
#[local] Arguments check_answer : simpl never.
#[local] Arguments Nat.ltb : simpl never.

(** What [on_text_answer_award] does to a process: nothing to the state,
    the points and the replies, or the booking of a first right answer. *)
Lemma on_text_answer_award_cases (message : Message) (from_user : User) (p : Process R) :
  let r := on_text_answer_award L R message from_user p in
  let w := pr_world p in
  (r.1 <> Ok true
   /\ w_db (pr_world r.2) = w_db w /\ w_quiz (pr_world r.2) = w_quiz w
   /\ w_current_question (pr_world r.2) = w_current_question w
   /\ w_pending_setup (pr_world r.2) = w_pending_setup w
   /\ w_now (pr_world r.2) = w_now w
   /\ w_out (pr_world r.2)
      = w_out w ++
        match text message with
        | Some (_ :: _) =>
            if value_truthy (allowed_chat_id (w_db w))
               && value_truthy (allowed_thread_id (w_db w))
            then [] else [ReplyBindTopicFirst]
        | _ => []
        end
   /\ scores (pr_board r.2) = scores (pr_board p)
   /\ session_scores (pr_board r.2) = session_scores (pr_board p)
   /\ points_events (pr_board r.2) = points_events (pr_board p)
   /\ pr_replies r.2 = pr_replies p)
  \/ exists thread row q txt h,
       message_thread_id message = Some thread
       /\ value_truthy (allowed_chat_id (w_db w)) = true
       /\ value_truthy (allowed_thread_id (w_db w)) = true
       /\ allowed_topic_from_message message (allowed_chat_id (w_db w))
            (allowed_thread_id (w_db w)) = true
       /\ text message = Some txt
       /\ state_row (w_db w) = Some row
       /\ value_truthy (active row) = true
       /\ winner_user_id row = VNone
       /\ w_current_question w = Some q
       /\ check_answer L q txt = true
       /\ value_int (value_or (hint_level row) (VInt 0)) = Ok h
       /\ r.1 = Ok true
       /\ pr_world r.2
          = {| w_db := with_state_row (w_db w) (Some (won_row row (user_id from_user)));
               w_quiz := w_quiz w; w_current_question := w_current_question w;
               w_pending_setup := w_pending_setup w; w_out := w_out w; w_now := w_now w |}
       /\ scores (pr_board r.2)
          = <[(chat_id message, thread, user_id from_user) :=
                (score (pr_board p) (chat_id message) thread (user_id from_user)
                 + points_for_hint_level h)%Z]> (scores (pr_board p))
       /\ session_scores (pr_board r.2)
          = (let sid := value_or (session_id row) (VInt 0) in
             if value_truthy sid
             then <[(as_integer L sid, user_id from_user) :=
                      (session_score (pr_board p) (as_integer L sid) (user_id from_user)
                       + points_for_hint_level h)%Z]> (session_scores (pr_board p))
             else session_scores (pr_board p))
       /\ points_events (pr_board r.2)
          = points_events (pr_board p) ++
            [{| e_ts := w_now w; e_chat_id := chat_id message; e_thread_id := thread;
                e_session_id := as_integer L (value_or (session_id row) (VInt 0));
                e_user_id := user_id from_user; e_delta := points_for_hint_level h;
                e_reason := lit "correct" |}]
       /\ pr_replies r.2
          = pr_replies p ++
            [(length (w_out w),
              ReplyCorrect (full_name from_user) (points_for_hint_level h) h
                           (first_answer q))].
Proof.
  cbv zeta. destruct p as [[d e cq ps out now] b rs]. unfold on_text_answer_award.
  destruct (text message) as [[|c cs]|] eqn:Htext; simpl; try quiet.
  run_process.
  destruct (value_truthy (allowed_chat_id d)) eqn:Hchat; simpl;
    [|quiet].
  destruct (value_truthy (allowed_thread_id d)) eqn:Hthr; simpl;
    [|quiet].
  destruct (message_thread_id message) as [thread|] eqn:Hmt; simpl;
    [|quiet].
  destruct (allowed_topic_from_message message (allowed_chat_id d) (allowed_thread_id d))
    eqn:Htopic; simpl; [|quiet].
  destruct (state_row d) as [row|] eqn:Hrow; simpl;
    [|quiet].
  destruct (value_truthy (active row)) eqn:Hact; simpl;
    [|quiet].
  destruct (winner_user_id row) eqn:Hwin; simpl;
    try quiet.
  destruct cq as [q|]; simpl; [|quiet].
  destruct (length (normalize L (c :: cs)) <? 1)%nat eqn:Hlen; simpl;
    [quiet|].
  destruct (check_answer L q (c :: cs)) eqn:Hchk; simpl;
    [|quiet].
  rewrite value_or_idem.
  destruct (value_int (value_or (hint_level row) (VInt 0))) as [h|x] eqn:Hh; simpl;
    [|quiet].
  rewrite Hrow. simpl.
  right. exists thread, row, q, (c :: cs), h.
  destruct (value_truthy (value_or (session_id row) (VInt 0))) eqn:Hsid; simpl.
  all: repeat (split; [first [reflexivity | assumption]|]).
  all: unfold score, session_score; simpl.
  all: repeat split; try reflexivity.
  all: try (destruct (scores b !! (chat_id message, thread, user_id from_user));
            reflexivity).
  all: destruct (session_scores b !! _); reflexivity.
Qed.

Lemma on_text_answer_award_true (message : Message) (from_user : User) (p : Process R)
    thread txt row q h :
  value_truthy (allowed_chat_id (w_db (pr_world p))) = true ->
  value_truthy (allowed_thread_id (w_db (pr_world p))) = true ->
  message_thread_id message = Some thread ->
  allowed_topic_from_message message (allowed_chat_id (w_db (pr_world p)))
    (allowed_thread_id (w_db (pr_world p))) = true ->
  text message = Some txt ->
  state_row (w_db (pr_world p)) = Some row ->
  value_truthy (active row) = true ->
  winner_user_id row = VNone ->
  w_current_question (pr_world p) = Some q ->
  check_answer L q txt = true ->
  value_or (hint_level row) (VInt 0) = VInt h ->
  (on_text_answer_award L R message from_user p).1 = Ok true.
Proof.
  intros Hchat Hthr Hmt Htopic Htext Hrow Hact Hwin Hq Hchk Hh.
  destruct p as [[d e cq ps out now] b rs]. simpl in *. unfold on_text_answer_award.
  rewrite Htext. destruct txt as [|c cs]; [discriminate Hchk|].
  run_process. rewrite Hchat, Hthr, Hmt. simpl. rewrite Htopic. simpl.
  rewrite Hrow. simpl. rewrite Hact, Hwin. simpl. subst cq. simpl.
  rewrite (check_answer_nonempty L q _ Hchk), Hchk. simpl.
  rewrite value_or_idem, Hh. simpl. rewrite Hrow. simpl.
  now destruct (value_truthy (value_or (session_id row) (VInt 0))).
Qed.

End Award.

Lemma points_for_hint_level_range (h : Z) :
  (MIN_POINTS <= points_for_hint_level h)%Z
  /\ ((0 <= h)%Z -> (points_for_hint_level h <= MAX_POINTS)%Z)
  /\ ((0 <= h <= 4)%Z -> points_for_hint_level h = (MAX_POINTS - h)%Z).
Proof. unfold points_for_hint_level, MIN_POINTS, MAX_POINTS. lia. Qed.

(** X20: the first right answer is booked.  In the bound topic, while a
    game is active and the round has no winner, a message whose text
    [check_answer] accepts for the current question makes its sender the
    winner of the round and clears the deadline and the time of the next
    hint; the points for the hint level reached (5 minus the level, at
    least 1) are added to the score of the sender in the topic and, when
    the game has a session, to the score in the session; one points
    event records them; no other score changes, in the topic or in a
    session, and the sender is told so. *)
Theorem first_right_answer_is_booked (L : PyLib) (R : PyRandom) (p : Process R)
    (message : Message) (from_user : User) (thread : Z) (txt : ustr) (row : StateRow)
    (q : Question) (h : Z) :
  let w := pr_world p in
  value_truthy (allowed_chat_id (w_db w)) = true ->
  value_truthy (allowed_thread_id (w_db w)) = true ->
  message_thread_id message = Some thread ->
  allowed_topic_from_message message (allowed_chat_id (w_db w)) (allowed_thread_id (w_db w))
  = true ->
  text message = Some txt ->
  state_row (w_db w) = Some row ->
  value_truthy (active row) = true ->
  winner_user_id row = VNone ->
  w_current_question w = Some q ->
  check_answer L q txt = true ->
  value_or (hint_level row) (VInt 0) = VInt h ->
  let r := on_text_answer_award L R message from_user p in
  let pts := points_for_hint_level h in
  let uid := user_id from_user in
  let sid := value_or (session_id row) (VInt 0) in
  r.1 = Ok true
  /\ state_row (w_db (pr_world r.2)) = Some (won_row row uid)
  /\ w_out (pr_world r.2) = w_out w
  /\ w_quiz (pr_world r.2) = w_quiz w
  /\ score (pr_board r.2) (chat_id message) thread uid
     = (score (pr_board p) (chat_id message) thread uid + pts)%Z
  /\ (forall chat' thread' uid',
        (chat', thread', uid') <> (chat_id message, thread, uid) ->
        score (pr_board r.2) chat' thread' uid' = score (pr_board p) chat' thread' uid')
  /\ (value_truthy (session_id row) = true ->
      session_score (pr_board r.2) (as_integer L (session_id row)) uid
      = (session_score (pr_board p) (as_integer L (session_id row)) uid + pts)%Z)
  /\ (value_truthy (session_id row) = false ->
      session_scores (pr_board r.2) = session_scores (pr_board p))
  /\ points_events (pr_board r.2)
     = points_events (pr_board p) ++
       [{| e_ts := w_now w; e_chat_id := chat_id message; e_thread_id := thread;
           e_session_id := as_integer L sid; e_user_id := uid; e_delta := pts;
           e_reason := lit "correct" |}]
  /\ pr_replies r.2
     = pr_replies p ++
       [(length (w_out w), ReplyCorrect (full_name from_user) pts h (first_answer q))]
  /\ (MIN_POINTS <= pts)%Z
  /\ ((0 <= h)%Z -> (pts <= MAX_POINTS)%Z)
  /\ ((0 <= h <= 4)%Z -> pts = (MAX_POINTS - h)%Z)
  /\ (forall (sid' : value) (uid' : Z),
        (sid', uid') <> (as_integer L (session_id row), uid) ->
        session_score (pr_board r.2) sid' uid' = session_score (pr_board p) sid' uid').
Proof.
  intros w Hchat Hthr Hmt Htopic Htext Hrow Hact Hwin Hq Hchk Hh r pts uid sid.
  pose proof (on_text_answer_award_true L R message from_user p thread txt row q h
                Hchat Hthr Hmt Htopic Htext Hrow Hact Hwin Hq Hchk Hh) as Htrue.
  destruct (on_text_answer_award_cases L R message from_user p)
    as [[Hno _]|(thread' & row' & q' & txt' & h' & E1 & _ & _ & _ & E2 & E3 & _ & _ & E4
                 & _ & E5 & _ & Hw & Hs & Hss & He & Hr)];
    [contradiction|].
  fold w in E3, E4, Hw, He, Hr. fold r in Hw, Hs, Hss, He, Hr.
  assert (thread' = thread) by congruence. assert (row' = row) by congruence.
  assert (q' = q) by congruence. subst thread' row' q'.
  assert (h' = h) by (rewrite Hh in E5; simpl in E5; congruence). subst h'.
  fold pts uid in Hs, Hss, He, Hr. fold uid in Hw.
  split; [exact Htrue|]. rewrite Hw. simpl.
  split; [reflexivity|]. split; [reflexivity|]. split; [reflexivity|].
  split; [unfold score at 1; now rewrite Hs, lookup_insert_eq|].
  split.
  { intros chat' thread' uid' Hne. unfold score. rewrite Hs.
    now rewrite lookup_insert_ne by congruence. }
  split.
  { intros Hsid. cbv zeta in Hss. unfold value_or in Hss. rewrite Hsid in Hss.
    rewrite Hsid in Hss. unfold session_score at 1. now rewrite Hss, lookup_insert_eq. }
  split.
  { intros Hsid. cbv zeta in Hss. unfold value_or in Hss. rewrite Hsid in Hss.
    exact Hss. }
  split; [exact He|]. split; [exact Hr|].
  destruct (points_for_hint_level_range h) as (H1 & H2 & H3).
  repeat (split; [assumption|]).
  intros sid' uid' Hne. unfold session_score. rewrite Hss. cbv zeta. unfold value_or.
  destruct (value_truthy (session_id row)) eqn:Hsid; [rewrite Hsid | reflexivity].
  now rewrite lookup_insert_ne by congruence.
Qed.

Lemma first_right_answer_is_booked_witness :
  state_row (w_db playing) = Some playing_row
  /\ w_current_question playing = Some playing_question
  /\ check_answer basic playing_question (lit "paris") = true
  /\ score (pr_board (on_text_answer_award basic lcg_random (topic_message "paris") alice
                        (demo_process playing)).2) (-1001) 7 11
     = (score (pr_board (demo_process playing)) (-1001) 7 11 + points_for_hint_level 0)%Z.
Proof.
  assert (H1 : value_truthy (allowed_chat_id (w_db playing)) = true)
    by (vm_compute; reflexivity).
  assert (H2 : value_truthy (allowed_thread_id (w_db playing)) = true)
    by (vm_compute; reflexivity).
  assert (H3 : message_thread_id (topic_message "paris") = Some 7%Z) by reflexivity.
  assert (H4 : allowed_topic_from_message (topic_message "paris")
                 (allowed_chat_id (w_db playing)) (allowed_thread_id (w_db playing)) = true)
    by (vm_compute; reflexivity).
  assert (H5 : text (topic_message "paris") = Some (lit "paris")) by reflexivity.
  assert (H6 : state_row (w_db playing) = Some playing_row) by (vm_compute; reflexivity).
  assert (H7 : value_truthy (active playing_row) = true) by (vm_compute; reflexivity).
  assert (H8 : winner_user_id playing_row = VNone) by (vm_compute; reflexivity).
  assert (H9 : w_current_question playing = Some playing_question)
    by (vm_compute; reflexivity).
  assert (H10 : check_answer basic playing_question (lit "paris") = true)
    by (vm_compute; reflexivity).
  assert (H11 : value_or (hint_level playing_row) (VInt 0) = VInt 0)
    by (vm_compute; reflexivity).
  split; [exact H6|]. split; [exact H9|]. split; [exact H10|].
  exact (proj1 (proj2 (proj2 (proj2 (proj2
           (first_right_answer_is_booked basic lcg_random (demo_process playing)
              (topic_message "paris") alice 7 (lit "paris") playing_row playing_question 0
              H1 H2 H3 H4 H5 H6 H7 H8 H9 H10 H11)))))).
Defined.

(** X21: nothing else is booked.  A text message that comes while no game
    is active, or after the round has a winner, or while no question is
    in memory (as after a restart), or whose text [check_answer] does not
    accept, changes neither the state nor the engine nor any score or
    points event, and the handler replies nothing to it.  The only
    message it can cause is the reminder to bind a topic, which every
    text message gets while no topic is bound; once a topic is bound,
    nothing is sent. *)
Theorem only_a_first_right_answer_is_booked (L : PyLib) (R : PyRandom) (p : Process R)
    (message : Message) (from_user : User) :
  let w := pr_world p in
  match state_row (w_db w) with
  | Some row =>
      value_truthy (active row) = false
      \/ winner_user_id row <> VNone
      \/ match w_current_question w, text message with
         | Some q, Some txt => check_answer L q txt = false
         | _, _ => True
         end
  | None => True
  end ->
  let r := on_text_answer L R message from_user p in
  w_db (pr_world r.2) = w_db w
  /\ w_quiz (pr_world r.2) = w_quiz w
  /\ w_current_question (pr_world r.2) = w_current_question w
  /\ scores (pr_board r.2) = scores (pr_board p)
  /\ session_scores (pr_board r.2) = session_scores (pr_board p)
  /\ points_events (pr_board r.2) = points_events (pr_board p)
  /\ pr_replies r.2 = pr_replies p
  /\ w_out (pr_world r.2)
     = w_out w ++
       match text message with
       | Some (_ :: _) =>
           if value_truthy (allowed_chat_id (w_db w))
              && value_truthy (allowed_thread_id (w_db w))
           then [] else [ReplyBindTopicFirst]
       | _ => []
       end.
Proof.
  intros w Hnot r.
  destruct (on_text_answer_award_cases L R message from_user p)
    as [(Hno & H1 & H2 & H3 & _ & _ & H8 & H4 & H5 & H6 & H7)
       |(thread & row & q & txt & h & _ & _ & _ & _ & E2 & E3 & E4 & E5 & E6 & E7 & _)].
  - assert (Hr : r.2 = (on_text_answer_award L R message from_user p).2).
    { unfold r, on_text_answer, bind.
      destruct (on_text_answer_award L R message from_user p) as [[[|]|x] p']; simpl in *;
        [contradiction | reflexivity | reflexivity]. }
    rewrite Hr. auto 10.
  - exfalso. fold w in E3, E6. rewrite E3 in Hnot. rewrite E6, E2 in Hnot.
    destruct Hnot as [H|[H|H]]; congruence.
Qed.

Lemma only_a_first_right_answer_is_booked_witness :
  check_answer basic playing_question (lit "london") = false
  /\ points_events (pr_board (on_text_answer basic lcg_random (topic_message "london") alice
                                (demo_process playing)).2)
     = points_events (pr_board (demo_process playing))
  /\ w_out (pr_world (on_text_answer basic lcg_random (topic_message "paris") alice
                        (demo_process unbound_world)).2)
     = [ReplyBindTopicFirst].
Proof.
  assert (H0 : check_answer basic playing_question (lit "london") = false)
    by (vm_compute; reflexivity).
  assert (H : match state_row (w_db (pr_world (demo_process playing))) with
              | Some row =>
                  value_truthy (active row) = false
                  \/ winner_user_id row <> VNone
                  \/ match w_current_question (pr_world (demo_process playing)),
                           text (topic_message "london") with
                     | Some q, Some txt => check_answer basic q txt = false
                     | _, _ => True
                     end
              | None => True
              end).
  { vm_compute. right. right. reflexivity. }
  assert (H' : match state_row (w_db (pr_world (demo_process unbound_world))) with
               | Some row =>
                   value_truthy (active row) = false
                   \/ winner_user_id row <> VNone
                   \/ match w_current_question (pr_world (demo_process unbound_world)),
                            text (topic_message "paris") with
                      | Some q, Some txt => check_answer basic q txt = false
                      | _, _ => True
                      end
               | None => True
               end).
  { left. reflexivity. }
  split; [exact H0|]. split.
  - exact (proj1 (proj2 (proj2 (proj2 (proj2 (proj2
             (only_a_first_right_answer_is_booked basic lcg_random (demo_process playing)
                (topic_message "london") alice H))))))).
  - exact (proj2 (proj2 (proj2 (proj2 (proj2 (proj2 (proj2
             (only_a_first_right_answer_is_booked basic lcg_random
                (demo_process unbound_world) (topic_message "paris") alice H')))))))).
Defined.

Lemma event_sum_snoc (f : PointsEvent -> bool) (evs : list PointsEvent) (e : PointsEvent) :
  event_sum f (evs ++ [e]) = (event_sum f evs + (if f e then e_delta e else 0))%Z.
Proof.
  unfold event_sum. rewrite List.filter_app, map_app, foldr_app. simpl.
  generalize (map e_delta (List.filter f evs)). intros l.
  destruct (f e); simpl.
  - induction l as [|x l IH]; simpl; [lia|]. rewrite IH. lia.
  - lia.
Qed.

(** X22: the three tables of points stay in step.  If every score is the
    sum of the points events of its user in its topic, and every score
    of a session (other than 0, the id an event outside any session is
    recorded with) the sum of the events of its user in that session,
    then this still holds after [on_text_answer], whatever the message
    and its sender. *)
Theorem the_ledger_stays_balanced (L : PyLib) (R : PyRandom) (p : Process R)
    (message : Message) (from_user : User) :
  ledger_balanced (pr_board p) ->
  ledger_balanced (pr_board (on_text_answer L R message from_user p).2).
Proof.
  intros [Hs Hss].
  assert (Hb : pr_board (on_text_answer L R message from_user p).2
               = pr_board (on_text_answer_award L R message from_user p).2).
  { unfold on_text_answer, bind.
    destruct (on_text_answer_award L R message from_user p) as [[[|]|x] p']; simpl;
      try reflexivity.
    unfold in_world, sleep. simpl.
    destruct (post_next_question L R _ _ _) as [r w']. reflexivity. }
  rewrite Hb. clear Hb.
  destruct (on_text_answer_award_cases L R message from_user p)
    as [(_ & _ & _ & _ & _ & _ & _ & H4 & H5 & H6 & _)
       |(thread & row & q & txt & h & _ & _ & _ & _ & _ & _ & _ & _ & _ & _ & _ & _ & _
         & H4 & H5 & H6 & _)].
  - split.
    + intros chat thread uid. unfold score. rewrite H4, H6. apply Hs.
    + intros sid uid Hsid. unfold session_score. rewrite H5, H6. now apply Hss.
  - set (pts := points_for_hint_level h) in *.
    split.
    + intros chat thread' uid. unfold score at 1. rewrite H4, H6, event_sum_snoc. simpl.
      destruct (decide ((chat, thread', uid) = (chat_id message, thread, user_id from_user)))
        as [[= -> -> ->]|Hne].
      * rewrite lookup_insert_eq, bool_decide_eq_true_2 by auto. simpl. now rewrite Hs.
      * rewrite lookup_insert_ne by congruence.
        rewrite bool_decide_eq_false_2 by (intros (E1 & E2 & E3); apply Hne; congruence).
        fold (score (pr_board p) chat thread' uid). rewrite Hs. lia.
    + intros sid uid Hsid. unfold session_score at 1. rewrite H5, H6, event_sum_snoc.
      cbv zeta. simpl.
      destruct (value_truthy (value_or (session_id row) (VInt 0))) eqn:Htr.
      * destruct (decide ((sid, uid)
                          = (as_integer L (value_or (session_id row) (VInt 0)),
                             user_id from_user))) as [[= -> ->]|Hne].
        -- rewrite lookup_insert_eq, bool_decide_eq_true_2 by auto. simpl.
           now rewrite (Hss _ _ Hsid).
        -- rewrite lookup_insert_ne by congruence.
           rewrite bool_decide_eq_false_2 by (intros (E1 & E2); apply Hne; congruence).
           fold (session_score (pr_board p) sid uid). rewrite (Hss _ _ Hsid). lia.
      * assert (E : value_or (session_id row) (VInt 0) = VInt 0).
        { unfold value_or in *. destruct (value_truthy (session_id row)) eqn:E';
            [congruence | reflexivity]. }
        rewrite E. simpl.
        rewrite bool_decide_eq_false_2 by (intros (E1 & _); apply Hsid; congruence).
        fold (session_score (pr_board p) sid uid). rewrite (Hss _ _ Hsid). lia.
Qed.

Lemma the_ledger_stays_balanced_witness :
  ledger_balanced empty_board
  /\ ledger_balanced (pr_board (on_text_answer basic lcg_random (topic_message "paris") alice
                                  (demo_process playing)).2).
Proof.
  assert (H : ledger_balanced empty_board) by (split; intros; reflexivity).
  split; [exact H|].
  exact (the_ledger_stays_balanced basic lcg_random (demo_process playing)
           (topic_message "paris") alice H).
Defined.

(** ** main.py: between a right answer and the next question *)

Section Pause.

Context (L : PyLib) (R : PyRandom).

#[local] Arguments post_next_question : simpl never.

Lemma hint_watcher_turn_with_winner (w : World R) row uid :
  state_row (w_db w) = Some row -> winner_user_id row = VInt uid ->
  hint_watcher_turn L R w = (Ok tt, w).
Proof.
  intros Hrow Hwin. destruct w as [d e cq ps out now]. simpl in *.
  unfold hint_watcher_turn. run_world. rewrite Hrow. simpl. rewrite Hwin.
  now destruct (value_truthy (active row) && value_truthy (allowed_chat_id d)
                && value_truthy (allowed_thread_id d)).
Qed.

Lemma timeout_watcher_turn_without_deadline (p : Process R) row :
  state_row (w_db (pr_world p)) = Some row -> deadline_ts row = VNone ->
  timeout_watcher_turn L R p = (Ok tt, p).
Proof.
  intros Hrow Hdl. destruct p as [[d e cq ps out now] b rs]. simpl in *.
  unfold timeout_watcher_turn. run_process. rewrite Hrow. simpl. rewrite Hdl.
  now destruct (value_truthy (active row) && value_truthy (allowed_chat_id d)
                && value_truthy (allowed_thread_id d)).
Qed.

(** One turn of the timeout watcher: nothing, or the answer is sent
    and, after the pause, [post_next_question] runs. *)
Lemma timeout_watcher_turn_cases (p : Process R) :
  (timeout_watcher_turn L R p).2 = p
  \/ exists row deadline,
       state_row (w_db (pr_world p)) = Some row
       /\ value_truthy (active row) = true
       /\ value_truthy (allowed_chat_id (w_db (pr_world p))) = true
       /\ value_truthy (allowed_thread_id (w_db (pr_world p))) = true
       /\ deadline_ts row = VInt deadline /\ (deadline <= w_now (pr_world p))%Z
       /\ winner_user_id row = VNone
       /\ timeout_watcher_turn L R p
          = (let '(r, w') :=
               post_next_question L R (chat_of (allowed_chat_id (w_db (pr_world p))))
                 (allowed_thread_id (w_db (pr_world p)))
                 (at_time (w_now (pr_world p) + PAUSE_BETWEEN_SEC) (pr_world p)) in
             (r, {| pr_world := w'; pr_board := pr_board p;
                    pr_replies := pr_replies p ++
                      [(length (w_out (pr_world p)),
                        SendTimeout
                          (if value_truthy (hint_answer row) then hint_answer row
                           else VStr (match w_current_question (pr_world p) with
                                      | Some q => first_answer q
                                      | None => dash
                                      end)))] |})).
Proof.
  destruct p as [[d e cq ps out now] b rs]. simpl.
  unfold timeout_watcher_turn. run_process.
  destruct (state_row d) as [row|] eqn:Hrow; simpl; [|now left].
  destruct (value_truthy (active row)) eqn:Hact; simpl; [|now left].
  destruct (value_truthy (allowed_chat_id d)) eqn:Hchat; simpl; [|now left].
  destruct (value_truthy (allowed_thread_id d)) eqn:Hthr; simpl; [|now left].
  destruct (value_truthy (deadline_ts row)) eqn:Hdt; simpl; [|now left].
  destruct (deadline_ts row) as [|deadline| |] eqn:Hdl; simpl; try now left.
  destruct (Z.leb_spec deadline now) as [Hdue|Hnot]; simpl; [|now left].
  destruct (winner_user_id row) eqn:Hwin; simpl; try now left.
  right. exists row, deadline. repeat (split; [first [reflexivity | assumption]|]).
  unfold at_time. simpl.
  destruct (post_next_question L R _ _ _) as [r w']. reflexivity.
Qed.

End Pause.

(** X23: the winner locks the round for whatever starts after the
    booking.  In the state a booked right answer leaves (the winner set,
    the deadline and the time of the next hint cleared), a turn of the
    hint watcher or of the timeout watcher that starts at whatever time
    does nothing, and a text handler that starts then, whatever its text
    and sender, books nothing: the state, the scores, the session scores,
    the points events and the replies stay as they are.  (A handler or a
    turn that had read the state before the winner was written is not
    covered: it goes on with what it read.) *)
Theorem winner_locks_what_starts_after_the_booking (L : PyLib) (R : PyRandom)
    (p : Process R) (message : Message) (from_user : User) :
  (on_text_answer_award L R message from_user p).1 = Ok true ->
  let p' := (on_text_answer_award L R message from_user p).2 in
  forall (now : Z) (message' : Message) (from_user' : User),
    hint_watcher_turn L R (at_time now (pr_world p')) = (Ok tt, at_time now (pr_world p'))
    /\ timeout_watcher_turn L R (later now p') = (Ok tt, later now p')
    /\ (let r := on_text_answer_award L R message' from_user' (later now p') in
        r.1 <> Ok true
        /\ w_db (pr_world r.2) = w_db (pr_world p')
        /\ scores (pr_board r.2) = scores (pr_board p')
        /\ session_scores (pr_board r.2) = session_scores (pr_board p')
        /\ points_events (pr_board r.2) = points_events (pr_board p')
        /\ pr_replies r.2 = pr_replies p').
Proof.
  intros Htrue p' now message' from_user'.
  destruct (on_text_answer_award_cases L R message from_user p)
    as [[Hno _]|(thread & row & q & txt & h & _ & _ & _ & _ & _ & _ & _ & _ & _ & _ & _ & _
                 & Hw & _)]; [contradiction|].
  fold p' in Hw.
  assert (Hrow : state_row (w_db (pr_world p')) = Some (won_row row (user_id from_user)))
    by now rewrite Hw.
  split; [eapply hint_watcher_turn_with_winner; [exact Hrow | reflexivity]|].
  split; [eapply timeout_watcher_turn_without_deadline; [exact Hrow | reflexivity]|].
  destruct (on_text_answer_award_cases L R message' from_user' (later now p'))
    as [(Hno & H1 & _ & _ & _ & _ & _ & H4 & H5 & H6 & H7)
       |(thread' & row' & q' & txt' & h' & _ & _ & _ & _ & _ & E3 & _ & E5 & _)].
  - cbv zeta. auto 10.
  - exfalso. simpl in E3. rewrite Hrow in E3. injection E3 as <-. discriminate E5.
Qed.

Lemma winner_locks_what_starts_after_the_booking_witness :
  (on_text_answer_award basic lcg_random (topic_message "paris") alice
     (demo_process playing)).1 = Ok true
  /\ timeout_watcher_turn basic lcg_random
       (later 2000 (on_text_answer_award basic lcg_random (topic_message "paris") alice
                      (demo_process playing)).2)
     = (Ok tt,
        later 2000 (on_text_answer_award basic lcg_random (topic_message "paris") alice
                      (demo_process playing)).2).
Proof.
  assert (H : (on_text_answer_award basic lcg_random (topic_message "paris") alice
                 (demo_process playing)).1 = Ok true) by (vm_compute; reflexivity).
  split; [exact H|].
  exact (proj1 (proj2
           (winner_locks_what_starts_after_the_booking basic lcg_random
              (demo_process playing) (topic_message "paris") alice H
              2000 (topic_message "paris") alice))).
Defined.

(** X24: a turn of the timeout watcher either leaves everything as it is,
    or the game is active, its deadline has passed and the round has no
    winner: then it sends the answer (the hint answer of the state when
    there is one, else the first answer of the question in memory, else
    a dash), books nothing, pauses and posts the next question, as
    [post_next_question] does in the bound topic. *)
Theorem timeout_watcher_turn_effect (L : PyLib) (R : PyRandom) (p : Process R) :
  (timeout_watcher_turn L R p).2 = p
  \/ exists (row : StateRow) (deadline : Z),
       state_row (w_db (pr_world p)) = Some row
       /\ value_truthy (active row) = true
       /\ deadline_ts row = VInt deadline /\ (deadline <= w_now (pr_world p))%Z
       /\ winner_user_id row = VNone
       /\ pr_board (timeout_watcher_turn L R p).2 = pr_board p
       /\ pr_replies (timeout_watcher_turn L R p).2
          = pr_replies p ++
            [(length (w_out (pr_world p)),
              SendTimeout
                (if value_truthy (hint_answer row) then hint_answer row
                 else VStr (match w_current_question (pr_world p) with
                            | Some q => first_answer q
                            | None => dash
                            end)))]
       /\ ((timeout_watcher_turn L R p).1, pr_world (timeout_watcher_turn L R p).2)
          = post_next_question L R (chat_of (allowed_chat_id (w_db (pr_world p))))
              (allowed_thread_id (w_db (pr_world p)))
              (at_time (w_now (pr_world p) + PAUSE_BETWEEN_SEC) (pr_world p)).
Proof.
  destruct (timeout_watcher_turn_cases L R p)
    as [H|(row & deadline & H1 & H2 & _ & _ & H3 & H4 & H5 & H)]; [now left|].
  right. exists row, deadline. rewrite H.
  destruct (post_next_question L R _ _ _) as [r w']. simpl. auto 10.
Qed.

(** ** main.py: the bound topic *)

Section Topic.

Context (L : PyLib) (R : PyRandom).

#[local] Arguments post_next_question : simpl never.
#[local] Arguments stop_quiz : simpl never.
#[local] Arguments start_quiz : simpl never.
#[local] Arguments normalize : simpl never.

Lemma ensure_topic_or_hint_elsewhere (w : World R) (message : Message) :
  value_truthy (allowed_chat_id (w_db w)) = true ->
  value_truthy (allowed_thread_id (w_db w)) = true ->
  (message_thread_id message = None
   \/ allowed_topic_from_message message (allowed_chat_id (w_db w))
        (allowed_thread_id (w_db w)) = false) ->
  ensure_topic_or_hint R message w = (Ok false, w).
Proof.
  intros Hchat Hthr Hout. destruct w as [d e cq ps out now]. simpl in *.
  unfold ensure_topic_or_hint. run_world. rewrite Hchat, Hthr. simpl.
  destruct (message_thread_id message); [|reflexivity].
  destruct Hout as [Hout|Hout]; [discriminate | now rewrite Hout].
Qed.

Lemma ensure_topic_or_hint_unbound (w : World R) (message : Message) :
  value_truthy (allowed_chat_id (w_db w)) = false
  \/ value_truthy (allowed_thread_id (w_db w)) = false ->
  ensure_topic_or_hint R message w
  = (Ok false,
     {| w_db := w_db w; w_quiz := w_quiz w; w_current_question := w_current_question w;
        w_pending_setup := w_pending_setup w; w_out := w_out w ++ [ReplyBindTopicFirst];
        w_now := w_now w |}).
Proof.
  intros Hun. destruct w as [d e cq ps out now]. simpl in *.
  unfold ensure_topic_or_hint. run_world.
  destruct Hun as [-> | ->]; simpl; [reflexivity|].
  now destruct (value_truthy (allowed_chat_id d)).
Qed.

Lemma ensure_topic_or_hint_inside (w : World R) (message : Message) thread :
  value_truthy (allowed_chat_id (w_db w)) = true ->
  value_truthy (allowed_thread_id (w_db w)) = true ->
  message_thread_id message = Some thread ->
  allowed_topic_from_message message (allowed_chat_id (w_db w)) (allowed_thread_id (w_db w))
  = true ->
  ensure_topic_or_hint R message w = (Ok true, w).
Proof.
  intros Hchat Hthr Hmt Hin. destruct w as [d e cq ps out now]. simpl in *.
  unfold ensure_topic_or_hint. run_world. rewrite Hchat, Hthr, Hmt. simpl. now rewrite Hin.
Qed.

End Topic.

(** X25: messages of other topics are ignored.  When a topic is bound, a
    message that is in no topic, or in another chat or topic than the
    bound one, changes nothing and gets no reply, whether it is [/tags],
    [/quiz_stop], [/skip], [/quiz_start] or a text taken as an answer. *)
Theorem handlers_ignore_other_topics (L : PyLib) (R : PyRandom) (p : Process R)
    (message : Message) (from_user : User) :
  let d := w_db (pr_world p) in
  value_truthy (allowed_chat_id d) = true ->
  value_truthy (allowed_thread_id d) = true ->
  (message_thread_id message = None
   \/ allowed_topic_from_message message (allowed_chat_id d) (allowed_thread_id d) = false) ->
  cmd_tags R message p = (Ok tt, p)
  /\ cmd_quiz_stop L R message p = (Ok tt, p)
  /\ cmd_skip L R message p = (Ok tt, p)
  /\ on_text_answer L R message from_user p = (Ok tt, p)
  /\ cmd_quiz_start L R message (pr_world p) = (Ok tt, pr_world p).
Proof.
  intros d Hchat Hthr Hout.
  pose proof (ensure_topic_or_hint_elsewhere R (pr_world p) message Hchat Hthr Hout) as He.
  destruct p as [w b rs]. simpl in *.
  repeat split.
  - unfold cmd_tags, bind, in_world. simpl. now rewrite He.
  - unfold cmd_quiz_stop, bind, in_world. simpl. now rewrite He.
  - unfold cmd_skip, bind, in_world. simpl. now rewrite He.
  - unfold on_text_answer, on_text_answer_award, bind.
    destruct (text message) as [[|c cs]|]; try reflexivity.
    unfold in_world. simpl. now rewrite He.
  - unfold cmd_quiz_start, bind. now rewrite He.
Qed.

Lemma handlers_ignore_other_topics_witness :
  check_answer basic playing_question (lit "paris") = true
  /\ on_text_answer basic lcg_random
       {| chat_id := -1001; message_thread_id := Some 8%Z; text := Some (lit "paris") |}
       alice (demo_process playing)
     = (Ok tt, demo_process playing).
Proof.
  assert (H1 : value_truthy (allowed_chat_id (w_db (pr_world (demo_process playing)))) = true)
    by (vm_compute; reflexivity).
  assert (H2 : value_truthy (allowed_thread_id (w_db (pr_world (demo_process playing)))) = true)
    by (vm_compute; reflexivity).
  assert (H3 : message_thread_id
                 {| chat_id := -1001; message_thread_id := Some 8%Z;
                    text := Some (lit "paris") |} = None
               \/ allowed_topic_from_message
                    {| chat_id := -1001; message_thread_id := Some 8%Z;
                       text := Some (lit "paris") |}
                    (allowed_chat_id (w_db (pr_world (demo_process playing))))
                    (allowed_thread_id (w_db (pr_world (demo_process playing)))) = false)
    by (right; vm_compute; reflexivity).
  split; [vm_compute; reflexivity|].
  exact (proj1 (proj2 (proj2 (proj2
           (handlers_ignore_other_topics basic lcg_random (demo_process playing)
              {| chat_id := -1001; message_thread_id := Some 8%Z;
                 text := Some (lit "paris") |} alice H1 H2 H3))))).
Defined.

(** X26: before a topic is bound.  While the chat or the topic of the
    bot is not set, [/tags], [/quiz_stop], [/skip] and [/quiz_start] do
    nothing but reply that the topic has to be bound first, and a turn
    of the hint watcher or of the timeout watcher does nothing. *)
Theorem commands_ask_for_a_topic_first (L : PyLib) (R : PyRandom) (p : Process R)
    (message : Message) :
  let w := pr_world p in
  value_truthy (allowed_chat_id (w_db w)) = false
  \/ value_truthy (allowed_thread_id (w_db w)) = false ->
  let asked :=
    {| w_db := w_db w; w_quiz := w_quiz w; w_current_question := w_current_question w;
       w_pending_setup := w_pending_setup w; w_out := w_out w ++ [ReplyBindTopicFirst];
       w_now := w_now w |} in
  let p' := {| pr_world := asked; pr_board := pr_board p; pr_replies := pr_replies p |} in
  cmd_tags R message p = (Ok tt, p')
  /\ cmd_quiz_stop L R message p = (Ok tt, p')
  /\ cmd_skip L R message p = (Ok tt, p')
  /\ cmd_quiz_start L R message w = (Ok tt, asked)
  /\ hint_watcher_turn L R w = (Ok tt, w)
  /\ timeout_watcher_turn L R p = (Ok tt, p).
Proof.
  intros w Hun asked p'.
  pose proof (ensure_topic_or_hint_unbound R w message Hun) as He. fold asked in He.
  destruct p as [w0 b rs]. simpl in *. subst w.
  repeat split.
  - unfold cmd_tags, bind, in_world. simpl. now rewrite He.
  - unfold cmd_quiz_stop, bind, in_world. simpl. now rewrite He.
  - unfold cmd_skip, bind, in_world. simpl. now rewrite He.
  - unfold cmd_quiz_start, bind. now rewrite He.
  - destruct w0 as [d e cq ps out now]. simpl in *.
    unfold hint_watcher_turn. run_world.
    destruct (state_row d) as [row|]; simpl; [|reflexivity].
    destruct Hun as [-> | ->]; simpl; rewrite ?andb_false_r; reflexivity.
  - destruct w0 as [d e cq ps out now]. simpl in *.
    unfold timeout_watcher_turn. run_process.
    destruct (state_row d) as [row|]; simpl; [|reflexivity].
    destruct Hun as [-> | ->]; simpl; rewrite ?andb_false_r; reflexivity.
Qed.

Lemma commands_ask_for_a_topic_first_witness :
  value_truthy (allowed_chat_id (w_db unbound_world)) = false
  /\ w_out (pr_world (cmd_skip basic lcg_random (topic_message "/skip")
                        (demo_process unbound_world)).2)
     = [ReplyBindTopicFirst]
  /\ pr_replies (cmd_skip basic lcg_random (topic_message "/skip")
                   (demo_process unbound_world)).2 = [].
Proof.
  assert (H0 : value_truthy (allowed_chat_id (w_db unbound_world)) = false) by reflexivity.
  pose proof (commands_ask_for_a_topic_first basic lcg_random (demo_process unbound_world)
                (topic_message "/skip") (or_introl H0)) as H.
  cbv zeta in H. destruct H as (_ & _ & H & _).
  split; [exact H0|]. rewrite H. split; reflexivity.
Defined.

(** X27: [/set_topic] binds the thread it is sent in.  Outside a topic
    it only replies that it has to be sent in one.  Inside a topic it
    stores the chat and the topic, which [get_topic] then returns,
    leaves the state, the sessions and the points as they are, and
    confirms; afterwards [ensure_topic_or_hint] accepts exactly the
    messages of that chat and topic, silently refusing the others,
    unless the chat or topic id is 0, which counts as not bound. *)
Theorem set_topic_binds_the_thread (R : PyRandom) (p : Process R) (message : Message) :
  let r := cmd_set_topic R message p in
  let w' := pr_world r.2 in
  r.1 = Ok tt
  /\ pr_board r.2 = pr_board p
  /\ state_row (w_db w') = state_row (w_db (pr_world p))
  /\ sessions (w_db w') = sessions (w_db (pr_world p))
  /\ match message_thread_id message with
     | None =>
         w' = pr_world p
         /\ pr_replies r.2 = pr_replies p ++ [(length (w_out (pr_world p)), ReplyNotInThread)]
     | Some thread =>
         get_topic (w_db w') = (Ok (VInt (chat_id message), VInt thread), w_db w')
         /\ pr_replies r.2 = pr_replies p ++ [(length (w_out (pr_world p)), ReplyTopicBound)]
         /\ (forall m : Message,
               chat_id message <> 0%Z -> thread <> 0%Z ->
               ensure_topic_or_hint R m w'
               = (Ok (bool_decide (chat_id m = chat_id message
                                   /\ message_thread_id m = Some thread)), w'))
         /\ (forall m : Message,
               chat_id message = 0%Z \/ thread = 0%Z ->
               (ensure_topic_or_hint R m w').1 = Ok false
               /\ w_out (ensure_topic_or_hint R m w').2 = w_out w' ++ [ReplyBindTopicFirst])
     end.
Proof.
  cbv zeta. destruct p as [[d e cq ps out now] b rs]. unfold cmd_set_topic.
  destruct (message_thread_id message) as [thread|] eqn:Hmt; run_process; unfold set_topic;
    run_world.
  2: { repeat split. }
  repeat split.
  - intros m Hc Ht. unfold ensure_topic_or_hint. run_world.
    rewrite (proj2 (Z.eqb_neq _ _) Hc), (proj2 (Z.eqb_neq _ _) Ht). simpl.
    unfold allowed_topic_from_message, of_thread.
    destruct (message_thread_id m) as [t|] eqn:Hm.
    + f_equal. f_equal.
      destruct (decide (chat_id m = chat_id message)) as [E1|E1];
        destruct (decide (t = thread)) as [E2|E2].
      * rewrite !bool_decide_eq_true_2; [reflexivity | split; congruence | congruence | congruence].
      * rewrite (bool_decide_eq_false_2 (VInt t = VInt thread)) by congruence.
        rewrite (bool_decide_eq_false_2 (_ /\ _)) by (intros [_ H]; congruence).
        apply andb_false_r.
      * rewrite (bool_decide_eq_false_2 (VInt (chat_id m) = _)) by congruence.
        rewrite (bool_decide_eq_false_2 (_ /\ _)) by (intros [H _]; congruence).
        reflexivity.
      * rewrite (bool_decide_eq_false_2 (VInt (chat_id m) = _)) by congruence.
        rewrite (bool_decide_eq_false_2 (_ /\ _)) by (intros [H _]; congruence).
        reflexivity.
    + f_equal. f_equal. symmetry. apply bool_decide_eq_false_2. intros [_ H]. discriminate H.
  - unfold ensure_topic_or_hint. run_world.
    destruct H as [-> | ->]; simpl; rewrite ?orb_true_r; reflexivity.
  - unfold ensure_topic_or_hint. run_world.
    destruct H as [-> | ->]; simpl; rewrite ?orb_true_r; reflexivity.
Qed.

(** ** main.py: stopping, skipping and starting *)

Section Commands.

Context (L : PyLib) (R : PyRandom).

#[local] Arguments post_next_question : simpl never.
#[local] Arguments start_quiz : simpl never.

Lemma hint_watcher_turn_inactive (w : World R) :
  (get_state (w_db w)).1 = Ok cleared_state -> hint_watcher_turn L R w = (Ok tt, w).
Proof.
  intros Hst. destruct w as [d e cq ps out now]. simpl in *.
  unfold hint_watcher_turn, bind, in_db. simpl.
  destruct (get_state d) as [[st|x] d'] eqn:E; simpl in Hst; [|discriminate].
  injection Hst as ->.
  assert (d' = d).
  { unfold get_state, bind, get, ret in E. destruct (state_row d); now inversion E. }
  subst d'. reflexivity.
Qed.

Lemma timeout_watcher_turn_inactive (p : Process R) :
  (get_state (w_db (pr_world p))).1 = Ok cleared_state ->
  timeout_watcher_turn L R p = (Ok tt, p).
Proof.
  intros Hst. destruct p as [[d e cq ps out now] b rs]. simpl in *.
  unfold timeout_watcher_turn, bind, in_world, in_db. simpl.
  destruct (get_state d) as [[st|x] d'] eqn:E; simpl in Hst; [|discriminate].
  injection Hst as ->.
  assert (d' = d).
  { unfold get_state, bind, get, ret in E. destruct (state_row d); now inversion E. }
  subst d'. reflexivity.
Qed.

End Commands.

(** What [/quiz_stop] does in the bound topic. *)
Lemma cmd_quiz_stop_effect (L : PyLib) (R : PyRandom) (p : Process R)
    (message : Message) (thread : Z) :
  let w := pr_world p in
  value_truthy (allowed_chat_id (w_db w)) = true ->
  value_truthy (allowed_thread_id (w_db w)) = true ->
  message_thread_id message = Some thread ->
  allowed_topic_from_message message (allowed_chat_id (w_db w)) (allowed_thread_id (w_db w))
  = true ->
  let r := cmd_quiz_stop L R message p in
  let w' := pr_world r.2 in
  let sid := match state_row (w_db w) with Some row => session_id row | None => VNone end in
  r.1 = Ok tt
  /\ get_state (w_db w') = (Ok cleared_state, w_db w')
  /\ sessions (w_db w')
     = (if value_truthy sid
        then map (fun s => if bool_decide (VInt (s_session_id s) = sid)
                           then ended s (w_now w) else s) (sessions (w_db w))
        else sessions (w_db w))
  /\ pr_replies r.2
     = pr_replies p ++
       [(length (w_out w),
         if value_truthy sid then ReplyStoppedWithRating sid else ReplyStopped)]
  /\ w_out w' = w_out w /\ w_quiz w' = w_quiz w
  /\ w_current_question w' = w_current_question w
  /\ pr_board r.2 = pr_board p
  /\ (forall now, hint_watcher_turn L R (at_time now w') = (Ok tt, at_time now w'))
  /\ (forall now, timeout_watcher_turn L R (later now r.2) = (Ok tt, later now r.2))
  /\ state_row (w_db w')
     = match state_row (w_db w) with Some _ => Some cleared_row | None => None end.
Proof.
  intros w Hchat Hthr Hmt Hin r w' sid.
  pose proof (ensure_topic_or_hint_inside R w message thread Hchat Hthr Hmt Hin) as He.
  assert (Hr : r = cmd_quiz_stop L R message p) by reflexivity.
  destruct p as [[d e cq ps out now] b rs]. simpl in *. subst w.
  unfold cmd_quiz_stop, bind, in_world in Hr. simpl in Hr. rewrite He in Hr. simpl in Hr.
  unfold stop_quiz in Hr. revert Hr. run_process. intros Hr.
  assert (Hfacts :
    r.1 = Ok tt
    /\ get_state (w_db w') = (Ok cleared_state, w_db w')
    /\ sessions (w_db w')
       = (if value_truthy sid
          then map (fun s => if bool_decide (VInt (s_session_id s) = sid)
                             then ended s now else s) (sessions d)
          else sessions d)
    /\ pr_replies r.2
       = rs ++ [(length out,
                 if value_truthy sid then ReplyStoppedWithRating sid else ReplyStopped)]
    /\ w_out w' = out /\ w_quiz w' = e /\ w_current_question w' = cq /\ pr_board r.2 = b
    /\ state_row (w_db w')
       = match state_row d with Some _ => Some cleared_row | None => None end).
  { subst w' sid. rewrite Hr. clear Hr r. simpl.
    destruct (state_row d) as [row|] eqn:Hrow; simpl.
    - destruct (value_truthy (session_id row)) eqn:Hsid; simpl; rewrite ?Hrow; simpl;
        rewrite ?Hsid; simpl; repeat split; unfold get_state, bind, get, ret; simpl;
        rewrite ?Hrow; reflexivity.
    - rewrite ?Hrow. simpl.
      repeat split; unfold get_state, bind, get, ret; simpl; rewrite ?Hrow; reflexivity. }
  destruct Hfacts as (F1 & F2 & F3 & F4 & F5 & F6 & F7 & F8 & F9).
  repeat (split; [assumption|]).
  split; [|split; [|exact F9]].
  - intros now'. apply hint_watcher_turn_inactive. simpl. now rewrite F2.
  - intros now'. apply timeout_watcher_turn_inactive. simpl. fold w'. now rewrite F2.
Qed.

(** X28: [/quiz_stop] in the bound topic always succeeds and clears the
    whole state, whether a game was running or not: [get_state] then
    returns an inactive state with the tag [all], round 0, hint level
    and hint total 0 and no question, winner, deadline, round total,
    session or hint.  The session the state named, if any, gets its end
    time and the reply shows its rating; else the reply only says that
    the quiz is stopped.  Nothing is posted to the topic, and the
    catalog, the question in memory and the points are left as they are.
    A turn of the hint watcher or of the timeout watcher that starts in
    this state does nothing.  The stop does not cancel what is already
    under way: when a handler or a timeout turn that was in its pause
    goes on to [post_next_question] in this state, a question is drawn
    and posted as question 1 of a game without a round total, and the
    state is active again. *)
Theorem quiz_stop_clears_the_state (L : PyLib) (R : PyRandom) (p : Process R)
    (message : Message) (thread : Z) :
  let w := pr_world p in
  value_truthy (allowed_chat_id (w_db w)) = true ->
  value_truthy (allowed_thread_id (w_db w)) = true ->
  message_thread_id message = Some thread ->
  allowed_topic_from_message message (allowed_chat_id (w_db w)) (allowed_thread_id (w_db w))
  = true ->
  let r := cmd_quiz_stop L R message p in
  let w' := pr_world r.2 in
  let sid := match state_row (w_db w) with Some row => session_id row | None => VNone end in
  r.1 = Ok tt
  /\ get_state (w_db w') = (Ok cleared_state, w_db w')
  /\ sessions (w_db w')
     = (if value_truthy sid
        then map (fun s => if bool_decide (VInt (s_session_id s) = sid)
                           then ended s (w_now w) else s) (sessions (w_db w))
        else sessions (w_db w))
  /\ pr_replies r.2
     = pr_replies p ++
       [(length (w_out w),
         if value_truthy sid then ReplyStoppedWithRating sid else ReplyStopped)]
  /\ w_out w' = w_out w /\ w_quiz w' = w_quiz w
  /\ w_current_question w' = w_current_question w
  /\ pr_board r.2 = pr_board p
  /\ (forall now, hint_watcher_turn L R (at_time now w') = (Ok tt, at_time now w'))
  /\ (forall now, timeout_watcher_turn L R (later now r.2) = (Ok tt, later now r.2))
  /\ (forall (row : StateRow) (now chat' : Z) (thread' : value) (q : Question) (s' : Eng R),
        state_row (w_db w) = Some row ->
        next_question L R all_tag None (w_quiz w) = (Ok q, s') ->
        post_next_question L R chat' thread' (at_time now w')
        = (Ok tt,
           {| w_db := with_state_row (w_db w') (Some (posted_row L cleared_row q 1 now));
              w_quiz := s'; w_current_question := Some q;
              w_pending_setup := w_pending_setup w';
              w_out := w_out w' ++ [SendQuestion 1 VNone (q_question q)];
              w_now := now |})
        /\ active (posted_row L cleared_row q 1 now) = VInt 1).
Proof.
  intros w Hchat Hthr Hmt Hin r w' sid.
  destruct (cmd_quiz_stop_effect L R p message thread Hchat Hthr Hmt Hin)
    as (F1 & F2 & F3 & F4 & F5 & F6 & F7 & F8 & F9 & F10 & F11).
  fold w r in F1, F2, F3, F4, F5, F6, F7, F8, F9, F10, F11.
  fold w' in F2, F3, F5, F6, F7, F9, F11. fold sid in F3, F4.
  repeat (split; [assumption|]).
  intros row now chat' thread' q s' Hrow Hq. split; [|reflexivity].
  rewrite Hrow in F11. rewrite <- F6 in Hq.
  exact (post_next_question_posts L R (at_time now w') chat' thread' cleared_row 0 q s'
           F11 eq_refl (or_introl eq_refl) Hq).
Qed.

Lemma quiz_stop_clears_the_state_witness :
  state_row (w_db playing) = Some playing_row
  /\ value_truthy (active playing_row) = true
  /\ get_state (w_db (pr_world (cmd_quiz_stop basic lcg_random (topic_message "/quiz_stop")
                                  (demo_process playing)).2))
     = (Ok cleared_state,
        w_db (pr_world (cmd_quiz_stop basic lcg_random (topic_message "/quiz_stop")
                          (demo_process playing)).2)).
Proof.
  assert (H1 : value_truthy (allowed_chat_id (w_db (pr_world (demo_process playing)))) = true)
    by (vm_compute; reflexivity).
  assert (H2 : value_truthy (allowed_thread_id (w_db (pr_world (demo_process playing)))) = true)
    by (vm_compute; reflexivity).
  assert (H3 : message_thread_id (topic_message "/quiz_stop") = Some 7%Z) by reflexivity.
  assert (H4 : allowed_topic_from_message (topic_message "/quiz_stop")
                 (allowed_chat_id (w_db (pr_world (demo_process playing))))
                 (allowed_thread_id (w_db (pr_world (demo_process playing)))) = true)
    by (vm_compute; reflexivity).
  split; [vm_compute; reflexivity|]. split; [vm_compute; reflexivity|].
  exact (proj1 (proj2
           (quiz_stop_clears_the_state basic lcg_random (demo_process playing)
              (topic_message "/quiz_stop") 7 H1 H2 H3 H4))).
Defined.

(** The demo game is stopped, and [post_next_question] runs afterwards, as
    it does for a handler that was in its pause: the game is on again. *)
Example post_next_question_after_a_stop :
  let p1 := (cmd_quiz_stop basic lcg_random (topic_message "/quiz_stop")
               (demo_process playing)).2 in
  let w2 := (post_next_question basic lcg_random (-1001) (VInt 7) (pr_world p1)).2 in
  (get_state (w_db (pr_world p1))).1 = Ok cleared_state
  /\ match (get_state (w_db w2)).1 with
     | Ok st => st_active st = true /\ st_round_current st = VInt 1
                /\ st_round_total st = VNone /\ st_session_id st = VNone
     | Raise _ => False
     end.
Proof. cbv zeta. split; [vm_compute; reflexivity|]. vm_compute. repeat split. Qed.

(** X29: [/skip] in the bound topic books nothing.  While a game is
    active it replies that the question is skipped, waits a second and
    posts the next question as [post_next_question] does, without
    revealing the answer; when no game is active it only replies so. *)
Theorem skip_posts_the_next_question (L : PyLib) (R : PyRandom) (p : Process R)
    (message : Message) (thread : Z) :
  let w := pr_world p in
  value_truthy (allowed_chat_id (w_db w)) = true ->
  value_truthy (allowed_thread_id (w_db w)) = true ->
  message_thread_id message = Some thread ->
  allowed_topic_from_message message (allowed_chat_id (w_db w)) (allowed_thread_id (w_db w))
  = true ->
  let r := cmd_skip L R message p in
  pr_board r.2 = pr_board p
  /\ match state_row (w_db w) with
     | Some row =>
         if value_truthy (active row)
         then pr_replies r.2 = pr_replies p ++ [(length (w_out w), ReplySkipping)]
              /\ (r.1, pr_world r.2)
                 = post_next_question L R (chat_id message) (VInt thread)
                     (at_time (w_now w + 1) w)
         else r = (Ok tt, {| pr_world := w; pr_board := pr_board p;
                             pr_replies := pr_replies p ++
                               [(length (w_out w), ReplyNotRunning)] |})
     | None =>
         r = (Ok tt, {| pr_world := w; pr_board := pr_board p;
                        pr_replies := pr_replies p ++
                          [(length (w_out w), ReplyNotRunning)] |})
     end.
Proof.
  intros w Hchat Hthr Hmt Hin r.
  pose proof (ensure_topic_or_hint_inside R w message thread Hchat Hthr Hmt Hin) as He.
  assert (Hr : r = cmd_skip L R message p) by reflexivity.
  destruct p as [[d e cq ps out now] b rs]. simpl in *. subst w.
  unfold cmd_skip, bind, in_world in Hr. simpl in Hr. rewrite He in Hr. simpl in Hr.
  rewrite Hmt in Hr. simpl in Hr.
  unfold in_db, get_state, bind, get, ret, reply, sleep in Hr. simpl in Hr.
  destruct (state_row d) as [row|] eqn:Hrow; simpl in Hr.
  - destruct (value_truthy (active row)) eqn:Hact; simpl in Hr.
    + unfold at_time. simpl.
      destruct (post_next_question L R (chat_id message) (VInt thread) _) as [x w'].
      rewrite Hr. simpl. auto.
    + rewrite Hr. simpl. auto.
  - rewrite Hr. simpl. auto.
Qed.

Lemma skip_posts_the_next_question_witness :
  value_truthy (active playing_row) = true
  /\ pr_board (cmd_skip basic lcg_random (topic_message "/skip") (demo_process playing)).2
     = empty_board
  /\ pr_replies (cmd_skip basic lcg_random (topic_message "/skip") (demo_process playing)).2
     = [(2%nat, ReplySkipping)].
Proof.
  assert (H1 : value_truthy (allowed_chat_id (w_db (pr_world (demo_process playing)))) = true)
    by (vm_compute; reflexivity).
  assert (H2 : value_truthy (allowed_thread_id (w_db (pr_world (demo_process playing)))) = true)
    by (vm_compute; reflexivity).
  assert (H3 : message_thread_id (topic_message "/skip") = Some 7%Z) by reflexivity.
  assert (H4 : allowed_topic_from_message (topic_message "/skip")
                 (allowed_chat_id (w_db (pr_world (demo_process playing))))
                 (allowed_thread_id (w_db (pr_world (demo_process playing)))) = true)
    by (vm_compute; reflexivity).
  assert (H5 : state_row (w_db (pr_world (demo_process playing))) = Some playing_row)
    by (vm_compute; reflexivity).
  assert (H6 : value_truthy (active playing_row) = true) by (vm_compute; reflexivity).
  assert (H7 : length (w_out (pr_world (demo_process playing))) = 2%nat)
    by (vm_compute; reflexivity).
  pose proof (skip_posts_the_next_question basic lcg_random (demo_process playing)
                (topic_message "/skip") 7 H1 H2 H3 H4) as H.
  cbv zeta in H. rewrite H5, H6, H7 in H. destruct H as (Hb & Hr & _).
  split; [exact H6|]. split; [exact Hb | exact Hr].
Defined.

Section Start.

Context (L : PyLib) (R : PyRandom).

#[local] Arguments start_quiz : simpl never.
#[local] Arguments list_categories : simpl never.
#[local] Arguments list_tags : simpl never.

(** X30: what [/quiz_start] answers in the bound topic before it starts
    a game.  While a game is active it only replies that one is running.
    Else, without an argument, it remembers a pending setup for the
    chat and topic, with the first category preselected, and shows the
    categories; with an argument that is neither [all] nor a tag of the
    catalog it only replies that the tag is unknown.  In none of these
    cases does the state change. *)
Theorem quiz_start_refusals_and_menu (w : World R) (message : Message) (thread : Z)
    (row : StateRow) :
  value_truthy (allowed_chat_id (w_db w)) = true ->
  value_truthy (allowed_thread_id (w_db w)) = true ->
  message_thread_id message = Some thread ->
  allowed_topic_from_message message (allowed_chat_id (w_db w)) (allowed_thread_id (w_db w))
  = true ->
  state_row (w_db w) = Some row ->
  let parts := split L (default [] (text message)) in
  let tag := match parts with _ :: p1 :: _ => strip L p1 | _ => all_tag end in
  let sent o :=
    {| w_db := w_db w; w_quiz := w_quiz w; w_current_question := w_current_question w;
       w_pending_setup := w_pending_setup w; w_out := w_out w ++ [o]; w_now := w_now w |} in
  (value_truthy (active row) = true ->
   cmd_quiz_start L R message w = (Ok tt, sent ReplyAlreadyRunning))
  /\ (value_truthy (active row) = false -> length parts = 1%nat ->
      cmd_quiz_start L R message w
      = (Ok tt,
         {| w_db := w_db w; w_quiz := w_quiz w; w_current_question := w_current_question w;
            w_pending_setup :=
              <[(chat_id message, Some thread) :=
                  {| p_category := head (list_categories (w_quiz w).1); p_tag := None |}]>
                (w_pending_setup w);
            w_out := w_out w ++ [ReplyChooseCategory (list_categories (w_quiz w).1)];
            w_now := w_now w |}))
  /\ (value_truthy (active row) = false -> length parts <> 1%nat ->
      tag ∉ all_tag :: list_tags (w_quiz w).1 ->
      cmd_quiz_start L R message w = (Ok tt, sent ReplyUnknownTag)).
Proof.
  intros Hchat Hthr Hmt Hin Hrow parts tag sent.
  pose proof (ensure_topic_or_hint_inside R w message thread Hchat Hthr Hmt Hin) as He.
  destruct w as [d e cq ps out now]. simpl in *.
  unfold cmd_quiz_start, bind. rewrite He. simpl.
  unfold in_db, get_state, bind, get, ret. simpl. rewrite Hrow. simpl.
  fold parts. repeat split.
  - intros ->. reflexivity.
  - intros -> Hlen. rewrite bool_decide_eq_true_2 by exact Hlen.
    unfold set_pending_setup, send. simpl. now rewrite Hmt.
  - intros -> Hlen Htag. rewrite bool_decide_eq_false_2 by exact Hlen.
    fold tag. rewrite bool_decide_eq_false_2 by exact Htag. reflexivity.
Qed.

End Start.

Lemma quiz_start_refusals_and_menu_witness :
  value_truthy (active playing_row) = true
  /\ cmd_quiz_start basic lcg_random (topic_message "/quiz_start") playing
     = (Ok tt,
        {| w_db := w_db playing; w_quiz := w_quiz playing;
           w_current_question := w_current_question playing;
           w_pending_setup := w_pending_setup playing;
           w_out := w_out playing ++ [ReplyAlreadyRunning]; w_now := w_now playing |}).
Proof.
  assert (H1 : value_truthy (allowed_chat_id (w_db playing)) = true)
    by (vm_compute; reflexivity).
  assert (H2 : value_truthy (allowed_thread_id (w_db playing)) = true)
    by (vm_compute; reflexivity).
  assert (H3 : message_thread_id (topic_message "/quiz_start") = Some 7%Z) by reflexivity.
  assert (H4 : allowed_topic_from_message (topic_message "/quiz_start")
                 (allowed_chat_id (w_db playing)) (allowed_thread_id (w_db playing)) = true)
    by (vm_compute; reflexivity).
  assert (H5 : state_row (w_db playing) = Some playing_row) by (vm_compute; reflexivity).
  assert (H6 : value_truthy (active playing_row) = true) by (vm_compute; reflexivity).
  split; [exact H6|].
  exact (proj1 (quiz_start_refusals_and_menu basic lcg_random playing
                  (topic_message "/quiz_start") 7 playing_row H1 H2 H3 H4 H5) H6).
Defined.

